(** * code-chatter backend: task registry, ingestion pipeline and scratch space

    A shallow embedding of the coordination code of the backend
    (app/services/background_tasks.py, app/services/document_processor.py,
    app/services/file_processor.py, app/services/repository.py,
    app/core/utils.py and app/api/v1/endpoints/data_processing.py) together
    with the properties the specification states about it.

    Conventions.
    - Python [int] is [Z]; [bytes] is [list Byte.byte]; [str] is [string].
    - [datetime] values are [Z] microseconds (the resolution of
      [datetime.datetime]); [time.time()] readings are abstract ticks in [Z].
    - A call that may raise returns [outcome A]; the exceptions of the model
      are the instances of Python's [Exception].  [asyncio.CancelledError]
      derives from [BaseException] and is delivered by the event loop: it is
      modelled as an event of the task registry, not as an [exn].
    - Collaborators outside the repository (the file system, the document
      loader, the text splitter, the vector store, git, uuid4, FastAPI's
      request validation) are section variables or explicit state. *)

From Stdlib Require Import ZArith Lia Ascii.
From stdpp Require Import gmap strings list fin_maps fin_sets pretty.

Local Open Scope string_scope.
Local Open Scope list_scope.
Local Open Scope Z_scope.

(** ** Python exceptions and fallible calls *)

Module Py.

(** The exception classes the code names in a handler or raises itself.
    All of them derive from [Exception]. *)
Inductive exc_class :=
| Exception_
| OSError_
| ValueError_
| RuntimeError_
| GitCommandError_
| DocumentProcessingError_
| RequestValidationError_.

(** An exception instance.  [HTTPException] carries a status code and a
    detail (fastapi.HTTPException); every other instance carries the text
    [str(e)] yields. *)
Inductive exn :=
| Exc (cls : exc_class) (text : string)
| HTTPException (status_code : Z) (detail : string).

Definition exc_class_eqb (c d : exc_class) : bool :=
  match c, d with
  | Exception_, Exception_ | OSError_, OSError_ | ValueError_, ValueError_
  | RuntimeError_, RuntimeError_ | GitCommandError_, GitCommandError_
  | DocumentProcessingError_, DocumentProcessingError_
  | RequestValidationError_, RequestValidationError_ => true
  | _, _ => false
  end.

(** [isinstance(e, cls)] for the classes above: every instance is an
    [Exception]; the other classes have no modelled subclasses. *)
Definition isinstance (e : exn) (c : exc_class) : bool :=
  match c with
  | Exception_ => true
  | _ => match e with
         | Exc cls _ => exc_class_eqb cls c
         | HTTPException _ _ => false
         end
  end.

Definition is_HTTPException (e : exn) : bool :=
  match e with HTTPException _ _ => true | Exc _ _ => false end.

(** [str(e)].  starlette renders an HTTPException as "<code>: <detail>". *)
Definition str (e : exn) : string :=
  match e with
  | Exc _ text => text
  | HTTPException code detail => pretty code +:+ ": " +:+ detail
  end.

(** The result of a call that may raise. *)
(** The result of an awaited or plain call: a value, an [Exception], or
    asyncio.CancelledError unwinding the coroutine (a [BaseException],
    which [except Exception] does not catch). *)
Inductive outcome (A : Type) :=
| Return (a : A)
| Raise (e : exn)
| Cancelled.
Arguments Return {A} a.
Arguments Raise {A} e.
Arguments Cancelled {A}.

Definition bind {A B} (m : outcome A) (k : A → outcome B) : outcome B :=
  match m with
  | Return a => k a
  | Raise e => Raise e
  | Cancelled => Cancelled
  end.

(** A library call that returns or raises an [Exception]. *)
Definition call {A} (r : exn + A) : outcome A :=
  match r with
  | inl e => Raise e
  | inr a => Return a
  end.

(** [try: body  except Exception as e: handler(e)] *)
Definition try_except {A} (body : outcome A) (handler : exn → outcome A)
  : outcome A :=
  match body with
  | Return a => Return a
  | Raise e => handler e
  | Cancelled => Cancelled
  end.

End Py.

Import Py.

Global Instance outcome_ret : MRet outcome := @Return.
Global Instance outcome_bind : MBind outcome := λ A B k m, Py.bind m k.

(** ** app/services/background_tasks.py *)

Module Tasks.

Inductive TaskStatus := PENDING | RUNNING | COMPLETED | FAILED | CANCELLED.

Global Instance TaskStatus_eq_dec : EqDecision TaskStatus.
Proof. solve_decision. Defined.

(** [task.status in [COMPLETED, FAILED, CANCELLED]] *)
Definition terminal (st : TaskStatus) : bool :=
  match st with
  | COMPLETED | FAILED | CANCELLED => true
  | PENDING | RUNNING => false
  end.

Definition datetime := Z.

Section registry.
(** The type of the values a unit of work returns (Python's [Any]). *)
Context {Any : Type}.

Record BackgroundTask := mkBackgroundTask {
  id : string;
  name : string;
  status : TaskStatus;
  created_at : datetime;
  started_at : option datetime;
  completed_at : option datetime;
  progress : Z;                       (* 0.0 or 100.0 in the source *)
  result : option Any;
  error_message : option string;
  metadata : gmap string Any
}.

(** Where the coroutine [_execute_task] of one task is suspended. *)
Inductive coro_state :=
| Created          (* asyncio.create_task returned, body not entered yet *)
| AwaitSemaphore   (* inside the try, waiting in [async with self._semaphore] *)
| AwaitTaskFunc    (* a slot is held, waiting in [await task_func(...)] *)
| Done.            (* the coroutine has finished: [asyncio_task.done()] *)

Global Instance coro_state_eq_dec : EqDecision coro_state.
Proof. solve_decision. Defined.

(** The [asyncio.Task] handle kept in [_running_tasks]. *)
Record asyncio_Task := mkAsyncioTask {
  coro : coro_state;
  must_cancel : bool        (* [cancel()] was called, not yet delivered *)
}.

Definition done (a : asyncio_Task) : bool :=
  bool_decide (coro a = Done).

(** [asyncio.Semaphore] is represented by its counter [_value]. *)
Record BackgroundTaskService := mkService {
  _tasks : gmap string BackgroundTask;
  _running_tasks : gmap string asyncio_Task;
  _semaphore : Z;
  _cleanup_interval : Z
}.

(** [BackgroundTaskService.__init__]: [asyncio.Semaphore(n)] raises
    ValueError for a negative [n]. *)
Definition __init__ (max_concurrent_tasks : Z) : outcome BackgroundTaskService :=
  if max_concurrent_tasks <? 0
  then Raise (Exc ValueError_ "Semaphore initial value must be >= 0")
  else Return {| _tasks := ∅; _running_tasks := ∅;
                 _semaphore := max_concurrent_tasks;
                 _cleanup_interval := 3600 |}.

Definition default_max_concurrent_tasks : Z := 3.

(** An attribute assignment through the reference
    [bg_task = self._tasks[task_id]]. *)
Definition set_task (task_id : string) (f : BackgroundTask → BackgroundTask)
    (s : BackgroundTaskService) : BackgroundTaskService :=
  match _tasks s !! task_id with
  | Some t => {| _tasks := <[task_id := f t]> (_tasks s);
                 _running_tasks := _running_tasks s;
                 _semaphore := _semaphore s;
                 _cleanup_interval := _cleanup_interval s |}
  | None => s
  end.

Definition set_coro (task_id : string) (a : asyncio_Task)
    (s : BackgroundTaskService) : BackgroundTaskService :=
  {| _tasks := _tasks s;
     _running_tasks := <[task_id := a]> (_running_tasks s);
     _semaphore := _semaphore s;
     _cleanup_interval := _cleanup_interval s |}.

Definition set_semaphore (v : Z) (s : BackgroundTaskService)
    : BackgroundTaskService :=
  {| _tasks := _tasks s;
     _running_tasks := _running_tasks s;
     _semaphore := v;
     _cleanup_interval := _cleanup_interval s |}.

(** [create_task]: [uuid] is the value of [str(uuid.uuid4())] and [now]
    the value of [datetime.now()].  The unit of work is not run here:
    [asyncio.create_task] only schedules the coroutine. *)
Definition create_task (now : datetime) (uuid : string) (task_name : string)
    (s : BackgroundTaskService) : string * BackgroundTaskService :=
  let task_id := uuid in
  let bg_task := {| id := task_id; name := task_name; status := PENDING;
                    created_at := now; started_at := None;
                    completed_at := None; progress := 0; result := None;
                    error_message := None; metadata := ∅ |} in
  (task_id,
   {| _tasks := <[task_id := bg_task]> (_tasks s);
      _running_tasks :=
        <[task_id := {| coro := Created; must_cancel := false |}]>
          (_running_tasks s);
      _semaphore := _semaphore s;
      _cleanup_interval := _cleanup_interval s |}).

(** The [finally] clause of [_execute_task]. *)
Definition finally_ (task_id : string) (s : BackgroundTaskService)
    : BackgroundTaskService :=
  {| _tasks := _tasks s;
     _running_tasks := delete task_id (_running_tasks s);
     _semaphore := _semaphore s;
     _cleanup_interval := _cleanup_interval s |}.

(** [self._semaphore.release()], run by [__aexit__] of the [async with]. *)
Definition release (s : BackgroundTaskService) : BackgroundTaskService :=
  set_semaphore (_semaphore s + 1) s.

(** What leaves the coroutine [_execute_task]: nothing ([None]), or an
    exception that no handler caught. *)
Definition escaped := option exn.

Definition mark_running (now : datetime) (t : BackgroundTask) : BackgroundTask :=
  {| id := id t; name := name t; status := RUNNING;
     created_at := created_at t; started_at := Some now;
     completed_at := completed_at t; progress := progress t;
     result := result t; error_message := error_message t;
     metadata := metadata t |}.

Definition mark_completed (now : datetime) (r : Any) (t : BackgroundTask)
    : BackgroundTask :=
  {| id := id t; name := name t; status := COMPLETED;
     created_at := created_at t; started_at := started_at t;
     completed_at := Some now; progress := 100;
     result := Some r; error_message := error_message t;
     metadata := metadata t |}.

Definition mark_cancelled (now : datetime) (t : BackgroundTask) : BackgroundTask :=
  {| id := id t; name := name t; status := CANCELLED;
     created_at := created_at t; started_at := started_at t;
     completed_at := Some now; progress := progress t;
     result := result t; error_message := error_message t;
     metadata := metadata t |}.

Definition mark_failed (now : datetime) (e : exn) (t : BackgroundTask)
    : BackgroundTask :=
  {| id := id t; name := name t; status := FAILED;
     created_at := created_at t; started_at := started_at t;
     completed_at := Some now; progress := progress t;
     result := result t; error_message := Some (Py.str e);
     metadata := metadata t |}.

(** [_execute_task], first resumption by the event loop.  When [cancel()]
    was called before the coroutine ever ran, the event loop throws
    CancelledError into the unstarted coroutine: the body, its handlers
    and its [finally] are not entered.  Otherwise the coroutine enters
    the [try] and reaches [async with self._semaphore]. *)
Definition _execute_task_start (task_id : string) (s : BackgroundTaskService)
    : option BackgroundTaskService :=
  match _running_tasks s !! task_id with
  | Some a =>
      if bool_decide (coro a = Created) then
        if must_cancel a
        then Some (set_coro task_id {| coro := Done; must_cancel := false |} s)
        else Some (set_coro task_id
                     {| coro := AwaitSemaphore; must_cancel := must_cancel a |} s)
      else None
  | None => None
  end.

(** [_execute_task], lines 105-113: a slot is acquired (possible only
    while the counter is positive), the record becomes RUNNING and the
    unit of work is awaited. *)
Definition _execute_task_acquire (now : datetime) (task_id : string)
    (s : BackgroundTaskService) : option BackgroundTaskService :=
  match _running_tasks s !! task_id with
  | Some a =>
      if bool_decide (coro a = AwaitSemaphore) && (0 <? _semaphore s) then
        Some (set_coro task_id
                {| coro := AwaitTaskFunc; must_cancel := must_cancel a |}
                (set_task task_id (mark_running now)
                   (set_semaphore (_semaphore s - 1) s)))
      else None
  | None => None
  end.

(** [_execute_task], lines 113-137: [await task_func(...)] ends with [w].  On a
    return the record is completed inside the [async with] and the slot
    is released on leaving it; on an exception the [async with] is left
    first (releasing the slot) and the matching handler runs.  The
    [finally] clause runs in every case. *)
Definition _execute_task_resume (now : datetime) (task_id : string)
    (w : outcome Any) (s : BackgroundTaskService)
    : option (escaped * BackgroundTaskService) :=
  match _running_tasks s !! task_id with
  | Some a =>
      if bool_decide (coro a = AwaitTaskFunc) then
        match w with
        | Return r =>
            Some (None, finally_ task_id
                          (release (set_task task_id (mark_completed now r) s)))
        | Cancelled =>
            Some (None, finally_ task_id
                          (set_task task_id (mark_cancelled now) (release s)))
        | Raise e =>
            if isinstance e Exception_
            then Some (None, finally_ task_id
                               (set_task task_id (mark_failed now e) (release s)))
            else Some (Some e, finally_ task_id (release s))
        end
      else None
  | None => None
  end.

(** [_execute_task], CancelledError delivered while the coroutine waits
    for a slot: no slot is held, the first handler runs, then [finally]. *)
Definition _execute_task_cancelled_waiting (now : datetime) (task_id : string)
    (s : BackgroundTaskService) : option BackgroundTaskService :=
  match _running_tasks s !! task_id with
  | Some a =>
      if bool_decide (coro a = AwaitSemaphore) && must_cancel a then
        Some (finally_ task_id (set_task task_id (mark_cancelled now) s))
      else None
  | None => None
  end.

Definition get_task_status (task_id : string) (s : BackgroundTaskService)
    : option BackgroundTask :=
  _tasks s !! task_id.

Definition get_all_tasks (include_completed : bool) (s : BackgroundTaskService)
    : gmap string BackgroundTask :=
  if include_completed then _tasks s
  else filter (λ kv, terminal (status kv.2) = false) (_tasks s).

Definition cancel_task (task_id : string) (s : BackgroundTaskService)
    : bool * BackgroundTaskService :=
  match _running_tasks s !! task_id with
  | None => (false, s)
  | Some a =>
      if negb (done a)
      then (true, set_coro task_id {| coro := coro a; must_cancel := true |} s)
      else (false, s)
  end.

(** The test of the loop of [cleanup_completed_tasks];
    [total_seconds() > 3600] on microsecond datetimes. *)
Definition expired (now : datetime) (interval : Z) (t : BackgroundTask) : bool :=
  terminal (status t) &&
  match completed_at t with
  | Some c => interval * 1000000 <? now - c
  | None => false
  end.

Definition cleanup_completed_tasks (now : datetime) (s : BackgroundTaskService)
    : Z * BackgroundTaskService :=
  let tasks_to_remove :=
    filter (λ kv, expired now (_cleanup_interval s) kv.2 = true) (_tasks s) in
  (Z.of_nat (size tasks_to_remove),
   {| _tasks := filter (λ kv, expired now (_cleanup_interval s) kv.2 = false)
                  (_tasks s);
      _running_tasks := _running_tasks s;
      _semaphore := _semaphore s;
      _cleanup_interval := _cleanup_interval s |}).

(** The number of records whose status is RUNNING. *)
Definition count_running (s : BackgroundTaskService) : nat :=
  size (filter (λ kv, status kv.2 = RUNNING) (_tasks s)).

(** *** The event loop

    One event is one uninterrupted run of code between two suspension
    points (or a part of one).  [uuid4] is modelled as handing out an
    identifier that is not in use. *)
Inductive event :=
| Create (now : datetime) (uuid : string) (task_name : string)
| Start (task_id : string)
| Acquire (now : datetime) (task_id : string)
| Resume (now : datetime) (task_id : string) (w : outcome Any)
| CancelWaiting (now : datetime) (task_id : string)
| Cancel (task_id : string)
| Cleanup (now : datetime)
| GetStatus (task_id : string).

Definition fire (e : event) (s : BackgroundTaskService)
    : option BackgroundTaskService :=
  match e with
  | Create now uuid task_name =>
      if bool_decide (_tasks s !! uuid = None ∧ _running_tasks s !! uuid = None)
      then Some (create_task now uuid task_name s).2
      else None
  | Start task_id => _execute_task_start task_id s
  | Acquire now task_id => _execute_task_acquire now task_id s
  | Resume now task_id w => snd <$> _execute_task_resume now task_id w s
  | CancelWaiting now task_id => _execute_task_cancelled_waiting now task_id s
  | Cancel task_id => Some (cancel_task task_id s).2
  | Cleanup now => Some (cleanup_completed_tasks now s).2
  | GetStatus _ => Some s
  end.

Fixpoint run (evs : list event) (s : BackgroundTaskService)
    : option BackgroundTaskService :=
  match evs with
  | [] => Some s
  | e :: evs' =>
      match fire e s with
      | Some s' => run evs' s'
      | None => None
      end
  end.

(** The states of a service built with ceiling [N]. *)
Inductive reachable (N : Z) : BackgroundTaskService → Prop :=
| reachable_init s0 :
    __init__ N = Return s0 → reachable N s0
| reachable_fire s e s' :
    reachable N s → fire e s = Some s' → reachable N s'.

End registry.

Arguments BackgroundTask : clear implicits.
Arguments BackgroundTaskService : clear implicits.
Arguments event : clear implicits.

End Tasks.

(** ** Shared data: documents, statistics, settings, the environment *)

Definition bytes := list Byte.byte.

(** A value of a [Document.metadata] dictionary. *)
Inductive meta_value :=
| MStr (s : string)
| MTime (t : Z).                  (* a reading of [time.time()] *)

(** langchain's [Document]. *)
Record Document := mkDocument {
  page_content : string;
  doc_metadata : gmap string meta_value
}.

(** langchain's [Language] members named in [_get_language_from_extension]. *)
Inductive Language :=
| PYTHON | JS | JAVA | CPP | CSHARP | PHP | RUBY | GO | RUST | KOTLIN
| SWIFT | SCALA | HTML | MARKDOWN | LATEX | SOL.

(** app/models/schemas.py *)
Record FileProcessingStats := mkStats {
  total_files : Z;
  processed_files : Z;
  skipped_files : Z;
  failed_files : Z;
  processing_time_seconds : Z
}.

(** What a unit of work hands back to the task registry. *)
Inductive PyAny :=
| PyNone
| PyStats (st : FileProcessingStats).

(** app/config/settings.py, the fields the pipeline reads. *)
Record Settings := mkSettings {
  chunk_size : Z;
  chunk_overlap : Z;
  max_concurrent_files : Z;
  max_file_size_mb : Z;
  ignore_patterns : list string;
  temp_repo_dir : string;
  temp_files_dir : string
}.

Definition default_settings : Settings :=
  {| chunk_size := 2000;
     chunk_overlap := 200;
     max_concurrent_files := 5;
     max_file_size_mb := 100;
     ignore_patterns :=
       ["*/.git/*"; "*/.github/*"; "*/node_modules/*"; "*/.venv/*";
        "*/venv/*"; "*/__pycache__/*"; "*.pyc"; "*.lock"; "*.log";
        "*/.DS_Store"; "*.min.js"; "*.map"; "*.pdf"; "*.jpg"; "*.jpeg";
        "*.png"; "*.gif"];
     temp_repo_dir := "./temp_repo";
     temp_files_dir := "./temp_files" |}.

(** A node of the file system: paths are the strings the code builds. *)
Inductive node :=
| File (content : bytes)
| Dir.

Abbreviation filesystem := (gmap string node).

(** The collaborators the pipeline calls.  A fault is an exception the
    operating system or a library raises; [None] means the call goes through.
    Faults are modelled where the code has a handler for them. *)
Record environment := mkEnvironment {
  settings : Settings;
  (* uuid.uuid4(): the n-th identifier handed out, as [.hex] and as [str()] *)
  uuid4_hex : nat → string;
  uuid4_str : nat → string;
  (* time.time() when the i-th chunk of a file is stamped *)
  time_time : string → nat → Z;
  (* os.stat failing on a path that exists (permissions, an embedded NUL) *)
  stat_fault : string → option exn;
  (* st_size of a directory *)
  dir_st_size : string → Z;
  (* aiofiles.open(path, "wb") / write failing *)
  write_fault : string → option exn;
  (* UnstructuredFileLoader(path).load() on a file with the given content *)
  loader_load : string → bytes → exn + list Document;
  (* RecursiveCharacterTextSplitter.from_language(language, chunk_size,
     chunk_overlap).split_documents(documents) *)
  split_documents : Language → Z → Z → list Document → exn + list Document;
  (* Chroma.from_documents(...) inside vector_store_service.store_documents *)
  chroma_from_documents : list Document → exn + unit;
  (* time.time() - start_time for a batch *)
  elapsed : list string → Z;
  (* awaiting Repo.clone_from(repo_url, target_dir, depth=1) in the executor,
     and what the clone leaves on disk *)
  clone_from : string → string → filesystem → outcome unit * filesystem;
  (* pydantic's HttpUrl beyond the scheme: the remaining checks (host, length)
     and the text [str(url)] of an accepted URL *)
  httpurl_rest_ok : string → bool;
  httpurl_str : string → string
}.

(** ** app/core/utils.py and the path functions it relies on *)

Module Utils.

Definition chr (n : N) : ascii := Ascii.ascii_of_N n.

(** [str.lower] on ASCII text. *)
Definition lower_char (c : ascii) : ascii :=
  let n := Ascii.N_of_ascii c in
  if ((65 <=? n) && (n <=? 90))%N then chr (n + 32) else c.

Fixpoint lower (s : string) : string :=
  match s with
  | EmptyString => EmptyString
  | String c s' => String (lower_char c) (lower s')
  end.

(** [c in s] for a character. *)
Fixpoint has_char (c : ascii) (s : string) : bool :=
  match s with
  | EmptyString => false
  | String c' s' => Ascii.eqb c c' || has_char c s'
  end.

(** [s.split(sep)] for a one-character separator. *)
Fixpoint split (sep : ascii) (s : string) : list string :=
  match s with
  | EmptyString => [EmptyString]
  | String c s' =>
      if Ascii.eqb c sep then EmptyString :: split sep s'
      else match split sep s' with
           | w :: ws => String c w :: ws
           | [] => [String c EmptyString]
           end
  end.

(** [l[-1]] *)
Definition last_item (l : list string) : string := List.last l EmptyString.

Definition is_empty (s : string) : bool :=
  match s with EmptyString => true | String _ _ => false end.

Definition len (s : string) : Z := Z.of_nat (String.length s).

(** [s.startswith(p)] *)
Fixpoint startswith (p s : string) : bool :=
  match p, s with
  | EmptyString, _ => true
  | String a p', String b s' => Ascii.eqb a b && startswith p' s'
  | String _ _, EmptyString => false
  end.

(** [needle in hay] *)
Fixpoint contains (needle hay : string) : bool :=
  startswith needle hay ||
  match hay with
  | EmptyString => false
  | String _ hay' => contains needle hay'
  end.

(** [s.lstrip(chars)], [s.rstrip(chars)], [s.strip(chars)] *)
Fixpoint lstrip (chars : string) (s : string) : string :=
  match s with
  | EmptyString => EmptyString
  | String c s' => if has_char c chars then lstrip chars s' else s
  end.

Fixpoint rstrip (chars : string) (s : string) : string :=
  match s with
  | EmptyString => EmptyString
  | String c s' =>
      match rstrip chars s' with
      | EmptyString =>
          if has_char c chars then EmptyString else String c EmptyString
      | String _ _ as kept => String c kept
      end
  end.

Definition strip (chars : string) (s : string) : string :=
  rstrip chars (lstrip chars s).

(** [PurePosixPath(p).name]: the last component that is neither empty nor
    a single dot. *)
Definition path_name (p : string) : string :=
  last_item
    (List.filter (λ c, negb (is_empty c) && negb (String.eqb c "."))
       (split "/" p)).

(** [PurePosixPath(p).suffix]: with [i = name.rfind('.')], the text
    [name[i:]] when [0 < i < len(name) - 1], else the empty string. *)
Definition path_suffix (p : string) : string :=
  let name := path_name p in
  let after := last_item (split "." name) in
  if has_char "." name && (0 <? len after) && (len after + 1 <? len name)
  then String "." after
  else EmptyString.

(** [s.endswith(c)] for a character. *)
Fixpoint endswith_char (c : ascii) (s : string) : bool :=
  match s with
  | EmptyString => false
  | String a EmptyString => Ascii.eqb a c
  | String _ s' => endswith_char c s'
  end.

(** [os.path.join(a, b)] on POSIX. *)
Definition os_path_join (a b : string) : string :=
  if startswith "/" b then b
  else if is_empty a || endswith_char "/" a then a +:+ b
  else a +:+ "/" +:+ b.

(** [os.path.basename(p)] on POSIX: the text after the last slash. *)
Definition os_path_basename (p : string) : string := last_item (split "/" p).

(** [os.path.dirname(p)] on POSIX. *)
Fixpoint drop_last_component (rev_p : string) : string :=
  match rev_p with
  | EmptyString => EmptyString
  | String c rest => if Ascii.eqb c "/" then rev_p else drop_last_component rest
  end.

Definition os_path_dirname (p : string) : string :=
  let head := String.rev (drop_last_component (String.rev p)) in
  if negb (is_empty head) && negb (is_empty (lstrip "/" head))
  then rstrip "/" head
  else head.

(** [is_path_ignored]; [fnmatch.fnmatch] is a parameter. *)
Definition is_path_ignored (fnmatch : string → string → bool)
    (path : string) (patterns : list string) : bool :=
  existsb (fnmatch path) patterns.

(** [os.path.getsize] *)
Definition os_path_getsize (E : environment) (fs : filesystem) (p : string)
    : outcome Z :=
  match fs !! p with
  | None => Raise (Exc OSError_ ("[Errno 2] No such file or directory: " +:+ p))
  | Some n =>
      match stat_fault E p with
      | Some e => Raise e
      | None =>
          match n with
          | File content => Return (Z.of_nat (length content))
          | Dir => Return (dir_st_size E p)
          end
      end
  end.

(** [validate_file_size] *)
Definition validate_file_size (E : environment) (fs : filesystem)
    (file_path : string) (max_size_mb : Z) : outcome bool :=
  match os_path_getsize E fs file_path with
  | Return file_size =>
      let max_size_bytes := max_size_mb * 1024 * 1024 in
      Return (file_size <=? max_size_bytes)
  | Raise e => if isinstance e OSError_ then Return false else Raise e
  | Cancelled => Cancelled
  end.

(** [get_file_extension] *)
Definition get_file_extension (file_path : string) : string :=
  lower (path_suffix file_path).

Definition text_extensions : list string :=
  [".py"; ".js"; ".ts"; ".tsx"; ".jsx"; ".java"; ".cpp"; ".c"; ".h"; ".hpp";
   ".cs"; ".php"; ".rb"; ".go"; ".rs"; ".kt"; ".swift"; ".scala"; ".clj";
   ".html"; ".css"; ".scss"; ".sass"; ".less"; ".xml"; ".yaml"; ".yml";
   ".json"; ".toml"; ".ini"; ".cfg"; ".conf"; ".txt"; ".md"; ".rst";
   ".sql"; ".sh"; ".bash"; ".zsh"; ".ps1"; ".bat"; ".dockerfile"; ".r";
   ".matlab"; ".m"; ".pl"; ".lua"; ".vim"; ".el"; ".hs"; ".ml"; ".fs"].

(** [is_text_file] *)
Definition is_text_file (file_path : string) : bool :=
  let extension := get_file_extension file_path in
  existsb (String.eqb extension) text_extensions.

Definition path_exists (fs : filesystem) (p : string) : bool :=
  bool_decide (is_Some (fs !! p)).

(** The proper ancestors of a path, nearest first. *)
Fixpoint ancestors (fuel : nat) (p : string) : list string :=
  match fuel with
  | O => []
  | S fuel' =>
      let d := os_path_dirname p in
      if is_empty d || String.eqb d p then []
      else d :: ancestors fuel' d
  end.

(** [Path.mkdir(parents=True, exist_ok=True)]: missing ancestors are made. *)
Definition mkdir_parents (p : string) (fs : filesystem) : filesystem :=
  foldr (λ d acc, if path_exists acc d then acc else <[d := Dir]> acc)
    (<[p := Dir]> fs) (ancestors (String.length p) p).

(** [ensure_directory] *)
Definition ensure_directory (directory : string) (fs : filesystem) : filesystem :=
  if path_exists fs directory then fs else mkdir_parents directory fs.

(** A path lies in the tree rooted at [d]. *)
Definition in_tree (d p : string) : bool :=
  String.eqb p d || startswith (d +:+ "/") p.

(** [shutil.rmtree(d)]: the root and everything below it go. *)
Definition rmtree (d : string) (fs : filesystem) : filesystem :=
  filter (λ kv, in_tree d kv.1 = false) fs.

(** [cleanup_directory] *)
Definition cleanup_directory (directory : string) (fs : filesystem) : filesystem :=
  if path_exists fs directory then rmtree directory fs else fs.

(** The character class of the regular expression of [safe_filename]:
    less-than, greater-than, colon, double quote, slash, backslash, bar,
    question mark, star. *)
Definition problematic (c : ascii) : bool :=
  existsb (Ascii.eqb c)
    [chr 60; chr 62; chr 58; chr 34; chr 47; chr 92; chr 124; chr 63; chr 42].

Fixpoint re_sub_problematic (s : string) : string :=
  match s with
  | EmptyString => EmptyString
  | String c s' =>
      String (if problematic c then "_"%char else c) (re_sub_problematic s')
  end.

(** [safe_filename] *)
Definition safe_filename (filename : string) : string :=
  let safe_name := re_sub_problematic filename in
  let safe_name := strip ". " safe_name in
  if is_empty safe_name then "unnamed_file" else safe_name.

End Utils.

(** ** app/services/vector_store.py, [store_documents] *)

Module VectorStore.

Definition store_documents (E : environment) (documents : list Document) : bool :=
  match documents with
  | [] => false
  | _ :: _ =>
      match chroma_from_documents E documents with
      | inr _ => true
      | inl _ => false
      end
  end.

End VectorStore.

(** ** app/services/document_processor.py *)

Module DocProc.
Import Utils.

Record FileProcessingResult := mkFileResult {
  file_path : string;
  success : bool;
  documents : list Document;
  error_message : option string
}.

(** [ProcessingResult]; [pr_success] and [pr_error_message] are its fields
    [success] and [error_message]. *)
Record ProcessingResult := mkProcessingResult {
  pr_success : bool;
  documents_processed : Z;
  documents_failed : Z;
  processing_time : Z;
  pr_error_message : option string
}.

Definition language_map : list (string * Language) :=
  [("py", PYTHON); ("js", JS); ("ts", JS); ("jsx", JS); ("tsx", JS);
   ("java", JAVA); ("cpp", CPP); ("c", CPP); ("cs", CSHARP); ("php", PHP);
   ("rb", RUBY); ("go", GO); ("rs", RUST); ("kt", KOTLIN); ("swift", SWIFT);
   ("scala", SCALA); ("html", HTML); ("md", MARKDOWN); ("tex", LATEX);
   ("sol", SOL)].

Fixpoint dict_get {V} (d : list (string * V)) (k : string) (default : V) : V :=
  match d with
  | [] => default
  | (k', v) :: d' => if String.eqb k k' then v else dict_get d' k default
  end.

Definition _get_language_from_extension (file_path : string) : Language :=
  let extension :=
    if has_char "." file_path
    then last_item (split "." (lower file_path))
    else EmptyString in
  dict_get language_map extension PYTHON.

(** The splitter [_create_text_splitter] builds, applied to documents. *)
Definition _create_text_splitter (E : environment) (file_path : string)
    : list Document → exn + list Document :=
  split_documents E (_get_language_from_extension file_path)
    (chunk_size (settings E)) (chunk_overlap (settings E)).

(** [_load_document]: every exception of the loader is swallowed.  The
    loader raises on a path that is not a regular file. *)
Definition _load_document (E : environment) (fs : filesystem)
    (file_path : string) : list Document :=
  match fs !! file_path with
  | Some (File content) =>
      match loader_load E file_path content with
      | inr docs => docs
      | inl _ => []
      end
  | Some Dir | None => []
  end.

(** The metadata update of lines 159-166 on the [i]-th chunk. *)
Definition stamp (E : environment) (file_path : string) (i : nat)
    (doc : Document) : Document :=
  {| page_content := page_content doc;
     doc_metadata :=
       <["processing_timestamp" := MTime (time_time E file_path i)]>
         (<["file_type" :=
              MStr (if has_char "." file_path
                    then last_item (split "." file_path)
                    else "unknown")]>
            (<["source_file" := MStr file_path]> (doc_metadata doc))) |}.

Definition failure (file_path : string) (message : string) : FileProcessingResult :=
  {| file_path := file_path; success := false; documents := [];
     error_message := Some message |}.

(** [_process_single_file_async] *)
Definition _process_single_file_async (E : environment) (fs : filesystem)
    (file_path : string) : outcome FileProcessingResult :=
  try_except
    (if negb (is_text_file file_path) then
       Return (failure file_path "Not a text file")
     else
       within ← validate_file_size E fs file_path (max_file_size_mb (settings E));
       if negb within then
         Return (failure file_path
                   ("File exceeds " +:+ pretty (max_file_size_mb (settings E))
                      +:+ "MB limit"))
       else
         match _load_document E fs file_path with
         | [] => Return (failure file_path "No content loaded from file")
         | (_ :: _) as loaded =>
             split_docs ← call (_create_text_splitter E file_path loaded);
             Return {| file_path := file_path; success := true;
                       documents := imap (stamp E file_path) split_docs;
                       error_message := None |}
         end)
    (λ e, Return (failure file_path (Py.str e))).

(** The three counters of the collection loop of
    [process_files_concurrent] (lines 230-245). *)
Record tally := mkTally {
  all_documents : list Document;
  successful_files : Z;
  failed_files : Z
}.

(** One iteration of that loop.  With [return_exceptions=True] an entry of
    [results] is a [FileProcessingResult] or the exception of its
    coroutine. *)
Definition collect (acc : tally) (result : outcome FileProcessingResult) : tally :=
  let failed := {| all_documents := all_documents acc;
                   successful_files := successful_files acc;
                   failed_files := failed_files acc + 1 |} in
  match result with
  | Raise e =>
      if isinstance e DocumentProcessingError_ then failed else failed
  | Cancelled => failed
  | Return r =>
      if success r
      then {| all_documents := all_documents acc ++ documents r;
              successful_files := successful_files acc + 1;
              failed_files := failed_files acc |}
      else failed
  end.

Definition collect_results (results : list (outcome FileProcessingResult)) : tally :=
  fold_left collect results
    {| all_documents := []; successful_files := 0; failed_files := 0 |}.

(** [asyncio.gather] with [return_exceptions=True]: one entry per path,
    in the order of the paths. *)
Definition gather (E : environment) (fs : filesystem) (file_paths : list string)
    : list (outcome FileProcessingResult) :=
  List.map (_process_single_file_async E fs) file_paths.

(** [process_files_concurrent].  [asyncio.Semaphore] rejects a negative
    ceiling; with a ceiling of zero no file is ever let in and the
    coroutine can only end by being cancelled. *)
Definition process_files_concurrent (E : environment) (fs : filesystem)
    (file_paths : list string) : outcome ProcessingResult :=
  match file_paths with
  | [] => Return {| pr_success := false; documents_processed := 0;
                    documents_failed := 0; processing_time := 0;
                    pr_error_message := Some "No files provided" |}
  | _ :: _ =>
      if max_concurrent_files (settings E) <? 0 then
        Raise (Exc ValueError_ "Semaphore initial value must be >= 0")
      else if max_concurrent_files (settings E) =? 0 then Cancelled
      else
        let t := collect_results (gather E fs file_paths) in
        let processing_time := elapsed E file_paths in
        let storage_success :=
          match all_documents t with
          | [] => true
          | _ :: _ => VectorStore.store_documents E (all_documents t)
          end in
        Return {| pr_success := storage_success && (0 <? successful_files t);
                  documents_processed := Z.of_nat (length (all_documents t));
                  documents_failed := failed_files t;
                  processing_time := processing_time;
                  pr_error_message :=
                    if storage_success then None
                    else Some "Failed to store documents in vector database" |}
  end.

End DocProc.

(** ** The world the coroutines act on *)

(** A unit of work handed to [create_task] together with its arguments. *)
Inductive work :=
| BgWorker (items : list (string * bytes)) (paths : list string)
    (work_dir : option string)
| ProcessRepository (repo_url : string).

Record world := mkWorld {
  fs : filesystem;
  uuids_drawn : nat;                         (* calls of uuid4() so far *)
  wall_clock : Z;                            (* datetime.now() *)
  registry : Tasks.BackgroundTaskService PyAny;
  scheduled : gmap string work               (* coroutines given to the loop *)
}.

(** A computation that reads and writes the world and may raise. *)
Definition M (A : Type) : Type := world → outcome A * world.

Definition ret {A} (a : A) : M A := λ w, (Return a, w).

Definition raise {A} (e : exn) : M A := λ w, (Raise e, w).

Definition bindM {A B} (m : M A) (k : A → M B) : M B := λ w,
  match m w with
  | (Return a, w') => k a w'
  | (Raise e, w') => (Raise e, w')
  | (Cancelled, w') => (Cancelled, w')
  end.

Notation "'let*' x ':=' m 'in' k" := (bindM m (λ x, k))
  (at level 10, x pattern, m at level 100, k at level 200, only parsing).

(** [try: m  except Exception as e: handler(e)] *)
Definition try_except_M {A} (m : M A) (handler : exn → M A) : M A := λ w,
  match m w with
  | (Raise e, w') => handler e w'
  | other => other
  end.

(** [try: m  finally: fin] for a [fin] that cannot fail. *)
Definition try_finally {A} (m : M A) (fin : world → world) : M A := λ w,
  let '(o, w') := m w in (o, fin w').

Definition with_fs (f : filesystem → filesystem) (w : world) : world :=
  {| fs := f (fs w); uuids_drawn := uuids_drawn w; wall_clock := wall_clock w;
     registry := registry w; scheduled := scheduled w |}.

Definition on_fs (f : filesystem → filesystem) : M unit := λ w,
  (Return tt, with_fs f w).

Definition liftO {A} (f : filesystem → outcome A) : M A := λ w, (f (fs w), w).

(** [uuid4().hex] *)
Definition draw_uuid_hex (E : environment) : M string := λ w,
  (Return (uuid4_hex E (uuids_drawn w)),
   {| fs := fs w; uuids_drawn := S (uuids_drawn w); wall_clock := wall_clock w;
      registry := registry w; scheduled := scheduled w |}).

(** [async with aiofiles.open(path, "wb") as fh: await fh.write(data)] *)
Definition write_file (E : environment) (path : string) (data : bytes) : M unit :=
  λ w,
    match write_fault E path with
    | Some e => (Raise e, w)
    | None => (Return tt, with_fs (insert path (File data)) w)
    end.

(** [async with aiofiles.open(path, "rb") as fh: data = await fh.read()] *)
Definition read_file (path : string) : M bytes := λ w,
  match fs w !! path with
  | Some (File content) => (Return content, w)
  | Some Dir => (Raise (Exc OSError_ ("[Errno 21] Is a directory: " +:+ path)), w)
  | None =>
      (Raise (Exc OSError_ ("[Errno 2] No such file or directory: " +:+ path)), w)
  end.

(** [try: if os.path.exists(p): os.remove(p)  except Exception: pass] *)
Definition remove_if_exists (path : string) (w : world) : world :=
  with_fs (delete path) w.

(** [dest_dir = os.path.dirname(dest_path)] followed by
    [if dest_dir and not os.path.exists(dest_dir): await ensure_directory(dest_dir)] *)
Definition ensure_parent (dest_path : string) : M unit := λ w,
  let dest_dir := Utils.os_path_dirname dest_path in
  if negb (Utils.is_empty dest_dir) && negb (Utils.path_exists (fs w) dest_dir)
  then on_fs (Utils.ensure_directory dest_dir) w
  else (Return tt, w).

(** ** app/services/file_processor.py, the helpers of the background worker *)

Module FileProc.
Import Utils.

Definition stats_of (total : Z) (r : DocProc.ProcessingResult) : FileProcessingStats :=
  {| total_files := total;
     processed_files := DocProc.documents_processed r;
     skipped_files := 0;
     failed_files := DocProc.documents_failed r;
     processing_time_seconds := DocProc.processing_time r |}.

(** The handlers [except HTTPException: raise] and
    [except Exception as e: raise HTTPException(500, ...)]. *)
Definition reraise_as_500 {A} (e : exn) : M A :=
  if is_HTTPException e then raise e
  else raise (HTTPException 500 ("Processing failed: " +:+ Py.str e)).

(** [process_uploaded_file_paths] *)
Definition process_uploaded_file_paths (E : environment) (paths : list string)
    : M FileProcessingStats :=
  match paths with
  | [] => raise (HTTPException 400 "No file paths provided")
  | _ :: _ =>
      try_except_M
        (let* processing_result :=
           liftO (λ fs, DocProc.process_files_concurrent E fs paths) in
         ret (stats_of (Z.of_nat (length paths)) processing_result))
        reraise_as_500
  end.

(** The body of the loop that saves the items (lines 359-376). *)
Definition save_item (E : environment) (task_temp_dir : string)
    (saved_paths : list string) (item : string * bytes) : M (list string) :=
  let '(filename, data) := item in
  let safe_name := safe_filename filename in
  let dest_path := os_path_join task_temp_dir safe_name in
  let* _ := ensure_parent dest_path in
  try_except_M
    (let* _ := write_file E dest_path data in
     ret (saved_paths ++ [dest_path]))
    (λ _, λ w, (Return saved_paths, remove_if_exists dest_path w)).

Fixpoint save_items (E : environment) (task_temp_dir : string)
    (items : list (string * bytes)) (saved_paths : list string)
    : M (list string) :=
  match items with
  | [] => ret saved_paths
  | item :: rest =>
      let* saved_paths := save_item E task_temp_dir saved_paths item in
      save_items E task_temp_dir rest saved_paths
  end.

(** [process_uploaded_file_bytes] *)
Definition process_uploaded_file_bytes (E : environment)
    (items : list (string * bytes)) : M FileProcessingStats :=
  match items with
  | [] => raise (HTTPException 400 "No file data provided")
  | _ :: _ =>
      let* hex := draw_uuid_hex E in
      let task_temp_dir :=
        os_path_join (temp_files_dir (settings E)) ("upload_" +:+ hex) in
      let* _ := on_fs (ensure_directory task_temp_dir) in
      try_finally
        (try_except_M
           (let* saved_paths := save_items E task_temp_dir items [] in
            match saved_paths with
            | [] => raise (HTTPException 400 "No files saved for processing")
            | _ :: _ =>
                let* processing_result :=
                  liftO (λ fs, DocProc.process_files_concurrent E fs saved_paths) in
                ret (stats_of (Z.of_nat (length items)) processing_result)
            end)
           reraise_as_500)
        (with_fs (cleanup_directory task_temp_dir))
  end.

End FileProc.

(** ** app/services/repository.py *)

Module Repo.
Import Utils.

(** *** [urllib.parse.urlparse], the parts [_validate_git_url] reads *)

Definition is_ascii_alpha (c : ascii) : bool :=
  let n := Ascii.N_of_ascii c in
  (((65 <=? n) && (n <=? 90)) || ((97 <=? n) && (n <=? 122)))%N.

Definition is_ascii_digit (c : ascii) : bool :=
  let n := Ascii.N_of_ascii c in ((48 <=? n) && (n <=? 57))%N.

(** [scheme_chars]: letters, digits, plus, minus, dot. *)
Definition is_scheme_char (c : ascii) : bool :=
  is_ascii_alpha c || is_ascii_digit c ||
  existsb (Ascii.eqb c) [chr 43; chr 45; chr 46].

Fixpoint all_chars (p : ascii → bool) (s : string) : bool :=
  match s with
  | EmptyString => true
  | String c s' => p c && all_chars p s'
  end.

(** [url.lstrip(_WHATWG_C0_CONTROL_OR_SPACE)] *)
Fixpoint lstrip_c0_or_space (s : string) : string :=
  match s with
  | EmptyString => EmptyString
  | String c s' =>
      if (Ascii.N_of_ascii c <=? 32)%N then lstrip_c0_or_space s' else s
  end.

(** Tab, carriage return and line feed are removed wherever they occur. *)
Fixpoint remove_unsafe_bytes (s : string) : string :=
  match s with
  | EmptyString => EmptyString
  | String c s' =>
      if existsb (Ascii.eqb c) [chr 9; chr 13; chr 10]
      then remove_unsafe_bytes s'
      else String c (remove_unsafe_bytes s')
  end.

(** [s.partition(sep)]: the text before the first [sep] and, when there is
    one, the text after it. *)
Fixpoint partition (sep : ascii → bool) (s : string) : string * option string :=
  match s with
  | EmptyString => (EmptyString, None)
  | String c s' =>
      if sep c then (EmptyString, Some s')
      else let '(before, after) := partition sep s' in (String c before, after)
  end.

(** [s.rpartition(sep)[2]] *)
Definition after_last (sep : ascii) (s : string) : string :=
  String.rev (partition (Ascii.eqb sep) (String.rev s)).1.

(** The scheme [urlsplit] finds and the rest of the URL. *)
Definition split_scheme (url : string) : string * string :=
  let url := remove_unsafe_bytes (lstrip_c0_or_space url) in
  match partition (Ascii.eqb ":") url with
  | (String c0 _ as before, Some rest) =>
      if is_ascii_alpha c0 && all_chars is_scheme_char before
      then (lower before, rest)
      else (EmptyString, url)
  | _ => (EmptyString, url)
  end.

Definition url_scheme (url : string) : string := (split_scheme url).1.

(** [netloc]: after a leading double slash, up to the first slash,
    question mark or hash.  A netloc with one bracket but not the other
    makes [urlsplit] raise ValueError. *)
Definition url_netloc (url : string) : outcome string :=
  match (split_scheme url).2 with
  | String "/" (String "/" rest) =>
      let netloc :=
        (partition (λ c, existsb (Ascii.eqb c) [chr 47; chr 63; chr 35]) rest).1 in
      if xorb (has_char "[" netloc) (has_char "]" netloc)
      then Raise (Exc ValueError_ "Invalid IPv6 URL")
      else Return netloc
  | _ => Return EmptyString
  end.

(** [parsed.hostname]; [None] for an empty host. *)
Definition hostname_of_netloc (netloc : string) : option string :=
  let hostinfo := after_last "@" netloc in
  let hostname :=
    match partition (Ascii.eqb "[") hostinfo with
    | (_, Some bracketed) => (partition (Ascii.eqb "]") bracketed).1
    | (_, None) => (partition (Ascii.eqb ":") hostinfo).1
    end in
  if is_empty hostname then None
  else
    match partition (Ascii.eqb "%") hostname with
    | (host, Some zone) => Some (lower host +:+ "%" +:+ zone)
    | (host, None) => Some (lower host)
    end.

Definition valid_schemes : list string := ["http"; "https"; "git"; "ssh"].

Definition valid_hosts : list string :=
  ["github.com"; "gitlab.com"; "bitbucket.org"; "dev.azure.com";
   "visualstudio.com"].

(** [_validate_git_url] *)
Definition _validate_git_url (url : string) : bool :=
  match
    try_except
      (netloc ← url_netloc url;
       if negb (existsb (String.eqb (url_scheme url)) valid_schemes)
       then Return false
       else
         match hostname_of_netloc netloc with
         | Some hostname =>
             if existsb (λ host, contains host hostname) valid_hosts
             then Return true
             else Return true
         | None => Return false
         end)
      (λ _, Return false)
  with
  | Return b => b
  | _ => false
  end.

(** [_clone_repository_async]: GitCommandError and every other exception of
    the clone are turned into [False]. *)
Definition _clone_repository_async (E : environment) (repo_url target_dir : string)
    : M bool := λ w,
  let '(o, fs') := clone_from E repo_url target_dir (fs w) in
  let w' := with_fs (λ _, fs') w in
  match o with
  | Return _ => (Return true, w')
  | Raise e =>
      if isinstance e GitCommandError_ then (Return false, w')
      else (Return false, w')
  | Cancelled => (Cancelled, w')
  end.

(** [process_repository].  [process_directory_files] is
    [file_processor.process_directory_files]; the clone lock makes the body
    run without another clone interleaved. *)
Definition process_repository (E : environment)
    (process_directory_files : string → bool → M FileProcessingStats)
    (repo_url : string) : M FileProcessingStats :=
  if negb (_validate_git_url repo_url) then
    raise (HTTPException 400 "Invalid Git repository URL")
  else
    let temp_repo_dir := temp_repo_dir (settings E) in
    try_finally
      (try_except_M
         (let* _ := on_fs (cleanup_directory temp_repo_dir) in
          let* _ := on_fs (ensure_directory (os_path_dirname temp_repo_dir)) in
          let* clone_success :=
            _clone_repository_async E repo_url temp_repo_dir in
          if negb clone_success then
            raise (HTTPException 400
                     "Failed to clone repository. Please check the URL and access permissions.")
          else
            let* processing_stats := process_directory_files temp_repo_dir true in
            ret processing_stats)
         (λ e, if is_HTTPException e then raise e
               else raise (HTTPException 500
                             ("Repository processing failed: " +:+ Py.str e))))
      (with_fs (cleanup_directory temp_repo_dir)).

End Repo.

(** ** app/api/v1/endpoints/data_processing.py *)

Module Endpoints.
Import Utils.

Definition IN_MEMORY_LIMIT_BYTES : Z := 5 * 1024 * 1024.

(** An uploaded file: its name and what [await f.read()] yields. *)
Record UploadFile := mkUpload {
  filename : option string;
  read : exn + bytes
}.

(** The three variables the upload loop fills. *)
Record routing := mkRouting {
  task_temp_dir : option string;
  saved_paths : list string;
  items_in_memory : list (string * bytes)
}.

Definition no_routing : routing :=
  {| task_temp_dir := None; saved_paths := []; items_in_memory := [] |}.

(** [f.filename or f"upload_{uuid4().hex}"] *)
Definition upload_name (E : environment) (f : UploadFile) : M string :=
  match filename f with
  | Some (String _ _ as given) => ret given
  | Some EmptyString | None =>
      let* hex := draw_uuid_hex E in ret ("upload_" +:+ hex)
  end.

(** Lines 79-81: the per-task directory, made on first need. *)
Definition scratch_dir (E : environment) (r : routing) : M string :=
  match task_temp_dir r with
  | Some dir => ret dir
  | None =>
      let* hex := draw_uuid_hex E in
      let dir := os_path_join (temp_files_dir (settings E)) ("upload_" +:+ hex) in
      let* _ := on_fs (ensure_directory dir) in
      ret dir
  end.

(** The body of the upload loop (lines 59-99). *)
Definition route_file (E : environment) (r : routing) (f : UploadFile) : M routing :=
  match read f with
  | inl _ => ret r                                        (* read failed *)
  | inr [] => ret r                                       (* empty upload *)
  | inr ((_ :: _) as content) =>
      let* raw_name := upload_name E f in
      let filename := safe_filename raw_name in
      if Z.of_nat (length content) <=? IN_MEMORY_LIMIT_BYTES then
        ret {| task_temp_dir := task_temp_dir r;
               saved_paths := saved_paths r;
               items_in_memory := items_in_memory r ++ [(filename, content)] |}
      else
        let* dir := scratch_dir E r in
        let dest_path := os_path_join dir filename in
        let* _ := ensure_parent dest_path in
        try_except_M
          (let* _ := write_file E dest_path content in
           ret {| task_temp_dir := Some dir;
                  saved_paths := saved_paths r ++ [dest_path];
                  items_in_memory := items_in_memory r |})
          (λ _, λ w,
             (Return {| task_temp_dir := Some dir;
                        saved_paths := saved_paths r;
                        items_in_memory := items_in_memory r |},
              remove_if_exists dest_path w))
  end.

Fixpoint route_files (E : environment) (r : routing) (files : list UploadFile)
    : M routing :=
  match files with
  | [] => ret r
  | f :: rest => let* r' := route_file E r f in route_files E r' rest
  end.

(** The methods [hasattr] finds on the injected file processor. *)
Record file_processor := mkFileProcessor {
  process_uploaded_file_bytes :
    option (list (string * bytes) → M FileProcessingStats);
  process_uploaded_file_paths :
    option (list string → M FileProcessingStats)
}.

(** The instance [get_file_processor] returns. *)
Definition the_file_processor (E : environment) : file_processor :=
  {| process_uploaded_file_bytes := Some (FileProc.process_uploaded_file_bytes E);
     process_uploaded_file_paths := Some (FileProc.process_uploaded_file_paths E) |}.

Definition missing_methods {A} : M A :=
  raise (Exc RuntimeError_ "file processor missing required methods").

Fixpoint write_fallback (E : environment) (fallback_dir : string)
    (items : list (string * bytes)) (fallback_paths : list string)
    : M (list string) :=
  match items with
  | [] => ret fallback_paths
  | (name, data) :: rest =>
      let p := os_path_join fallback_dir name in
      let* _ := write_file E p data in
      write_fallback E fallback_dir rest (fallback_paths ++ [p])
  end.

Fixpoint read_back (paths : list string) (tmp_items : list (string * bytes))
    : M (list (string * bytes)) :=
  match paths with
  | [] => ret tmp_items
  | p :: rest =>
      let* data := read_file p in
      read_back rest (tmp_items ++ [(os_path_basename p, data)])
  end.

(** The first half of [_bg_worker]: the in-memory items (lines 111-132). *)
Definition bg_items (E : environment) (file_proc : file_processor)
    (items : list (string * bytes)) (work_dir : option string) : M unit :=
  match items with
  | [] => ret tt
  | _ :: _ =>
      match process_uploaded_file_bytes file_proc with
      | Some by_bytes => let* _ := by_bytes items in ret tt
      | None =>
          let* fallback_dir :=
            match work_dir with
            | Some (String _ _ as dir) => ret dir
            | Some EmptyString | None =>
                let* hex := draw_uuid_hex E in
                ret (os_path_join (temp_files_dir (settings E))
                       ("upload_fallback_" +:+ hex))
            end in
          try_finally
            (let* _ := on_fs (ensure_directory fallback_dir) in
             let* fallback_paths := write_fallback E fallback_dir items [] in
             match process_uploaded_file_paths file_proc with
             | Some by_paths => let* _ := by_paths fallback_paths in ret tt
             | None => missing_methods
             end)
            (λ w, if is_empty fallback_dir then w
                  else with_fs (cleanup_directory fallback_dir) w)
      end
  end.

(** The second half of [_bg_worker]: the saved paths (lines 135-148). *)
Definition bg_paths (file_proc : file_processor) (paths : list string) : M unit :=
  match paths with
  | [] => ret tt
  | _ :: _ =>
      match process_uploaded_file_paths file_proc with
      | Some by_paths => let* _ := by_paths paths in ret tt
      | None =>
          match process_uploaded_file_bytes file_proc with
          | Some by_bytes =>
              let* tmp_items := read_back paths [] in
              let* _ := by_bytes tmp_items in ret tt
          | None => missing_methods
          end
      end
  end.

(** [_bg_worker]: it returns None; its [finally] removes [work_dir]. *)
Definition _bg_worker (E : environment) (file_proc : file_processor)
    (items : list (string * bytes)) (paths : list string)
    (work_dir : option string) : M PyAny :=
  try_finally
    (let* _ := bg_items E file_proc items work_dir in
     let* _ := bg_paths file_proc paths in
     ret PyNone)
    (λ w, match work_dir with
          | Some (String _ _ as dir) => with_fs (cleanup_directory dir) w
          | Some EmptyString | None => w
          end).

(** The JSON body of a 202 answer. *)
Record accepted := mkAccepted {
  message : string;
  task_id : string;
  status_url : string
}.

(** [bg_service.create_task(name=..., task_func=..., ...)] *)
Definition create_task (E : environment) (task_name : string) (job : work)
    : M string := λ w,
  let '(task_id, reg) :=
    Tasks.create_task (wall_clock w) (uuid4_str E (uuids_drawn w)) task_name
      (registry w) in
  (Return task_id,
   {| fs := fs w; uuids_drawn := S (uuids_drawn w); wall_clock := wall_clock w;
      registry := reg; scheduled := <[task_id := job]> (scheduled w) |}).

Definition cleanup_if_created (dir : option string) (w : world) : world :=
  match dir with
  | Some (String _ _ as d) => with_fs (cleanup_directory d) w
  | Some EmptyString | None => w
  end.

(** [process_uploaded_files] (POST /process-files).  The upload loop stands
    inside the [try] of the source; every fault it meets is handled per
    file, so it hands its three variables to the code that follows. *)
Definition process_uploaded_files (E : environment) (files : list UploadFile)
    : M accepted :=
  match files with
  | [] => raise (HTTPException 400 "No files uploaded")
  | _ :: _ =>
      let* r := route_files E no_routing files in
      try_except_M
        (match items_in_memory r, saved_paths r with
         | [], [] =>
             λ w, (Raise (HTTPException 400 "No processable files after filtering"),
                   cleanup_if_created (task_temp_dir r) w)
         | _, _ =>
             let* task_id :=
               create_task E
                 ("Processing "
                    +:+ pretty (Z.of_nat (length (items_in_memory r))
                                + Z.of_nat (length (saved_paths r)))
                    +:+ " uploaded files")
                 (BgWorker (items_in_memory r) (saved_paths r) (task_temp_dir r)) in
             ret {| message := "File processing started in the background.";
                    task_id := task_id;
                    status_url := "/api/v1/tasks/" +:+ task_id |}
         end)
        (λ e, if is_HTTPException e then raise e
              else λ w, (Raise (HTTPException 500 "Failed to schedule file processing"),
                         cleanup_if_created (task_temp_dir r) w))
  end.

(** The request model [RepoURL]: [url: HttpUrl] admits the schemes http
    and https only.  FastAPI validates the body before the handler runs
    and answers 422 when validation fails. *)
Definition HttpUrl_schemes : list string := ["http"; "https"].

Definition RepoURL (E : environment) (raw : string) : exn + string :=
  if existsb (String.eqb (Repo.url_scheme raw)) HttpUrl_schemes
     && httpurl_rest_ok E raw
  then inr (httpurl_str E raw)
  else inl (Exc RequestValidationError_ "URL scheme should be 'http' or 'https'").

(** [process_repository] (POST /process-repo) for a request whose body
    carries the URL text [raw]. *)
Definition process_repository (E : environment) (raw : string) : M accepted :=
  match RepoURL E raw with
  | inl e => raise e
  | inr url =>
      let* task_id :=
        create_task E ("Processing repository: " +:+ url) (ProcessRepository url) in
      ret {| message := "Repository processing started in the background.";
             task_id := task_id;
             status_url := "/api/v1/tasks/" +:+ task_id |}
  end.

End Endpoints.

(** ** Invariants of the task registry *)

Module TasksInv.
Import Tasks.

Section invariant.
Context {Any : Type}.
Implicit Types s : BackgroundTaskService Any.

(** The status a record has while its coroutine is at a program point. *)
Definition coherent (c : coro_state) (st : TaskStatus) : Prop :=
  match c with
  | Created | AwaitSemaphore | Done => st = PENDING
  | AwaitTaskFunc => st = RUNNING
  end.

Record invariant (N : Z) s : Prop := mkInvariant {
  (* every handle belongs to a record whose status fits its program point *)
  inv_coro : ∀ tid a, _running_tasks s !! tid = Some a →
             ∃ t, _tasks s !! tid = Some t ∧ coherent (coro a) (status t);
  (* a record that is not terminal still has its handle *)
  inv_live : ∀ tid t, _tasks s !! tid = Some t → terminal (status t) = false →
             is_Some (_running_tasks s !! tid);
  (* completed_at is set exactly on terminal records *)
  inv_completed : ∀ tid t, _tasks s !! tid = Some t →
                  (is_Some (completed_at t) ↔ terminal (status t) = true);
  (* every RUNNING record holds one slot of the semaphore *)
  inv_slots : Z.of_nat (count_running s) + _semaphore s = N;
  inv_sem : 0 ≤ _semaphore s
}.

(** The slots of the semaphore a record accounts for. *)
Definition slot (t : BackgroundTask Any) : nat :=
  if decide (status t = RUNNING) then 1%nat else 0%nat.

End invariant.
End TasksInv.

(** ** The cases of a batch *)

Module BatchCases.
Import Utils DocProc.

(** The file cannot be read: its size probe raises (it is missing, or the
    operating system refuses), or the loader raises on its content. *)
Definition unreadable (E : environment) (fs : filesystem) (p : string) : Prop :=
  (∃ e, os_path_getsize E fs p = Raise e) ∨
  (∃ content e, fs !! p = Some (File content) ∧ loader_load E p content = inl e).

(** The chunks the loader and the splitter produce from a file, stamped. *)
Definition chunks_of (E : environment) (fs : filesystem) (p : string)
    : list Document :=
  match fs !! p with
  | Some (File content) =>
      match loader_load E p content with
      | inr docs =>
          match _create_text_splitter E p docs with
          | inr chunks => imap (stamp E p) chunks
          | inl _ => []
          end
      | inl _ => []
      end
  | _ => []
  end.

(** A text file within the size limit that loads and splits. *)
Definition valid (E : environment) (fs : filesystem) (p : string) : Prop :=
  is_text_file p = true ∧
  ∃ content docs chunks,
    fs !! p = Some (File content) ∧ stat_fault E p = None ∧
    Z.of_nat (length content) ≤ max_file_size_mb (settings E) * 1024 * 1024 ∧
    loader_load E p content = inr docs ∧ docs ≠ [] ∧
    _create_text_splitter E p docs = inr chunks.

(** The message of the size rejection. *)
Definition limit_message (E : environment) : string :=
  "File exceeds " +:+ pretty (max_file_size_mb (settings E)) +:+ "MB limit".

(** What one entry of [results] adds to the counters of the loop. *)
Definition entry_documents (o : outcome FileProcessingResult) : list Document :=
  match o with
  | Return r => if success r then documents r else []
  | _ => []
  end.

Definition entry_ok (o : outcome FileProcessingResult) : bool :=
  match o with Return r => success r | _ => false end.

(** A file name that is a single path component. *)
Definition simple_name (name : string) : Prop :=
  has_char "/" name = false ∧ is_empty name = false ∧
  String.eqb name "." = false.

End BatchCases.

(** ** The cases of an upload submission *)

Module UploadCases.
Import Utils Endpoints.

(** The directory [scratch_dir] makes: [upload_] and a fresh identifier,
    under the upload directory of the settings. *)
Definition fresh_upload_dir (E : environment) (dir : string) : Prop :=
  ∃ k, dir = os_path_join (temp_files_dir (settings E))
               ("upload_" +:+ uuid4_hex E k).


(** No upload in the list has readable content above the threshold. *)
Definition all_fit_in_memory (files : list UploadFile) : Prop :=
  Forall (λ f, ∀ content, read f = inr content →
               Z.of_nat (length content) ≤ IN_MEMORY_LIMIT_BYTES) files.

End UploadCases.

(** ** Concrete scenarios *)

Module Scenario.
Import Tasks.

(** *** The registry with the default ceiling *)

Definition svc0 : BackgroundTaskService PyAny :=
  {| _tasks := ∅; _running_tasks := ∅; _semaphore := 3;
     _cleanup_interval := 3600 |}.

Definition after (evs : list (event PyAny)) : BackgroundTaskService PyAny :=
  default svc0 (run evs svc0).

(** One task holds a slot and awaits its unit of work. *)
Definition one_running : list (event PyAny) :=
  [Create 10 "t1" "Processing repository: https://example.org/r.git";
   Start "t1"; Acquire 20 "t1"].

Definition finished : list (event PyAny) :=
  one_running ++ [Resume 30 "t1" (Return PyNone)].

Definition later : list (event PyAny) :=
  [Create 40 "t2" "Processing 2 uploaded files"; Cancel "t1"; GetStatus "t1";
   Cleanup 50; Start "t2"; Acquire 60 "t2"].

(** Four submissions against the ceiling of three. *)
Definition saturated : list (event PyAny) :=
  [Create 1 "t1" "a"; Create 2 "t2" "b"; Create 3 "t3" "c"; Create 4 "t4" "d";
   Start "t1"; Start "t2"; Start "t3"; Start "t4";
   Acquire 5 "t1"; Acquire 6 "t2"; Acquire 7 "t3"].

(** *** An environment without faults *)

Definition code_doc : Document :=
  {| page_content := "def main(): pass"; doc_metadata := ∅ |}.

(** The loader cannot read files named [broken.py]; [splitter] is the
    text splitter. *)
Definition env_with
    (splitter : Language → Z → Z → list Document → exn + list Document)
    : environment :=
  {| settings := default_settings;
     uuid4_hex := λ n, "0f" +:+ pretty n;
     uuid4_str := λ n, "task-" +:+ pretty n;
     time_time := λ _ i, 1700000000 + Z.of_nat i;
     stat_fault := λ _, None;
     dir_st_size := λ _, 4096;
     write_fault := λ _, None;
     loader_load := λ p _,
       if String.eqb (Utils.path_name p) "broken.py"
       then inl (Exc Exception_ "cannot partition file")
       else inr [code_doc];
     split_documents := splitter;
     chroma_from_documents := λ _, inr tt;
     elapsed := λ _, 7;
     clone_from := λ _ target disk,
       (Return tt, <[target +:+ "/README.md" := File []]> (<[target := Dir]> disk));
     httpurl_rest_ok := λ _, true;
     httpurl_str := λ raw, raw |}.

(** Every document is split in two chunks. *)
Definition E0 : environment := env_with (λ _ _ _ docs, inr (docs ++ docs)).

(** The splitter raises an exception whose text is empty. *)
Definition E_silent : environment :=
  env_with (λ _ _ _ _, inl (Exc RuntimeError_ EmptyString)).

Definition w0 : world :=
  {| fs := ∅; uuids_drawn := 0; wall_clock := 1000; registry := svc0;
     scheduled := ∅ |}.

Definition code200 : bytes := repeat Byte.x23 200.

Definition png : bytes := [Byte.x89; Byte.x50; Byte.x4e; Byte.x47].

Definition disk5 : filesystem :=
  <["src/a.py" := File code200]>
    (<["src/b.js" := File code200]>
       (<["src/broken.py" := File code200]>
          (<["docs/README.md" := File code200]>
             (<["src/c.go" := File code200]> ∅)))).

(** An upload above the in-memory threshold. *)
Definition big : bytes := repeat Byte.x00 (N.to_nat 5242881).

Definition upload (name : string) (content : bytes) : Endpoints.UploadFile :=
  {| Endpoints.filename := Some name; Endpoints.read := inr content |}.


End Scenario.

(** ** app/services/background_tasks.py, [get_service_stats] *)

Module TaskStats.
Import Tasks.

Definition TaskStatus_index (st : TaskStatus) : nat :=
  match st with
  | PENDING => 0 | RUNNING => 1 | COMPLETED => 2 | FAILED => 3 | CANCELLED => 4
  end%nat.

Definition TaskStatus_of_index (n : nat) : TaskStatus :=
  match n with
  | 0 => PENDING | 1 => RUNNING | 2 => COMPLETED | 3 => FAILED | _ => CANCELLED
  end%nat.

Global Instance TaskStatus_countable : Countable TaskStatus.
Proof.
  apply (inj_countable' TaskStatus_index TaskStatus_of_index). by intros [].
Defined.

Section stats.
Context {Any : Type}.

(** The dictionary [get_service_stats] returns. *)
Record service_stats := mkServiceStats {
  total_tasks : Z;
  running_tasks : Z;
  status_counts : gmap TaskStatus Z;
  max_concurrent : Z;
  available_slots : Z
}.

(** [status_counts[task.status] = status_counts.get(task.status, 0) + 1] *)
Definition count_status (task : BackgroundTask Any)
    (status_counts : gmap TaskStatus Z) : gmap TaskStatus Z :=
  <[status task := default 0 (status_counts !! status task) + 1]> status_counts.

(** [get_service_stats].  The loop runs over [self._tasks.values()]; the
    dictionary it builds does not depend on the order of the records. *)
Definition get_service_stats (s : BackgroundTaskService Any) : service_stats :=
  let status_counts :=
    map_fold (λ _ task acc, count_status task acc) ∅ (_tasks s) in
  {| total_tasks := Z.of_nat (size (_tasks s));
     running_tasks := Z.of_nat (size (_running_tasks s));
     status_counts := status_counts;
     max_concurrent := _semaphore s + Z.of_nat (size (_running_tasks s));
     available_slots := _semaphore s |}.

(** The number of records with a given status. *)
Definition count_with_status (st : TaskStatus) (s : BackgroundTaskService Any)
    : nat :=
  size (filter (λ kv, status kv.2 = st) (_tasks s)).

(** The number of coroutines that hold no slot of the semaphore: not yet
    started, waiting for a slot, or cancelled before they started. *)
Definition count_without_slot (s : BackgroundTaskService Any) : nat :=
  size (filter (λ kv, coro kv.2 ≠ AwaitTaskFunc) (_running_tasks s)).

(** No coroutine is suspended in [async with self._semaphore]. *)
Definition no_waiter (s : BackgroundTaskService Any) : Prop :=
  ∀ tid a, _running_tasks s !! tid = Some a → coro a ≠ AwaitSemaphore.

End stats.

Arguments service_stats : clear implicits.

End TaskStats.

(** ** The life of one record of the registry *)

Module TaskRecords.
Import Tasks.

Section records.
Context {Any : Type}.

(** The record [create_task] stores. *)
Definition new_record (now : datetime) (task_id task_name : string)
    : BackgroundTask Any :=
  {| id := task_id; name := task_name; status := PENDING; created_at := now;
     started_at := None; completed_at := None; progress := 0; result := None;
     error_message := None; metadata := ∅ |}.

(** What [_execute_task] writes to the record when [await task_func(...)]
    ends with [w]. *)
Definition finish (now : datetime) (w : outcome Any) (t : BackgroundTask Any)
    : BackgroundTask Any :=
  match w with
  | Return r => mark_completed now r t
  | Raise e => mark_failed now e t
  | Cancelled => mark_cancelled now t
  end.

(** What the fields of the record stored under [tid] are in each status. *)
Definition fields_fit (tid : string) (t : BackgroundTask Any) : Prop :=
  id t = tid ∧ metadata t = ∅ ∧
  (status t = PENDING → started_at t = None) ∧
  (status t = RUNNING → is_Some (started_at t)) ∧
  (status t = COMPLETED ∨ status t = FAILED → is_Some (started_at t)) ∧
  (status t ≠ COMPLETED → result t = None) ∧
  (is_Some (error_message t) ↔ status t = FAILED) ∧
  progress t = (if decide (status t = COMPLETED) then 100 else 0).

End records.
End TaskRecords.

(** ** app/api/v1/endpoints/tasks.py *)

Module TaskEndpoints.

(** [get_task_status] (GET /tasks/{task_id}).  A [BackgroundTask] is a
    dataclass without [__bool__] or [__len__]: [not task] holds for [None]
    only. *)
Definition get_task_status (task_id : string) : M (Tasks.BackgroundTask PyAny) :=
  λ w,
    match Tasks.get_task_status task_id (registry w) with
    | Some task => (Return task, w)
    | None => (Raise (HTTPException 404 "Task not found"), w)
    end.

(** [get_all_tasks] (GET /tasks) *)
Definition get_all_tasks : M (gmap string (Tasks.BackgroundTask PyAny)) :=
  λ w, (Return (Tasks.get_all_tasks true (registry w)), w).

End TaskEndpoints.

(** ** app/services/document_processor.py, [process_documents_from_content] *)

Module DocProcContent.
Import DocProc.

(** [doc.metadata['processing_timestamp'] = time.time()] on the [i]-th
    chunk; [timestamp i] is that reading of the clock. *)
Definition stamp_time (timestamp : nat → Z) (i : nat) (doc : Document)
    : Document :=
  {| page_content := page_content doc;
     doc_metadata :=
       <["processing_timestamp" := MTime (timestamp i)]> (doc_metadata doc) |}.

(** [process_documents_from_content].  The splitter is the default one of
    the [text_splitter] property (Language.PYTHON); [duration] is the value
    of [time.time() - start_time] where the code reads it. *)
Definition process_documents_from_content (E : environment)
    (timestamp : nat → Z) (duration : Z) (documents : list Document)
    : outcome ProcessingResult :=
  match documents with
  | [] => Return {| pr_success := false; documents_processed := 0;
                    documents_failed := 0; processing_time := 0;
                    pr_error_message := Some "No documents provided" |}
  | _ :: _ =>
      try_except
        (split_docs ← call (split_documents E PYTHON (chunk_size (settings E))
                              (chunk_overlap (settings E)) documents);
         let split_docs := imap (stamp_time timestamp) split_docs in
         let storage_success := VectorStore.store_documents E split_docs in
         Return {| pr_success := storage_success;
                   documents_processed := Z.of_nat (length split_docs);
                   documents_failed := 0;
                   processing_time := duration;
                   pr_error_message :=
                     if storage_success then None
                     else Some "Failed to store documents in vector database" |})
        (λ e, Return {| pr_success := false; documents_processed := 0;
                        documents_failed := Z.of_nat (length documents);
                        processing_time := duration;
                        pr_error_message := Some (Py.str e) |})
  end.

End DocProcContent.

(** ** app/services/repository.py, [validate_repository_access] *)

Module RepoAccess.
Import Repo.

(** The dictionary [validate_repository_access] returns. *)
Record access_report := mkAccessReport {
  valid : bool;
  reason : string;
  accessible : bool
}.

(** [validate_repository_access]; [ls_remote] is the awaited
    [Git().ls_remote(repo_url, heads=True)]. *)
Definition validate_repository_access (ls_remote : string → outcome unit)
    (repo_url : string) : outcome access_report :=
  if negb (_validate_git_url repo_url) then
    Return {| valid := false;
              reason := "Invalid Git repository URL format";
              accessible := false |}
  else
    match ls_remote repo_url with
    | Return _ => Return {| valid := true;
                            reason := "Repository is accessible";
                            accessible := true |}
    | Raise e => Return {| valid := true;
                           reason := "Repository not accessible: " +:+ Py.str e;
                           accessible := false |}
    | Cancelled => Cancelled
    end.

End RepoAccess.

(** ** The cases of saving and of a pipeline run *)

Module PipelineCases.
Import Utils.

(** The per-task directory [process_uploaded_file_bytes] makes in [w]. *)
Definition task_dir (E : environment) (w : world) : string :=
  os_path_join (temp_files_dir (settings E))
    ("upload_" +:+ uuid4_hex E (uuids_drawn w)).

(** The file an item is saved to. *)
Definition destination (dir : string) (item : string * bytes) : string :=
  os_path_join dir (safe_filename item.1).

(** The destinations of the items whose write goes through. *)
Definition written (E : environment) (dir : string) (items : list (string * bytes))
    : list string :=
  List.filter (λ p, bool_decide (write_fault E p = None))
    (List.map (destination dir) items).

(** A name that [os.path.join] puts below the directory it is given. *)
Definition plain_dir (d : string) : Prop :=
  is_empty d = false ∧ endswith_char "/" d = false.

(** Two worlds that differ on the disk only. *)
Definition same_but_disk (w w' : world) : Prop :=
  uuids_drawn w' = uuids_drawn w ∧ wall_clock w' = wall_clock w ∧
  registry w' = registry w ∧ scheduled w' = scheduled w.

(** The exceptions the upload and repository services let out. *)
Definition http_error (e : exn) (codes : list Z) : Prop :=
  ∃ code detail, e = HTTPException code detail ∧ code ∈ codes.

End PipelineCases.

(** ** [fnmatch.fnmatch], for patterns without bracket expressions *)

Module Fnmatch.

(** [fnmatch.fnmatch(name, pat)] on POSIX, where [normcase] is the
    identity: the pattern is turned into a regular expression that must
    match the whole name, a star standing for any text (a slash included),
    a question mark for any one character and every other character for
    itself.  A bracket opens a character class in [fnmatch]; the patterns of
    the settings have none, and the function below is [fnmatch.fnmatch] for
    patterns without one. *)
Fixpoint fnmatch_rec (pat : string) : string → bool :=
  match pat with
  | EmptyString => Utils.is_empty
  | String c pat' =>
      if Ascii.eqb c "*" then
        fix star (name : string) : bool :=
          fnmatch_rec pat' name ||
          match name with
          | EmptyString => false
          | String _ name' => star name'
          end
      else if Ascii.eqb c "?" then
        λ name, match name with
                | EmptyString => false
                | String _ name' => fnmatch_rec pat' name'
                end
      else
        λ name, match name with
                | EmptyString => false
                | String a name' => Ascii.eqb a c && fnmatch_rec pat' name'
                end
  end.

Definition fnmatch (name pat : string) : bool := fnmatch_rec pat name.

(** A text without the special characters of a pattern. *)
Definition literal (s : string) : bool :=
  negb (Utils.has_char "*" s) && negb (Utils.has_char "?" s)
  && negb (Utils.has_char "[" s).

(** [s.endswith(suffix)] *)
Fixpoint endswith (suffix s : string) : bool :=
  String.eqb s suffix ||
  match s with
  | EmptyString => false
  | String _ s' => endswith suffix s'
  end.

(** The directory names and the endings the default [ignore_patterns]
    stand for. *)
Definition ignored_directories : list string :=
  ["/.git/"; "/.github/"; "/node_modules/"; "/.venv/"; "/venv/"; "/__pycache__/"].

Definition ignored_endings : list string :=
  [".pyc"; ".lock"; ".log"; "/.DS_Store"; ".min.js"; ".map"; ".pdf"; ".jpg";
   ".jpeg"; ".png"; ".gif"].

End Fnmatch.

(** ** app/services/file_processor.py, [process_directory_files] *)

Module DirFiles.
Import Utils.

(** [os.path.isdir], [os.path.isfile] *)
Definition os_path_isdir (fs : filesystem) (p : string) : bool :=
  match fs !! p with Some Dir => true | _ => false end.

Definition os_path_isfile (fs : filesystem) (p : string) : bool :=
  match fs !! p with Some (File _) => true | _ => false end.

(** [s.removeprefix(prefix)] when [s] starts with [prefix]. *)
Fixpoint strip_prefix (prefix s : string) : option string :=
  match prefix, s with
  | EmptyString, _ => Some s
  | String a prefix', String b s' =>
      if Ascii.eqb a b then strip_prefix prefix' s' else None
  | String _ _, EmptyString => None
  end.

(** What [os.path.join(d, name)] puts before [name]. *)
Definition dir_prefix (d : string) : string :=
  if is_empty d || endswith_char "/" d then d else d +:+ "/".

(** The name under which the path [p] is an entry of the directory [d]:
    [p] is [os.path.join(d, name)] for a name that is one component. *)
Definition entry_name (d p : string) : option string :=
  match strip_prefix (dir_prefix d) p with
  | Some name => if is_empty name || has_char "/" name then None else Some name
  | None => None
  end.

(** [os.scandir(d)]: the entries of [d] with their kind.  The operating
    system yields them in no particular order; the model takes the order in
    which the disk is enumerated. *)
Definition scandir (fs : filesystem) (d : string) : list (string * node) :=
  omap (λ pn : string * node,
          match entry_name d pn.1 with
          | Some name => Some (name, pn.2)
          | None => None
          end)
       (map_to_list fs).

(** [os.listdir(d)] *)
Definition os_listdir (fs : filesystem) (d : string) : list string :=
  (scandir fs d).*1.

Definition subdirectories (entries : list (string * node)) : list string :=
  omap (λ e : string * node,
          match e.2 with Dir => Some e.1 | File _ => None end) entries.

Definition nondirectories (entries : list (string * node)) : list string :=
  omap (λ e : string * node,
          match e.2 with File _ => Some e.1 | Dir => None end) entries.

(** The loop over [os.walk(directory_path)] of lines 272-281: top-down,
    with the ignored directories taken out of [dirs] before the walk
    descends, and the files that are not ignored appended to [file_paths].
    [fuel] bounds the depth of the walk. *)
Fixpoint walk_files (fuel : nat) (ignored : string → bool) (fs : filesystem)
    (root : string) : list string :=
  match fuel with
  | O => []
  | S fuel' =>
      let entries := scandir fs root in
      let dirs :=
        List.filter (λ d, negb (ignored (os_path_join root d)))
          (subdirectories entries) in
      let here :=
        List.filter (λ file_path, negb (ignored file_path))
          (List.map (os_path_join root) (nondirectories entries)) in
      here ++ flat_map (λ d, walk_files fuel' ignored fs (os_path_join root d)) dirs
  end.

(** The loop over [os.listdir(directory_path)] of lines 283-287. *)
Definition list_files (ignored : string → bool) (fs : filesystem)
    (directory_path : string) : list string :=
  List.filter (λ file_path, os_path_isfile fs file_path && negb (ignored file_path))
    (List.map (os_path_join directory_path) (os_listdir fs directory_path)).

(** A walk is never deeper than the disk has entries. *)
Definition enough_fuel (fs : filesystem) : nat := S (size fs).

Definition no_files : FileProcessingStats :=
  {| total_files := 0; processed_files := 0; skipped_files := 0;
     failed_files := 0; processing_time_seconds := 0 |}.

(** [process_directory_files]; [fnmatch] is [fnmatch.fnmatch]. *)
Definition process_directory_files (E : environment)
    (fnmatch : string → string → bool) (directory_path : string)
    (recursive : bool) : M FileProcessingStats := λ w,
  if negb (path_exists (fs w) directory_path) then
    (Raise (HTTPException 400 ("Directory not found: " +:+ directory_path)), w)
  else if negb (os_path_isdir (fs w) directory_path) then
    (Raise (HTTPException 400 ("Path is not a directory: " +:+ directory_path)), w)
  else
    try_except_M
      (λ w,
         let ignored := λ path,
           is_path_ignored fnmatch path (ignore_patterns (settings E)) in
         let file_paths :=
           if recursive
           then walk_files (enough_fuel (fs w)) ignored (fs w) directory_path
           else list_files ignored (fs w) directory_path in
         match file_paths with
         | [] => ret no_files w
         | _ :: _ =>
             (let* processing_result :=
                liftO (λ fs, DocProc.process_files_concurrent E fs file_paths) in
              ret (FileProc.stats_of (Z.of_nat (length file_paths))
                     processing_result)) w
         end)
      (λ e, if is_HTTPException e then raise e
            else raise (HTTPException 500
                          ("Directory processing failed: " +:+ Py.str e)))
      w.

(** The directories the walk enters from [root]: [root] itself and, below
    a directory it enters, every subdirectory that is not ignored. *)
Inductive entered (ignored : string → bool) (fs : filesystem) (root : string)
  : string → Prop :=
| entered_root : entered ignored fs root root
| entered_sub d name :
    entered ignored fs root d → (name, Dir) ∈ scandir fs d →
    ignored (os_path_join d name) = false →
    entered ignored fs root (os_path_join d name).

(** The entries of the disk whose path is longer than [d]: a bound on the
    depth of the walk below [d]. *)
Definition deeper (fs : filesystem) (d : string) : nat :=
  size (filter (λ kv : string * node,
                  (String.length d < String.length kv.1)%nat) fs).

End DirFiles.

(** ** Concrete runs of the registry *)

Module RegistryScenario.
Import Tasks Scenario.

(** A task whose cancellation is requested before the event loop first
    runs its coroutine. *)
Definition cancelled_early : list (event PyAny) :=
  [Create 10 "t1" "Processing 1 uploaded files"; Cancel "t1"; Start "t1"].

(** A second task runs to its end, the first is cancelled again, and the
    sweep runs a day later. *)
Definition afterwards : list (event PyAny) :=
  [Create 20 "t2" "Processing repository: https://example.org/r.git";
   Start "t2"; Acquire 30 "t2"; Cancel "t1";
   Resume 40 "t2" (Return PyNone); Cleanup 86400000000].

End RegistryScenario.

(** ** Concrete runs of the pipeline *)

Module PipelineScenario.
Import Scenario.

(** An environment like [E] in which writes and the vector store behave as
    given. *)
Definition with_faults (write : string → option exn)
    (chroma : list Document → exn + unit) (E : environment) : environment :=
  {| settings := settings E;
     uuid4_hex := uuid4_hex E;
     uuid4_str := uuid4_str E;
     time_time := time_time E;
     stat_fault := stat_fault E;
     dir_st_size := dir_st_size E;
     write_fault := write;
     loader_load := loader_load E;
     split_documents := split_documents E;
     chroma_from_documents := chroma;
     elapsed := elapsed E;
     clone_from := clone_from E;
     httpurl_rest_ok := httpurl_rest_ok E;
     httpurl_str := httpurl_str E |}.


(** Files named [locked.py] cannot be written. *)
Definition E_locked : environment :=
  with_faults
    (λ p, if String.eqb (Utils.path_name p) "locked.py"
          then Some (Exc OSError_ "[Errno 13] Permission denied")
          else None)
    (λ _, inr tt) E0.

(** Git cannot reach the remote. *)
Definition E_offline : environment :=
  {| settings := settings E0;
     uuid4_hex := uuid4_hex E0;
     uuid4_str := uuid4_str E0;
     time_time := time_time E0;
     stat_fault := stat_fault E0;
     dir_st_size := dir_st_size E0;
     write_fault := write_fault E0;
     loader_load := loader_load E0;
     split_documents := split_documents E0;
     chroma_from_documents := chroma_from_documents E0;
     elapsed := elapsed E0;
     clone_from := λ _ _ disk,
       (Raise (Exc GitCommandError_ "fatal: unable to access"), disk);
     httpurl_rest_ok := httpurl_rest_ok E0;
     httpurl_str := httpurl_str E0 |}.


Definition a_repository : string := "https://github.com/89jobrien/code-chatter".

End PipelineScenario.

(** ** A cloned repository on disk *)

Module DirScenario.
Import Scenario.

Definition cloned : filesystem :=
  <["./temp_repo" := Dir]>
    (<["./temp_repo/README.md" := File code200]>
       (<["./temp_repo/logo.png" := File png]>
          (<["./temp_repo/src" := Dir]>
             (<["./temp_repo/src/main.py" := File code200]>
                (<["./temp_repo/.git" := Dir]>
                   (<["./temp_repo/.git/config" := File code200]>
                      (<["./temp_repo/node_modules" := Dir]>
                         (<["./temp_repo/node_modules/left-pad" := Dir]>
                            (<["./temp_repo/node_modules/left-pad/index.js"
                                 := File code200]> ∅))))))))).

(** [is_path_ignored] with the patterns of the settings. *)
Definition ignored_by_default (path : string) : bool :=
  Utils.is_path_ignored Fnmatch.fnmatch path (ignore_patterns default_settings).


End DirScenario.

(** ** Directory operations that can fail

    [Utils.ensure_directory] and [Utils.cleanup_directory] above are the
    two helpers on a disk where the directory can be made and removed.
    [Path.mkdir] and [shutil.rmtree] raise OSError otherwise: a regular
    file stands where a directory is needed, or the operating system
    refuses for a reason the disk map does not show (permissions, a full
    disk).  The definitions of this part follow the same source lines with
    these failures, and with them the exits of the callers that the
    failures open. *)

Module Disk.
Import Utils.

(** What the operating system does beyond what the disk map shows. *)
Record refusals := mkRefusals {
  (* str(e) of the NotADirectoryError of os.mkdir(Path(p)) and of
     shutil.rmtree(p) *)
  mkdir_enotdir : string → string;
  rmtree_enotdir : string → string;
  (* Path(p).mkdir(parents=True, exist_ok=True) refused on a disk: str(e) of
     the OSError and the disk the attempt leaves *)
  mkdir_refused : string → filesystem → option (string * filesystem);
  (* shutil.rmtree(p) refused on a disk: str(e) of the OSError and the disk
     the attempt leaves *)
  rmtree_refused : string → filesystem → option (string * filesystem)
}.

(** A helper without a suspension point: it returns ([None]) or raises. *)
Definition helper : Type := world → option exn * world.

(** [await helper(...)] *)
Definition await (h : helper) : M unit := λ w,
  match h w with
  | (None, w') => (Return tt, w')
  | (Some e, w') => (Raise e, w')
  end.

(** [try: m  finally: fin]: when [fin] raises, its exception replaces the
    outcome of [m]. *)
Definition try_finally_M {A} (m : M A) (fin : M unit) : M A := λ w,
  let '(o, w1) := m w in
  match fin w1 with
  | (Return _, w2) => (o, w2)
  | (Raise e, w2) => (Raise e, w2)
  | (Cancelled, w2) => (Cancelled, w2)
  end.

Definition is_file (fs : filesystem) (p : string) : bool :=
  match fs !! p with Some (File _) => true | _ => false end.

Section disk.
Context (R : refusals).

(** [Path(p).mkdir(parents=True, exist_ok=True)] for a path that does not
    exist.  [os.mkdir] fails with ENOTDIR when a component of the path is a
    regular file; that error is not the FileNotFoundError after which the
    parents are made, and it is raised again since the path is no
    directory. *)
Definition Path_mkdir (p : string) : helper := λ w,
  if existsb (is_file (fs w)) (ancestors (String.length p) p) then
    (Some (Exc OSError_ (mkdir_enotdir R p)), w)
  else
    match mkdir_refused R p (fs w) with
    | Some (text, disk) => (Some (Exc OSError_ text), with_fs (λ _, disk) w)
    | None => (None, with_fs (mkdir_parents p) w)
    end.

(** [ensure_directory] *)
Definition ensure_directory (directory : string) : helper := λ w,
  if path_exists (fs w) directory then (None, w) else Path_mkdir directory w.

(** [shutil.rmtree(d)] for a path that exists: a regular file is not
    removed, NotADirectoryError is raised. *)
Definition shutil_rmtree (d : string) : helper := λ w,
  if is_file (fs w) d then (Some (Exc OSError_ (rmtree_enotdir R d)), w)
  else
    match rmtree_refused R d (fs w) with
    | Some (text, disk) => (Some (Exc OSError_ text), with_fs (λ _, disk) w)
    | None => (None, with_fs (rmtree d) w)
    end.

(** [cleanup_directory] *)
Definition cleanup_directory (directory : string) : helper := λ w,
  if path_exists (fs w) directory then shutil_rmtree directory w else (None, w).

(** [dest_dir = os.path.dirname(dest_path)] followed by
    [if dest_dir and not os.path.exists(dest_dir): await ensure_directory(dest_dir)] *)
Definition ensure_dest_dir (dest_path : string) : helper := λ w,
  let dest_dir := os_path_dirname dest_path in
  if negb (is_empty dest_dir) && negb (path_exists (fs w) dest_dir)
  then ensure_directory dest_dir w
  else (None, w).

End disk.
End Disk.

(** ** app/services/file_processor.py, [process_uploaded_file_bytes] with
    the failures of the directory helpers *)

Module FileProcOS.
Import Utils Disk.

Section file_processor.
Context (R : refusals) (E : environment).

(** The body of the loop that saves the items (lines 359-376). *)
Definition save_item (task_temp_dir : string) (saved_paths : list string)
    (item : string * bytes) : M (list string) :=
  let '(filename, data) := item in
  let safe_name := safe_filename filename in
  let dest_path := os_path_join task_temp_dir safe_name in
  let* _ := await (ensure_dest_dir R dest_path) in
  try_except_M
    (let* _ := write_file E dest_path data in
     ret (saved_paths ++ [dest_path]))
    (λ _, λ w, (Return saved_paths, remove_if_exists dest_path w)).

Fixpoint save_items (task_temp_dir : string) (items : list (string * bytes))
    (saved_paths : list string) : M (list string) :=
  match items with
  | [] => ret saved_paths
  | item :: rest =>
      let* saved_paths := save_item task_temp_dir saved_paths item in
      save_items task_temp_dir rest saved_paths
  end.

(** [process_uploaded_file_bytes]: the per-task directory is made before
    the [try] (line 354) and removed in the [finally] (line 399). *)
Definition process_uploaded_file_bytes (items : list (string * bytes))
    : M FileProcessingStats :=
  match items with
  | [] => raise (HTTPException 400 "No file data provided")
  | _ :: _ =>
      let* hex := draw_uuid_hex E in
      let task_temp_dir :=
        os_path_join (temp_files_dir (settings E)) ("upload_" +:+ hex) in
      let* _ := await (ensure_directory R task_temp_dir) in
      try_finally_M
        (try_except_M
           (let* saved_paths := save_items task_temp_dir items [] in
            match saved_paths with
            | [] => raise (HTTPException 400 "No files saved for processing")
            | _ :: _ =>
                let* processing_result :=
                  liftO (λ fs, DocProc.process_files_concurrent E fs saved_paths) in
                ret (FileProc.stats_of (Z.of_nat (length items)) processing_result)
            end)
           FileProc.reraise_as_500)
        (await (cleanup_directory R task_temp_dir))
  end.

End file_processor.
End FileProcOS.

(** ** app/services/repository.py, [process_repository] with the failures
    of the directory helpers *)

Module RepoOS.
Import Utils Disk.

Section repository.
Context (R : refusals) (E : environment).

(** [process_repository]: the first [cleanup_directory] and
    [ensure_directory] stand inside the [try] (lines 145, 148), the last
    [cleanup_directory] in the [finally] (line 186).  The clone lock is
    taken at once: the body runs without another clone interleaved. *)
Definition process_repository
    (process_directory_files : string → bool → M FileProcessingStats)
    (repo_url : string) : M FileProcessingStats :=
  if negb (Repo._validate_git_url repo_url) then
    raise (HTTPException 400 "Invalid Git repository URL")
  else
    let temp_repo_dir := temp_repo_dir (settings E) in
    try_finally_M
      (try_except_M
         (let* _ := await (cleanup_directory R temp_repo_dir) in
          let* _ := await (ensure_directory R (os_path_dirname temp_repo_dir)) in
          let* clone_success :=
            Repo._clone_repository_async E repo_url temp_repo_dir in
          if negb clone_success then
            raise (HTTPException 400
                     "Failed to clone repository. Please check the URL and access permissions.")
          else
            let* processing_stats := process_directory_files temp_repo_dir true in
            ret processing_stats)
         (λ e, if is_HTTPException e then raise e
               else raise (HTTPException 500
                             ("Repository processing failed: " +:+ Py.str e))))
      (await (cleanup_directory R temp_repo_dir)).

End repository.
End RepoOS.

(** ** app/api/v1/endpoints/data_processing.py with the failures of the
    directory helpers *)

Module EndpointsOS.
Import Utils Disk Endpoints.

Section data_processing.
Context (R : refusals) (E : environment).

Definition next_uuid (w : world) : world :=
  {| fs := fs w; uuids_drawn := S (uuids_drawn w); wall_clock := wall_clock w;
     registry := registry w; scheduled := scheduled w |}.

(** [f.filename or f"upload_{uuid4().hex}"] *)
Definition upload_name (f : UploadFile) (w : world) : string * world :=
  match filename f with
  | Some (String _ _ as given) => (given, w)
  | Some EmptyString | None =>
      ("upload_" +:+ uuid4_hex E (uuids_drawn w), next_uuid w)
  end.

(** Lines 79-81: the variable [task_temp_dir] is assigned, then the
    directory is made; the exception of [ensure_directory], if any, leaves
    the variable assigned. *)
Definition scratch_dir (r : routing) (w : world)
    : (string * option exn) * world :=
  match task_temp_dir r with
  | Some dir => ((dir, None), w)
  | None =>
      let dir := os_path_join (temp_files_dir (settings E))
                   ("upload_" +:+ uuid4_hex E (uuids_drawn w)) in
      let '(failed, w') := ensure_directory R dir (next_uuid w) in
      ((dir, failed), w')
  end.

(** The body of the upload loop (lines 59-99): the three variables after
    the iteration and the exception, if any, that leaves it.  Only the two
    calls of [ensure_directory] can raise here. *)
Definition route_file (r : routing) (f : UploadFile) (w : world)
    : (routing * option exn) * world :=
  match read f with
  | inl _ => ((r, None), w)                               (* read failed *)
  | inr [] => ((r, None), w)                              (* empty upload *)
  | inr ((_ :: _) as content) =>
      let '(raw_name, w1) := upload_name f w in
      let filename := safe_filename raw_name in
      if Z.of_nat (length content) <=? IN_MEMORY_LIMIT_BYTES then
        (({| task_temp_dir := task_temp_dir r;
             saved_paths := saved_paths r;
             items_in_memory := items_in_memory r ++ [(filename, content)] |},
          None), w1)
      else
        let '((dir, failed), w2) := scratch_dir r w1 in
        let assigned := {| task_temp_dir := Some dir;
                           saved_paths := saved_paths r;
                           items_in_memory := items_in_memory r |} in
        match failed with
        | Some e => ((assigned, Some e), w2)
        | None =>
            let dest_path := os_path_join dir filename in
            match ensure_dest_dir R dest_path w2 with
            | (Some e, w3) => ((assigned, Some e), w3)
            | (None, w3) =>
                match write_fault E dest_path with
                | None =>
                    (({| task_temp_dir := Some dir;
                         saved_paths := saved_paths r ++ [dest_path];
                         items_in_memory := items_in_memory r |}, None),
                     with_fs (insert dest_path (File content)) w3)
                | Some _ => ((assigned, None), remove_if_exists dest_path w3)
                end
            end
        end
  end.

(** The loop: an exception ends it. *)
Fixpoint route_files (r : routing) (files : list UploadFile) (w : world)
    : (routing * option exn) * world :=
  match files with
  | [] => ((r, None), w)
  | f :: rest =>
      match route_file r f w with
      | ((r', None), w') => route_files r' rest w'
      | ended => ended
      end
  end.

(** The instance [get_file_processor] returns. *)
Definition the_file_processor : file_processor :=
  {| process_uploaded_file_bytes :=
       Some (FileProcOS.process_uploaded_file_bytes R E);
     process_uploaded_file_paths :=
       Some (FileProc.process_uploaded_file_paths E) |}.

(** [if dir: await cleanup_directory(dir)] *)
Definition cleanup_if_set (dir : option string) : M unit :=
  match dir with
  | Some (String _ _ as d) => await (cleanup_directory R d)
  | Some EmptyString | None => ret tt
  end.

(** The first half of [_bg_worker]: the in-memory items (lines 111-132). *)
Definition bg_items (file_proc : file_processor)
    (items : list (string * bytes)) (work_dir : option string) : M unit :=
  match items with
  | [] => ret tt
  | _ :: _ =>
      match process_uploaded_file_bytes file_proc with
      | Some by_bytes => let* _ := by_bytes items in ret tt
      | None =>
          let* fallback_dir :=
            match work_dir with
            | Some (String _ _ as dir) => ret dir
            | Some EmptyString | None =>
                let* hex := draw_uuid_hex E in
                ret (os_path_join (temp_files_dir (settings E))
                       ("upload_fallback_" +:+ hex))
            end in
          try_finally_M
            (let* _ := await (ensure_directory R fallback_dir) in
             let* fallback_paths := write_fallback E fallback_dir items [] in
             match process_uploaded_file_paths file_proc with
             | Some by_paths => let* _ := by_paths fallback_paths in ret tt
             | None => missing_methods
             end)
            (cleanup_if_set (Some fallback_dir))
      end
  end.

(** [_bg_worker]: it returns None; its [finally] removes [work_dir]. *)
Definition _bg_worker (file_proc : file_processor)
    (items : list (string * bytes)) (paths : list string)
    (work_dir : option string) : M PyAny :=
  try_finally_M
    (let* _ := bg_items file_proc items work_dir in
     let* _ := bg_paths file_proc paths in
     ret PyNone)
    (cleanup_if_set work_dir).

(** The handlers of the outer [try] (lines 169-175). *)
Definition scheduling_failed {A} (dir : option string) (e : exn) : M A :=
  if is_HTTPException e then raise e
  else
    let* _ := cleanup_if_set dir in
    raise (HTTPException 500 "Failed to schedule file processing").

(** [process_uploaded_files] (POST /process-files): the upload loop stands
    inside the outer [try]. *)
Definition process_uploaded_files (files : list UploadFile) : M accepted :=
  match files with
  | [] => raise (HTTPException 400 "No files uploaded")
  | _ :: _ => λ w,
      let '((r, ended), w1) := route_files no_routing files w in
      match ended with
      | Some e => scheduling_failed (task_temp_dir r) e w1
      | None =>
          try_except_M
            (match items_in_memory r, saved_paths r with
             | [], [] =>
                 let* _ := cleanup_if_set (task_temp_dir r) in
                 raise (HTTPException 400 "No processable files after filtering")
             | _, _ =>
                 let* task_id :=
                   create_task E
                     ("Processing "
                        +:+ pretty (Z.of_nat (length (items_in_memory r))
                                    + Z.of_nat (length (saved_paths r)))
                        +:+ " uploaded files")
                     (BgWorker (items_in_memory r) (saved_paths r)
                        (task_temp_dir r)) in
                 ret {| message := "File processing started in the background.";
                        task_id := task_id;
                        status_url := "/api/v1/tasks/" +:+ task_id |}
             end)
            (scheduling_failed (task_temp_dir r)) w1
      end
  end.

End data_processing.
End EndpointsOS.

(** ** A unit of work, from its submission to its end *)

Module Jobs.
Import Disk.

Section jobs.
Context (R : refusals) (E : environment) (fnmatch : string → string → bool).






End jobs.
End Jobs.

(** ** The cases of a run with failing directory helpers *)

(** ** The URLs [urlsplit] only has to cut *)

Module UrlCases.
Import Utils Repo.

(** A URL of ASCII characters without square brackets.  For other URLs
    [urlsplit] has checks of its own (the host between brackets must be an
    IP literal, the NFKC form of the netloc must hold no delimiter) that
    [url_netloc] leaves out. *)
Definition plain_url (url : string) : Prop :=
  all_chars (λ c, (Ascii.N_of_ascii c <? 128)%N) url = true ∧
  has_char "[" url = false ∧ has_char "]" url = false.

End UrlCases.

Module DiskCases.
Import Utils Disk.

(** An OSError. *)
Definition os_error (e : exn) : Prop := ∃ text, e = Exc OSError_ text.

(** The operating system refuses nothing. *)
Definition willing (R : refusals) : Prop :=
  ∀ p disk, mkdir_refused R p disk = None ∧ rmtree_refused R p disk = None.

(** No regular file stands at the path or at one of its ancestors. *)
Definition unobstructed (fs : filesystem) (p : string) : Prop :=
  is_file fs p = false ∧
  existsb (is_file fs) (ancestors (String.length p) p) = false.

(** A helper that touches nothing but the disk and raises nothing but
    OSErrors. *)
Definition disk_only (h : helper) : Prop :=
  ∀ w, PipelineCases.same_but_disk w (h w).2 ∧
       ∀ e, (h w).1 = Some e → os_error e.

(** A computation that leaves the task registry and the scheduled
    coroutines alone and raises nothing but exceptions with the property
    [P]. *)
Definition raises_only {A} (P : exn → Prop) (m : M A) : Prop :=
  ∀ w, registry (m w).2 = registry w ∧ scheduled (m w).2 = scheduled w ∧
       ∀ e, (m w).1 = Raise e → P e.


(** Any exception, provided that an HTTPException has one of the codes. *)
Definition http_within (codes : list Z) (e : exn) : Prop :=
  is_HTTPException e = true → PipelineCases.http_error e codes.

(** The directory a variable holds, if any, has a name that is not
    empty. *)
Definition named_dir (dir : option string) : Prop :=
  ∀ d, dir = Some d → ∃ c rest, d = String c rest.



(** The helper raised [e] and left the world [w']. *)
Definition raised_by (h : helper) (e : exn) (w' : world) : Prop :=
  ∃ w, h w = (Some e, w').

End DiskCases.

(** ** Concrete runs with failing directory helpers *)

Module DiskScenario.
Import Disk Scenario.

(** [str(Path(p))] for a path that starts with [./]: pathlib drops the
    leading dot. *)
Definition Path_str (p : string) : string :=
  match p with
  | String "." (String "/" rest) => rest
  | _ => p
  end.

(** The operating system refuses nothing.  [os.mkdir] is given the
    [Path], [shutil.rmtree] the string. *)
Definition R0 : refusals :=
  {| mkdir_enotdir := λ p, "[Errno 20] Not a directory: '" +:+ Path_str p +:+ "'";
     rmtree_enotdir := λ p, "[Errno 20] Not a directory: '" +:+ p +:+ "'";
     mkdir_refused := λ _ _, None;
     rmtree_refused := λ _ _, None |}.

(** A regular file stands where the upload directory should be. *)
Definition upload_dir_is_a_file : world :=
  with_fs (λ _, {["./temp_files" := File []]}) w0.

(** A regular file stands where the clone directory should be. *)
Definition clone_dir_is_a_file : world :=
  with_fs (λ _, {["./temp_repo" := File []]}) w0.

(** The world after an upload of one code file was accepted. *)
Definition upload_accepted : world :=
  (EndpointsOS.process_uploaded_files R0 E0 [upload "a.py" code200] w0).2.




End DiskScenario.

(** ** Proof automation *)

(** Closes a side condition of the update lemma of the registry invariant
    when the record itself is unchanged. *)
Ltac unchanged_record Hinv Ht :=
  first [ by rewrite insert_id
        | apply (TasksInv.inv_completed _ _ Hinv _ _ Ht)
        | apply (TasksInv.inv_sem _ _ Hinv) ].

(** The same when the record [Ht] changed and had the status [Hfit]. *)
Ltac changed_record Hinv Ht Hfit :=
  unfold Tasks.release, Tasks.set_task; simpl; rewrite ?Ht; simpl;
  first [ done
        | unfold TasksInv.slot; simpl; rewrite Hfit; simpl;
          pose proof (TasksInv.inv_sem _ _ Hinv); lia
        | pose proof (TasksInv.inv_sem _ _ Hinv); lia ].

(** Closes the goal that describes the result of the per-file processor on
    a failure path; [pick] selects the message. *)
Ltac failed_result pick :=
  eexists; split; [reflexivity|]; split; [done|]; split; [done|];
  intros _; split; [done|]; eexists; split; [reflexivity|]; pick.

(** * Proofs: the task registry *)

Section tasks_proofs.
Import Tasks TasksInv.
Context {Any : Type}.
Implicit Types s : BackgroundTaskService Any.
Implicit Types t : BackgroundTask Any.

Abbreviation is_running := (λ kv : string * BackgroundTask Any, status kv.2 = RUNNING).

Lemma terminal_not_running st : terminal st = true → st ≠ RUNNING.
Proof. by destruct st. Qed.

Lemma coherent_not_terminal c st : coherent c st → terminal st = false.
Proof. destruct c; simpl; intros ->; done. Qed.

(** Counting RUNNING records under an update of one record. *)
Lemma running_insert_enter (m : gmap string (BackgroundTask Any)) tid t t' :
  m !! tid = Some t → status t ≠ RUNNING → status t' = RUNNING →
  size (filter is_running (<[tid := t']> m)) = S (size (filter is_running m)).
Proof.
  intros Hm Hold Hnew.
  rewrite map_filter_insert_True by done.
  apply map_size_insert_None, map_lookup_filter_None_2.
  right. intros x Hx. simpl. congruence.
Qed.

Lemma running_insert_leave (m : gmap string (BackgroundTask Any)) tid t t' :
  m !! tid = Some t → status t = RUNNING → status t' ≠ RUNNING →
  S (size (filter is_running (<[tid := t']> m))) = size (filter is_running m).
Proof.
  intros Hm Hold Hnew.
  rewrite map_filter_insert_False by done.
  rewrite map_filter_delete.
  assert (Hin : filter is_running m !! tid = Some t)
    by (by apply map_lookup_filter_Some_2).
  rewrite map_size_delete_Some by eauto.
  assert (size (filter is_running m) ≠ 0%nat)
    by (eapply map_size_ne_0_lookup_2; eauto).
  lia.
Qed.

Lemma running_insert_same (m : gmap string (BackgroundTask Any)) tid t' :
  (∀ t, m !! tid = Some t → status t ≠ RUNNING) → status t' ≠ RUNNING →
  size (filter is_running (<[tid := t']> m)) = size (filter is_running m).
Proof.
  intros Hold Hnew. f_equal. apply map_filter_insert_not'; [done|].
  intros y Hy. simpl. by apply Hold.
Qed.

Lemma running_cleanup (m : gmap string (BackgroundTask Any)) now interval :
  filter is_running
    (filter (λ kv : string * BackgroundTask Any, expired now interval kv.2 = false) m)
  = filter is_running m.
Proof.
  rewrite map_filter_filter. apply map_filter_ext.
  intros tid t _. simpl. split; [tauto|]. intros Hr. split; [done|].
  unfold expired. by rewrite Hr.
Qed.

Lemma invariant_init N s0 : __init__ N = Return s0 → invariant N s0.
Proof.
  unfold __init__. destruct (N <? 0) eqn:HN; [done|].
  intros [= <-]. apply Z.ltb_ge in HN.
  split; simpl; done.
Qed.

Lemma invariant_create N s now uuid nm :
  invariant N s → _tasks s !! uuid = None → _running_tasks s !! uuid = None →
  invariant N (create_task now uuid nm s).2.
Proof.
  intros [Hc Hl Hd Hs Hv] Hfresh Hfresh'. split; simpl; try done.
  - intros tid a. destruct (decide (uuid = tid)) as [<-|Hne].
    + rewrite lookup_insert_eq. intros [= <-]. rewrite lookup_insert_eq.
      by eexists.
    + rewrite !lookup_insert_ne by done. apply Hc.
  - intros tid t. destruct (decide (uuid = tid)) as [<-|Hne].
    + rewrite !lookup_insert_eq. eauto.
    + rewrite !lookup_insert_ne by done. apply Hl.
  - intros tid t. destruct (decide (uuid = tid)) as [<-|Hne].
    + rewrite lookup_insert_eq. intros [= <-]. simpl.
      split; [by intros [? ?]|done].
    + rewrite lookup_insert_ne by done. apply Hd.
  - unfold count_running in *. simpl.
    rewrite running_insert_same; [done| |done].
    intros t Ht. congruence.
Qed.

Lemma running_insert (m : gmap string (BackgroundTask Any)) tid t t' :
  m !! tid = Some t →
  (size (filter is_running (<[tid := t']> m)) + slot t
   = size (filter is_running m) + slot t')%nat.
Proof.
  intros Hm. unfold slot.
  destruct (decide (status t = RUNNING)) as [Ht|Ht];
    destruct (decide (status t' = RUNNING)) as [Ht'|Ht'].
  - rewrite map_filter_insert_True by done.
    rewrite map_size_insert_Some; [done|].
    exists t. by apply map_lookup_filter_Some_2.
  - pose proof (running_insert_leave m tid t t' Hm Ht Ht'). lia.
  - pose proof (running_insert_enter m tid t t' Hm Ht Ht'). lia.
  - rewrite running_insert_same; [done| |done]. intros ? ?. congruence.
Qed.

(** One record and its handle change together. *)
Lemma invariant_update N s s' tid t t' (oa' : option asyncio_Task) :
  invariant N s →
  _tasks s !! tid = Some t →
  is_Some (_running_tasks s !! tid) →
  _tasks s' = <[tid := t']> (_tasks s) →
  _running_tasks s' =
    match oa' with
    | Some a' => <[tid := a']> (_running_tasks s)
    | None => delete tid (_running_tasks s)
    end →
  match oa' with
  | Some a' => coherent (coro a') (status t')
  | None => terminal (status t') = true
  end →
  (is_Some (completed_at t') ↔ terminal (status t') = true) →
  Z.of_nat (slot t') + _semaphore s' = Z.of_nat (slot t) + _semaphore s →
  0 ≤ _semaphore s' →
  invariant N s'.
Proof.
  intros [Hc Hl Hd Hs Hv] Ht Hrun Htasks Hcoros Hfit Hdone Hsem Hpos.
  split; try done.
  - intros k a. rewrite Hcoros, Htasks.
    destruct (decide (tid = k)) as [<-|Hne].
    + rewrite lookup_insert_eq. destruct oa' as [a'|].
      * rewrite lookup_insert_eq. intros [= <-]. by eexists.
      * by rewrite lookup_delete_eq.
    + rewrite lookup_insert_ne by done. destruct oa'.
      * rewrite lookup_insert_ne by done. apply Hc.
      * rewrite lookup_delete_ne by done. apply Hc.
  - intros k x. rewrite Hcoros, Htasks.
    destruct (decide (tid = k)) as [<-|Hne].
    + rewrite lookup_insert_eq. intros [= <-] Hnt. destruct oa'.
      * rewrite lookup_insert_eq. eauto.
      * congruence.
    + rewrite lookup_insert_ne by done. destruct oa'.
      * rewrite lookup_insert_ne by done. apply Hl.
      * rewrite lookup_delete_ne by done. apply Hl.
  - intros k x. rewrite Htasks.
    destruct (decide (tid = k)) as [<-|Hne].
    + rewrite lookup_insert_eq. by intros [= <-].
    + rewrite lookup_insert_ne by done. apply Hd.
  - unfold count_running in *. rewrite Htasks.
    pose proof (running_insert (_tasks s) tid t t' Ht). lia.
Qed.

Lemma invariant_start N s tid s' :
  invariant N s → _execute_task_start tid s = Some s' → invariant N s'.
Proof.
  intros Hinv. unfold _execute_task_start.
  destruct (_running_tasks s !! tid) as [a|] eqn:Ha; [|done].
  case_bool_decide as Hcr; [|done].
  destruct (inv_coro _ _ Hinv _ _ Ha) as (t & Ht & Hfit).
  rewrite Hcr in Hfit. simpl in Hfit.
  destruct (must_cancel a); intros [= <-];
    eapply (invariant_update N s _ tid t t (Some _)); eauto; simpl;
    unchanged_record Hinv Ht.
Qed.

Lemma invariant_cancel N s tid :
  invariant N s → invariant N (cancel_task tid s).2.
Proof.
  intros Hinv. unfold cancel_task.
  destruct (_running_tasks s !! tid) as [a|] eqn:Ha; [|done].
  destruct (negb (done a)); [|done]. simpl.
  destruct (inv_coro _ _ Hinv _ _ Ha) as (t & Ht & Hfit).
  eapply (invariant_update N s _ tid t t (Some _)); eauto; simpl;
    unchanged_record Hinv Ht.
Qed.

Lemma invariant_acquire N s now tid s' :
  invariant N s → _execute_task_acquire now tid s = Some s' → invariant N s'.
Proof.
  intros Hinv. unfold _execute_task_acquire.
  destruct (_running_tasks s !! tid) as [a|] eqn:Ha; [|done].
  destruct (bool_decide (coro a = AwaitSemaphore)) eqn:Hcr; [|done].
  destruct (0 <? _semaphore s) eqn:Hpos; [|done]. simpl.
  apply bool_decide_eq_true in Hcr. apply Z.ltb_lt in Hpos.
  destruct (inv_coro _ _ Hinv _ _ Ha) as (t & Ht & Hfit).
  rewrite Hcr in Hfit. simpl in Hfit.
  intros [= <-].
  eapply (invariant_update N s _ tid t (mark_running now t) (Some _));
    eauto; simpl.
  all: try changed_record Hinv Ht Hfit.
  pose proof (inv_completed _ _ Hinv _ _ Ht) as Hd. by rewrite Hfit in Hd.
Qed.

Lemma invariant_resume N s now tid w esc s' :
  invariant N s → _execute_task_resume now tid w s = Some (esc, s') →
  invariant N s'.
Proof.
  intros Hinv. unfold _execute_task_resume.
  destruct (_running_tasks s !! tid) as [a|] eqn:Ha; [|done].
  case_bool_decide as Hcr; [|done].
  destruct (inv_coro _ _ Hinv _ _ Ha) as (t & Ht & Hfit).
  rewrite Hcr in Hfit. simpl in Hfit.
  destruct w as [r|e|]; simpl; intros [= <- <-].
  - eapply (invariant_update N s _ tid t (mark_completed now r t) None);
      eauto; simpl; changed_record Hinv Ht Hfit.
  - eapply (invariant_update N s _ tid t (mark_failed now e t) None);
      eauto; simpl; changed_record Hinv Ht Hfit.
  - eapply (invariant_update N s _ tid t (mark_cancelled now t) None);
      eauto; simpl; changed_record Hinv Ht Hfit.
Qed.

Lemma invariant_cancelled_waiting N s now tid s' :
  invariant N s → _execute_task_cancelled_waiting now tid s = Some s' →
  invariant N s'.
Proof.
  intros Hinv. unfold _execute_task_cancelled_waiting.
  destruct (_running_tasks s !! tid) as [a|] eqn:Ha; [|done].
  destruct (bool_decide (coro a = AwaitSemaphore)) eqn:Hcr; [|done].
  destruct (must_cancel a); [|done]. simpl.
  apply bool_decide_eq_true in Hcr.
  destruct (inv_coro _ _ Hinv _ _ Ha) as (t & Ht & Hfit).
  rewrite Hcr in Hfit. simpl in Hfit.
  intros [= <-].
  eapply (invariant_update N s _ tid t (mark_cancelled now t) None);
    eauto; simpl; changed_record Hinv Ht Hfit.
Qed.

Lemma invariant_cleanup N s now :
  invariant N s → invariant N (cleanup_completed_tasks now s).2.
Proof.
  intros [Hc Hl Hd Hs Hv]. split; simpl; try done.
  - intros tid a Ha. destruct (Hc _ _ Ha) as (t & Ht & Hfit).
    exists t. split; [|done]. apply map_lookup_filter_Some_2; [done|].
    simpl. unfold expired. by rewrite (coherent_not_terminal _ _ Hfit).
  - intros tid t Ht. apply map_lookup_filter_Some_1_1 in Ht. by eapply Hl.
  - intros tid t Ht. apply map_lookup_filter_Some_1_1 in Ht. by eapply Hd.
  - unfold count_running in *. simpl. by rewrite running_cleanup.
Qed.

Lemma invariant_fire N s e s' :
  invariant N s → fire e s = Some s' → invariant N s'.
Proof.
  intros Hinv. destruct e as [now uuid nm|tid|now tid|now tid w|now tid|tid|now|tid];
    simpl.
  - case_bool_decide as Hfresh; [|done]. destruct Hfresh. intros [= <-].
    by apply invariant_create.
  - by apply invariant_start.
  - by apply invariant_acquire.
  - destruct (_execute_task_resume now tid w s) as [[esc s1]|] eqn:Hr; [|done].
    simpl. intros [= <-]. by eapply invariant_resume.
  - by apply invariant_cancelled_waiting.
  - intros [= <-]. by apply invariant_cancel.
  - intros [= <-]. by apply invariant_cleanup.
  - by intros [= <-].
Qed.

Lemma reachable_invariant N s : reachable N s → invariant N s.
Proof.
  induction 1 as [s0 Hinit|s e s' _ IH Hfire].
  - by apply invariant_init.
  - by eapply invariant_fire.
Qed.

Lemma reachable_run N s evs s' :
  reachable N s → run evs s = Some s' → reachable N s'.
Proof.
  revert s. induction evs as [|e evs IH]; simpl; intros s Hs.
  - by intros [= <-].
  - destruct (fire e s) as [s1|] eqn:He; [|done].
    apply IH. by eapply reachable_fire.
Qed.

(** No event touches a terminal record, except that the sweep may remove it. *)
Lemma fire_terminal_record N s e s' tid t :
  invariant N s → fire e s = Some s' →
  _tasks s !! tid = Some t → terminal (status t) = true →
  _tasks s' !! tid = Some t ∨ _tasks s' !! tid = None.
Proof.
  intros Hinv Hfire Ht Hterm.
  assert (Hgone : _running_tasks s !! tid = None).
  { destruct (_running_tasks s !! tid) as [a|] eqn:Ha; [|done].
    destruct (inv_coro _ _ Hinv _ _ Ha) as (t0 & Ht0 & Hfit).
    apply coherent_not_terminal in Hfit. congruence. }
  destruct e as [now uuid nm|k|now k|now k w|now k|k|now|k]; simpl in Hfire.
  - case_bool_decide as Hfresh; [|done]. destruct Hfresh as [Hfresh _].
    injection Hfire as <-. simpl. left.
    rewrite lookup_insert_ne; [done|]. intros ->. congruence.
  - unfold _execute_task_start in Hfire.
    destruct (_running_tasks s !! k); [|done]. case_bool_decide; [|done].
    destruct (must_cancel _); injection Hfire as <-; by left.
  - unfold _execute_task_acquire in Hfire.
    destruct (_running_tasks s !! k) as [a|] eqn:Ha; [|done].
    destruct (_ && _); [|done]. injection Hfire as <-. simpl. left.
    assert (k ≠ tid) by (intros ->; congruence).
    unfold set_task. simpl. destruct (_tasks s !! k); [|done]. simpl.
    by rewrite lookup_insert_ne.
  - unfold _execute_task_resume in Hfire.
    destruct (_running_tasks s !! k) as [a|] eqn:Ha; [|done].
    assert (k ≠ tid) by (intros ->; congruence).
    case_bool_decide; [|done]. left.
    destruct w as [r|x|]; simpl in Hfire; injection Hfire as <-; simpl;
      unfold set_task; simpl; destruct (_tasks s !! k); simpl; try done;
      by rewrite lookup_insert_ne.
  - unfold _execute_task_cancelled_waiting in Hfire.
    destruct (_running_tasks s !! k) as [a|] eqn:Ha; [|done].
    assert (k ≠ tid) by (intros ->; congruence).
    destruct (_ && _); [|done]. injection Hfire as <-. simpl. left.
    unfold set_task. destruct (_tasks s !! k); simpl; [|done].
    by rewrite lookup_insert_ne.
  - injection Hfire as <-. left. unfold cancel_task.
    destruct (_running_tasks s !! k); [|done]. by destruct (negb _).
  - injection Hfire as <-. simpl.
    destruct (expired now (_cleanup_interval s) t) eqn:Hexp.
    + right. apply map_lookup_filter_None_2. right.
      intros x Hx. simpl. congruence.
    + left. by apply map_lookup_filter_Some_2.
  - injection Hfire as <-. by left.
Qed.

(** Only [Create] adds a record. *)
Lemma fire_absent_record s e s' tid :
  fire e s = Some s' → _tasks s !! tid = None →
  (∀ now nm, e ≠ Create now tid nm) →
  _tasks s' !! tid = None.
Proof.
  intros Hfire Hnone Hnew.
  destruct e as [now uuid nm|k|now k|now k w|now k|k|now|k]; simpl in Hfire.
  - case_bool_decide; [|done]. injection Hfire as <-. simpl.
    rewrite lookup_insert_ne; [done|]. intros ->. by eapply Hnew.
  - unfold _execute_task_start in Hfire.
    destruct (_running_tasks s !! k); [|done]. case_bool_decide; [|done].
    by destruct (must_cancel _); injection Hfire as <-.
  - unfold _execute_task_acquire in Hfire.
    destruct (_running_tasks s !! k) as [a|] eqn:Ha; [|done].
    destruct (_ && _); [|done]. injection Hfire as <-. simpl.
    unfold set_task. simpl. destruct (_tasks s !! k) eqn:Hk; [|done]. simpl.
    rewrite lookup_insert_ne; [done|]. intros ->. congruence.
  - unfold _execute_task_resume in Hfire.
    destruct (_running_tasks s !! k) as [a|] eqn:Ha; [|done].
    case_bool_decide; [|done].
    destruct w as [r|x|]; simpl in Hfire; injection Hfire as <-; simpl;
      unfold set_task; simpl; destruct (_tasks s !! k) eqn:Hk; simpl; try done;
      (rewrite lookup_insert_ne; [done|]; intros ->; congruence).
  - unfold _execute_task_cancelled_waiting in Hfire.
    destruct (_running_tasks s !! k) as [a|] eqn:Ha; [|done].
    destruct (_ && _); [|done]. injection Hfire as <-. simpl.
    unfold set_task. destruct (_tasks s !! k) eqn:Hk; simpl; [|done].
    rewrite lookup_insert_ne; [done|]. intros ->. congruence.
  - injection Hfire as <-. unfold cancel_task.
    destruct (_running_tasks s !! k); [|done]. by destruct (negb _).
  - injection Hfire as <-. simpl. apply map_lookup_filter_None_2. by left.
  - by injection Hfire as <-.
Qed.

Lemma run_terminal_record N evs : ∀ s s' tid t,
  reachable N s → run evs s = Some s' →
  (∀ now nm, Create now tid nm ∉ evs) →
  (_tasks s !! tid = None ∨
   (_tasks s !! tid = Some t ∧ terminal (status t) = true)) →
  _tasks s' !! tid = Some t ∨ _tasks s' !! tid = None.
Proof.
  induction evs as [|e evs IH]; simpl; intros s s' tid t Hs Hrun Hnew Hrec.
  - injection Hrun as <-. destruct Hrec as [?|[? _]]; eauto.
  - destruct (fire e s) as [s1|] eqn:He; [|done].
    assert (Hs1 : reachable N s1) by (by eapply reachable_fire).
    apply (IH s1 s' tid t Hs1 Hrun).
    { intros now nm Hin. apply (Hnew now nm). by right. }
    destruct Hrec as [Hnone|[Ht Hterm]].
    + left. eapply fire_absent_record; eauto.
      intros now nm ->. apply (Hnew now nm). by left.
    + destruct (fire_terminal_record N s e s1 tid t) as [?|?]; eauto.
      by apply reachable_invariant.
Qed.

(** C1 -- In every state the registry can reach, a record has
    [completed_at] set exactly when its status is COMPLETED, FAILED or
    CANCELLED; and once a record is terminal, whatever events follow leave
    the record, and so its status, as it is, until the sweep removes it
    (provided uuid4 does not hand out its identifier again). *)
Theorem completed_at_iff_terminal_and_terminal_is_final N s :
  reachable N s →
  (∀ tid t, get_task_status tid s = Some t →
     (is_Some (completed_at t) ↔ status t ∈ [COMPLETED; FAILED; CANCELLED]))
  ∧ (∀ tid t evs s',
       get_task_status tid s = Some t →
       status t ∈ [COMPLETED; FAILED; CANCELLED] →
       run evs s = Some s' →
       (∀ now nm, Create now tid nm ∉ evs) →
       match get_task_status tid s' with
       | Some t' => t' = t
       | None => True
       end).
Proof.
  intros Hs. pose proof (reachable_invariant _ _ Hs) as Hinv.
  assert (Hmem : ∀ st, st ∈ [COMPLETED; FAILED; CANCELLED] ↔ terminal st = true).
  { intros st. rewrite !elem_of_cons, elem_of_nil.
    destruct st; simpl; intuition congruence. }
  split.
  - intros tid t Ht. rewrite Hmem. by apply (inv_completed _ _ Hinv tid).
  - intros tid t evs s' Ht Hterm Hrun Hnew. apply Hmem in Hterm.
    unfold get_task_status in *.
    destruct (run_terminal_record N evs s s' tid t Hs Hrun Hnew) as [-> | ->];
      eauto.
Qed.

(** C2 -- With ceiling [N], no reachable state has more than [N] records
    in status RUNNING.  While [N] are RUNNING, every event leaves a PENDING
    record PENDING (only the delivery of a cancellation to that very task
    makes it CANCELLED); as soon as fewer than [N] are RUNNING, a task
    waiting for a slot can take it and becomes RUNNING. *)
Theorem running_never_exceeds_ceiling N s :
  reachable N s →
  Z.of_nat (count_running s) ≤ N
  ∧ (∀ e s' tid t,
       Z.of_nat (count_running s) = N →
       fire e s = Some s' →
       get_task_status tid s = Some t → status t = PENDING →
       ∃ t', get_task_status tid s' = Some t' ∧
             (status t' = PENDING ∨
              (status t' = CANCELLED ∧ ∃ now, e = CancelWaiting now tid)))
  ∧ (∀ now tid a,
       Z.of_nat (count_running s) < N →
       _running_tasks s !! tid = Some a → coro a = AwaitSemaphore →
       ∃ s' t', fire (Acquire now tid) s = Some s' ∧
                get_task_status tid s' = Some t' ∧ status t' = RUNNING).
Proof.
  intros Hs. pose proof (reachable_invariant _ _ Hs) as Hinv.
  pose proof (inv_slots _ _ Hinv) as Hslots.
  pose proof (inv_sem _ _ Hinv) as Hsem.
  split; [lia|]. split.
  - intros e s' tid t Hfull Hfire Ht Hpend. unfold get_task_status in *.
    assert (Hzero : _semaphore s = 0) by lia.
    destruct e as [now uuid nm|k|now k|now k w|now k|k|now|k]; simpl in Hfire.
    + case_bool_decide as Hfresh; [|done]. destruct Hfresh as [Hfresh _].
      injection Hfire as <-. simpl. exists t. split; [|by left].
      rewrite lookup_insert_ne; [done|]. intros ->. congruence.
    + unfold _execute_task_start in Hfire.
      destruct (_running_tasks s !! k); [|done]. case_bool_decide; [|done].
      destruct (must_cancel _); injection Hfire as <-; exists t; eauto.
    + unfold _execute_task_acquire in Hfire.
      destruct (_running_tasks s !! k); [|done].
      rewrite Hzero in Hfire. simpl in Hfire.
      by rewrite andb_false_r in Hfire.
    + unfold _execute_task_resume in Hfire.
      destruct (_running_tasks s !! k) as [a|] eqn:Ha; [|done].
      case_bool_decide as Hcr; [|done].
      destruct (inv_coro _ _ Hinv _ _ Ha) as (t0 & Ht0 & Hfit).
      rewrite Hcr in Hfit. simpl in Hfit.
      assert (k ≠ tid) by (intros ->; congruence).
      exists t. split; [|by left].
      destruct w as [r|x|]; simpl in Hfire; injection Hfire as <-; simpl;
        unfold set_task; simpl; rewrite Ht0; simpl;
        by rewrite lookup_insert_ne.
    + unfold _execute_task_cancelled_waiting in Hfire.
      destruct (_running_tasks s !! k) as [a|] eqn:Ha; [|done].
      destruct (_ && _); [|done]. injection Hfire as <-. simpl.
      destruct (decide (k = tid)) as [->|Hne].
      * exists (mark_cancelled now t). unfold set_task. rewrite Ht. simpl.
        rewrite lookup_insert_eq. split; [done|]. right. eauto.
      * exists t. split; [|by left].
        unfold set_task. destruct (_tasks s !! k); simpl; [|done].
        by rewrite lookup_insert_ne.
    + injection Hfire as <-. exists t. split; [|by left]. unfold cancel_task.
      destruct (_running_tasks s !! k); [|done]. by destruct (negb _).
    + injection Hfire as <-. simpl. exists t. split; [|by left].
      apply map_lookup_filter_Some_2; [done|]. simpl.
      unfold expired. by rewrite Hpend.
    + injection Hfire as <-. exists t. eauto.
  - intros now tid a Hfree Ha Hcr. simpl. unfold _execute_task_acquire.
    rewrite Ha. rewrite bool_decide_eq_true_2 by done.
    assert (Hpos : (0 <? _semaphore s) = true) by (apply Z.ltb_lt; lia).
    rewrite Hpos. simpl.
    destruct (inv_coro _ _ Hinv _ _ Ha) as (t & Ht & _).
    eexists. exists (mark_running now t). split; [done|].
    unfold get_task_status. simpl. unfold set_task. simpl. rewrite Ht. simpl.
    by rewrite lookup_insert_eq.
Qed.

(** C3 -- When the awaited unit of work raises an exception, the
    coroutine [_execute_task] catches it: nothing escapes, the record
    becomes FAILED with [error_message = str(e)], and the failure is
    visible through [get_task_status].  [create_task] itself only inserts a
    PENDING record and returns the identifier; it does not run the unit of
    work, so it has nothing to propagate. *)
Theorem unit_of_work_exception_is_recorded_not_propagated N s now tid a e :
  reachable N s →
  _running_tasks s !! tid = Some a → coro a = AwaitTaskFunc →
  (∃ s' t',
      _execute_task_resume now tid (Raise e) s = Some (None, s') ∧
      get_task_status tid s' = Some t' ∧
      status t' = FAILED ∧ error_message t' = Some (Py.str e) ∧
      _running_tasks s' !! tid = None)
  ∧ (∀ now' uuid nm,
       (create_task now' uuid nm s).1 = uuid ∧
       ∃ t0, get_task_status uuid (create_task now' uuid nm s).2 = Some t0 ∧
             status t0 = PENDING).
Proof.
  intros Hs Ha Hcr. pose proof (reachable_invariant _ _ Hs) as Hinv.
  destruct (inv_coro _ _ Hinv _ _ Ha) as (t & Ht & Hfit).
  split.
  - unfold _execute_task_resume. rewrite Ha.
    rewrite bool_decide_eq_true_2 by done. simpl.
    eexists. exists (mark_failed now e t). split; [done|].
    unfold get_task_status. simpl. unfold set_task. simpl. rewrite Ht. simpl.
    rewrite lookup_insert_eq, lookup_delete_eq. done.
  - intros now' uuid nm. split; [done|]. unfold get_task_status. simpl.
    rewrite lookup_insert_eq. by eexists.
Qed.

End tasks_proofs.


Section docproc_proofs.
Import Utils DocProc BatchCases.
Context (E : environment) (fs : filesystem).

Lemma getsize_not_cancelled p : os_path_getsize E fs p ≠ Cancelled.
Proof.
  unfold os_path_getsize. destruct (fs !! p) as [n|]; [|done].
  destruct (stat_fault E p); [done|]. by destruct n.
Qed.

Lemma process_valid p :
  valid E fs p →
  _process_single_file_async E fs p
  = Return {| file_path := p; success := true; documents := chunks_of E fs p;
              error_message := None |}.
Proof.
  intros (Htext & content & docs & chunks & Hfile & Hstat & Hsize & Hload & Hne & Hsplit).
  unfold _process_single_file_async, chunks_of. rewrite Htext. simpl.
  unfold validate_file_size, os_path_getsize. rewrite Hfile, Hstat. simpl.
  assert (Hle : (Z.of_nat (length content) <=? max_file_size_mb (settings E) * 1024 * 1024) = true)
    by (apply Z.leb_le; lia).
  rewrite Hle. simpl. unfold _load_document. rewrite Hfile, Hload.
  destruct docs as [|d docs]; [done|]. rewrite Hsplit. done.
Qed.

Lemma process_unreadable p :
  unreadable E fs p →
  ∃ r, _process_single_file_async E fs p = Return r ∧ success r = false.
Proof.
  intros [(e & Hprobe)|(content & e & Hfile & Hload)];
    unfold _process_single_file_async;
    (destruct (is_text_file p); simpl; [|eexists; split; reflexivity]).
  { unfold validate_file_size. rewrite Hprobe.
    destruct (isinstance e OSError_); eexists; split; reflexivity. }
  unfold validate_file_size, os_path_getsize. rewrite Hfile.
  destruct (stat_fault E p) as [x|].
  - destruct (isinstance x OSError_); eexists; split; reflexivity.
  - destruct (_ <=? _); simpl; [|eexists; split; reflexivity].
    unfold _load_document. rewrite Hfile, Hload.
    eexists; split; reflexivity.
Qed.

Lemma collect_entry acc o :
  collect acc o
  = {| all_documents := all_documents acc ++ entry_documents o;
       successful_files := successful_files acc + (if entry_ok o then 1 else 0);
       failed_files := failed_files acc + (if entry_ok o then 0 else 1) |}.
Proof.
  destruct acc as [docs ok ko]. unfold collect.
  destruct o as [r|e|]; cbn [entry_documents entry_ok all_documents
                                successful_files failed_files].
  - destruct (success r); by rewrite ?app_nil_r, ?Z.add_0_r.
  - destruct (isinstance e DocumentProcessingError_);
      by rewrite ?app_nil_r, ?Z.add_0_r.
  - by rewrite ?app_nil_r, ?Z.add_0_r.
Qed.

Lemma collect_fold results : ∀ acc,
  fold_left collect results acc
  = {| all_documents := all_documents acc ++ concat (List.map entry_documents results);
       successful_files :=
         successful_files acc + Z.of_nat (length (List.filter entry_ok results));
       failed_files :=
         failed_files acc
         + Z.of_nat (length (List.filter (λ o, negb (entry_ok o)) results)) |}.
Proof.
  induction results as [|o results IH]; intros acc; cbn [fold_left].
  - destruct acc. simpl. by rewrite app_nil_r, !Z.add_0_r.
  - rewrite IH, collect_entry.
    cbn [all_documents successful_files failed_files List.map concat List.filter].
    destruct (entry_ok o); cbn [negb length]; f_equal;
      first [by rewrite app_assoc | lia].
Qed.

Lemma gather_valid l :
  Forall (valid E fs) l →
  concat (List.map entry_documents (gather E fs l)) = flat_map (chunks_of E fs) l
  ∧ List.filter entry_ok (gather E fs l) = gather E fs l
  ∧ List.filter (λ o, negb (entry_ok o)) (gather E fs l) = [].
Proof.
  induction 1 as [|p l Hp _ (IH1 & IH2 & IH3)]; [done|].
  unfold gather in *. simpl. rewrite (process_valid p Hp). simpl.
  by rewrite IH1, IH2, IH3.
Qed.

Lemma process_files_concurrent_batch paths :
  paths ≠ [] → 0 < max_concurrent_files (settings E) →
  ∃ r, process_files_concurrent E fs paths = Return r ∧
       documents_failed r = failed_files (collect_results (gather E fs paths)) ∧
       documents_processed r
       = Z.of_nat (length (all_documents (collect_results (gather E fs paths)))).
Proof.
  intros Hne Hceil. unfold process_files_concurrent.
  destruct paths as [|p0 rest]; [done|].
  assert (Hn : (max_concurrent_files (settings E) <? 0) = false)
    by (apply Z.ltb_ge; lia).
  assert (Hz : (max_concurrent_files (settings E) =? 0) = false)
    by (apply Z.eqb_neq; lia).
  rewrite Hn, Hz. eexists. split; [reflexivity|]. done.
Qed.

(** Every file of a batch is counted once, as successful or as failed. *)
Lemma collect_results_counts paths :
  let t := collect_results (gather E fs paths) in
  successful_files t + failed_files t = Z.of_nat (length paths).
Proof.
  cbv zeta. unfold collect_results. rewrite collect_fold.
  cbn [successful_files failed_files].
  pose proof (List.filter_length entry_ok (gather E fs paths)) as Hsum.
  unfold gather in *. rewrite length_map in Hsum. lia.
Qed.

(** C4 -- A batch of five paths, one of them an unreadable file and the
    other four valid files (in any positions), is processed to the end:
    the collection loop counts 4 successful and 1 failed file and
    [all_documents] is exactly the chunks of the four valid files, in the
    order of the batch; the returned result reports 1 failed file and the
    number of those chunks.  No file failure aborts a batch: whatever the
    files of a batch do, the batch returns a result and every file is
    counted once, as successful or as failed. *)
Theorem batch_with_one_unreadable_file l1 u l2 :
  0 < max_concurrent_files (settings E) →
  length (l1 ++ l2) = 4%nat →
  Forall (valid E fs) (l1 ++ l2) →
  unreadable E fs u →
  let t := collect_results (gather E fs (l1 ++ u :: l2)) in
  successful_files t = 4 ∧ failed_files t = 1 ∧
  all_documents t = flat_map (chunks_of E fs) (l1 ++ l2) ∧
  length (gather E fs (l1 ++ u :: l2)) = 5%nat ∧
  (∃ r, process_files_concurrent E fs (l1 ++ u :: l2) = Return r ∧
        documents_failed r = 1 ∧
        documents_processed r = Z.of_nat (length (all_documents t))) ∧
  (∀ paths, paths ≠ [] →
     (∃ r, process_files_concurrent E fs paths = Return r) ∧
     let t' := collect_results (gather E fs paths) in
     successful_files t' + failed_files t' = Z.of_nat (length paths)).
Proof.
  intros Hceil Hlen Hvalid Hbad t.
  assert (Hany : ∀ paths, paths ≠ [] →
            (∃ r, process_files_concurrent E fs paths = Return r) ∧
            let t' := collect_results (gather E fs paths) in
            successful_files t' + failed_files t' = Z.of_nat (length paths)).
  { intros paths Hne. split; [|apply collect_results_counts].
    destruct (process_files_concurrent_batch paths Hne Hceil) as (r & Hr & _).
    by exists r. }
  apply Forall_app in Hvalid as [Hv1 Hv2].
  destruct (gather_valid l1 Hv1) as (Hd1 & Hok1 & Hko1).
  destruct (gather_valid l2 Hv2) as (Hd2 & Hok2 & Hko2).
  destruct (process_unreadable u Hbad) as (ru & Hru & Hfail).
  assert (Hgather : gather E fs (l1 ++ u :: l2)
                    = gather E fs l1 ++ Return ru :: gather E fs l2).
  { unfold gather. by rewrite map_app, <- Hru. }
  assert (Hlens : (length (gather E fs l1) + length (gather E fs l2) = 4)%nat).
  { unfold gather. rewrite !length_map. by rewrite length_app in Hlen. }
  assert (Ht : collect_results (gather E fs (l1 ++ u :: l2))
               = {| all_documents := flat_map (chunks_of E fs) (l1 ++ l2);
                    successful_files := 4; failed_files := 1 |}).
  { unfold collect_results. rewrite collect_fold, Hgather.
    rewrite map_app, concat_app, !List.filter_app. cbn [List.map concat List.filter].
    cbn [entry_ok entry_documents]. rewrite Hfail. cbn [negb].
    rewrite Hd1, Hd2, Hok1, Hok2, Hko1, Hko2, flat_map_app.
    cbn [all_documents successful_files failed_files app length].
    rewrite length_app. f_equal; lia. }
  unfold t. rewrite Ht. cbn [all_documents successful_files failed_files].
  split; [done|]. split; [done|]. split; [done|]. split; [|split; [|exact Hany]].
  - rewrite Hgather, length_app. simpl. lia.
  - destruct (process_files_concurrent_batch (l1 ++ u :: l2))
      as (r & Hr & Hfailed & Hdone); [by destruct l1|done|].
    rewrite Ht in Hfailed, Hdone. by exists r.
Qed.

(** C9, as amended -- [_process_single_file_async] returns a result for
    every path and never raises.  A failed result carries no documents and
    an [error_message]: one of three fixed texts on the non-text, size and
    empty-load paths, and the text [str(e)] of the exception on the
    exception path (raised while probing the size or while splitting).  A
    successful result carries no [error_message]. *)
Theorem process_single_file_total p :
  ∃ r, _process_single_file_async E fs p = Return r ∧ file_path r = p ∧
    (success r = true → error_message r = None) ∧
    (success r = false →
       documents r = [] ∧
       ∃ m, error_message r = Some m ∧
         (m = "Not a text file" ∨ m = (limit_message E) ∨
          m = "No content loaded from file" ∨
          ∃ e, m = Py.str e ∧
               (os_path_getsize E fs p = Raise e ∨
                ∃ docs, _create_text_splitter E p docs = inl e))).
Proof.
  unfold _process_single_file_async.
  destruct (is_text_file p); cbn [negb]; [|failed_result ltac:(by left)].
  unfold validate_file_size.
  pose proof (getsize_not_cancelled p) as Hnc.
  destruct (os_path_getsize E fs p) as [size|e|] eqn:Hsize; [| |done].
  - cbn [mbind outcome_bind Py.bind].
    destruct (size <=? _); cbn [negb];
      [|failed_result ltac:(right; by left)].
    destruct (_load_document E fs p) as [|d docs] eqn:Hload;
      [failed_result ltac:(right; right; by left)|].
    destruct (_create_text_splitter E p (d :: docs)) as [e|chunks] eqn:Hsplit.
    + failed_result ltac:(right; right; right; exists e; split; [done|];
                          right; eauto).
    + eexists. split; [reflexivity|]. by repeat split.
  - destruct (isinstance e OSError_).
    + failed_result ltac:(right; by left).
    + failed_result ltac:(right; right; right; exists e; split; [done|];
                          by left).
Qed.

(** C10 -- For a path with a text-like extension whose size probe ends in
    an OSError (a missing file, for one), the result is the failure that
    reports the size limit; it is the very result an oversized file at that
    path yields. *)
Theorem unprobeable_size_reported_as_limit p e :
  is_text_file p = true →
  os_path_getsize E fs p = Raise e → isinstance e OSError_ = true →
  _process_single_file_async E fs p = Return (failure p (limit_message E))
  ∧ ∀ fs' size,
      os_path_getsize E fs' p = Return size →
      max_file_size_mb (settings E) * 1024 * 1024 < size →
      _process_single_file_async E fs' p = _process_single_file_async E fs p.
Proof.
  intros Htext Hprobe Hos.
  assert (Hhere : _process_single_file_async E fs p
                  = Return (failure p (limit_message E))).
  { unfold _process_single_file_async, validate_file_size.
    by rewrite Htext, Hprobe, Hos. }
  split; [done|]. intros fs' size Hsize Hbig. rewrite Hhere.
  unfold _process_single_file_async, validate_file_size.
  rewrite Htext, Hsize. cbn [negb mbind outcome_bind Py.bind].
  assert (Hgt : (size <=? max_file_size_mb (settings E) * 1024 * 1024) = false)
    by (apply Z.leb_gt; lia).
  by rewrite Hgt.
Qed.

End docproc_proofs.

Section path_lemmas.
Import Utils BatchCases.

Lemma split_nonempty sep s : split sep s ≠ [].
Proof.
  destruct s as [|c s]; simpl; [done|].
  destruct (Ascii.eqb c sep); [done|]. by destruct (split sep s).
Qed.

Lemma split_no_sep sep s : has_char sep s = false → split sep s = [s].
Proof.
  induction s as [|c s IH]; simpl; [done|].
  rewrite Ascii.eqb_sym. destruct (Ascii.eqb c sep); simpl; [done|].
  intros Hs. by rewrite (IH Hs).
Qed.

Lemma split_append_component sep a name :
  has_char sep name = false →
  split sep (a +:+ String sep name) = split sep a ++ [name].
Proof.
  intros Hname. induction a as [|c a IH]; simpl.
  - rewrite Ascii.eqb_refl. by rewrite split_no_sep.
  - destruct (Ascii.eqb c sep); rewrite IH; [done|].
    pose proof (split_nonempty sep a). by destruct (split sep a).
Qed.

Lemma endswith_char_inv c s :
  endswith_char c s = true → ∃ s', s = s' +:+ String c EmptyString.
Proof.
  induction s as [|a s IH]; simpl; [done|].
  destruct s as [|b s].
  - intros ->%Ascii.eqb_eq. by exists EmptyString.
  - intros [s' ->]%IH. by exists (String a s').
Qed.

Lemma append_cons x (a b : string) : String x a +:+ b = String x (a +:+ b).
Proof. reflexivity. Qed.

Lemma append_assoc (a b c : string) : (a +:+ b) +:+ c = a +:+ (b +:+ c).
Proof.
  induction a as [|x a IH]; [done|]. by rewrite !append_cons, IH.
Qed.

(** A joined path is the name itself or ends in a slash and the name. *)
Lemma os_path_join_shape d name :
  startswith "/" name = false →
  os_path_join d name = name ∨ ∃ x, os_path_join d name = x +:+ String "/" name.
Proof.
  intros Hrel. unfold os_path_join. rewrite Hrel.
  destruct d as [|c d]; [by left|]. right. cbn [is_empty orb].
  destruct (endswith_char "/" (String c d)) eqn:Hend.
  - apply endswith_char_inv in Hend as [x ->]. exists x.
    by rewrite append_assoc.
  - exists (String c d). done.
Qed.

Lemma last_item_snoc l x : last_item (l ++ [x]) = x.
Proof. unfold last_item. apply last_last. Qed.

Lemma path_name_simple name : simple_name name → path_name name = name.
Proof.
  intros (Hs & Hne & Hdot). unfold path_name. rewrite split_no_sep by done.
  simpl. by rewrite Hne, Hdot.
Qed.

Lemma simple_name_relative name : simple_name name → startswith "/" name = false.
Proof.
  intros (Hs & _ & _). destruct name as [|c name]; [done|].
  cbn [has_char startswith] in *.
  apply orb_false_iff in Hs as [Hc _]. by rewrite Hc.
Qed.

Lemma path_name_join d name :
  simple_name name → path_name (os_path_join d name) = name.
Proof.
  intros Hn. pose proof Hn as (Hs & Hne & Hdot).
  pose proof (simple_name_relative name Hn) as Hrel.
  destruct (os_path_join_shape d name Hrel) as [->|[x ->]].
  - by apply path_name_simple.
  - unfold path_name. rewrite split_append_component by done.
    rewrite List.filter_app. simpl. rewrite Hne, Hdot. simpl.
    apply last_item_snoc.
Qed.

Lemma path_suffix_by_name p q : path_name p = path_name q → path_suffix p = path_suffix q.
Proof. unfold path_suffix. by intros ->. Qed.

Lemma is_text_file_join d name :
  simple_name name → is_text_file (os_path_join d name) = is_text_file name.
Proof.
  intros Hn. unfold is_text_file, get_file_extension.
  f_equal. f_equal. f_equal. apply path_suffix_by_name.
  by rewrite path_name_join, path_name_simple.
Qed.


Lemma has_char_lstrip c chars s :
  has_char c s = false → has_char c (lstrip chars s) = false.
Proof.
  induction s as [|a s IH]; simpl; [done|].
  intros [Ha Hs]%orb_false_iff.
  destruct (has_char a chars); [by apply IH|]. simpl. by rewrite Ha, Hs.
Qed.

Lemma has_char_rstrip c chars s :
  has_char c s = false → has_char c (rstrip chars s) = false.
Proof.
  induction s as [|a s IH]; simpl; [done|].
  intros [Ha Hs]%orb_false_iff. specialize (IH Hs).
  destruct (rstrip chars s) as [|b kept].
  - destruct (has_char a chars); simpl; [done|]. by rewrite Ha.
  - cbn [has_char] in *. by rewrite Ha, IH.
Qed.

(** A stripped text is empty or begins with a character that is kept. *)
Lemma lstrip_head chars s :
  lstrip chars s = EmptyString ∨
  ∃ a rest, lstrip chars s = String a rest ∧ has_char a chars = false.
Proof.
  induction s as [|a s IH]; simpl; [by left|].
  destruct (has_char a chars) eqn:Ha; [done|]. right. eauto.
Qed.

Lemma rstrip_head chars a rest :
  has_char a chars = false → ∃ kept, rstrip chars (String a rest) = String a kept.
Proof.
  intros Ha. simpl. rewrite Ha. destruct (rstrip chars rest); eauto.
Qed.

Lemma problematic_slash c : problematic c = false → Ascii.eqb "/" c = false.
Proof.
  unfold problematic. cbn [existsb]. intros H.
  repeat (apply orb_false_iff in H as [? H]).
  by rewrite Ascii.eqb_sym.
Qed.

Lemma re_sub_problematic_no_slash s : has_char "/" (re_sub_problematic s) = false.
Proof.
  induction s as [|c s IH]; simpl; [done|]. rewrite IH, orb_false_r.
  destruct (problematic c) eqn:Hc; [done|]. by apply problematic_slash.
Qed.

(** [safe_filename] always yields a single path component. *)
Lemma safe_filename_simple s : simple_name (safe_filename s).
Proof.
  unfold safe_filename, strip.
  set (t := re_sub_problematic s).
  assert (Hslash : has_char "/" (rstrip ". " (lstrip ". " t)) = false).
  { apply has_char_rstrip, has_char_lstrip, re_sub_problematic_no_slash. }
  destruct (lstrip_head ". " t) as [Hl|(a & rest & Hl & Ha)]; rewrite Hl in *.
  - by repeat split.
  - destruct (rstrip_head ". " a rest Ha) as [kept Hk]. rewrite Hk in *.
    cbn [is_empty]. repeat split; [done|].
    simpl in Ha. apply orb_false_iff in Ha as [Ha _].
    cbn. destruct (Ascii.eqb a ".") eqn:Hdot; [|done].
    apply Ascii.eqb_eq in Hdot. subst a. done.
Qed.

Lemma length_append (a b : string) :
  String.length (a +:+ b) = (String.length a + String.length b)%nat.
Proof.
  induction a as [|x a IH]; [done|]. rewrite append_cons. simpl. by rewrite IH.
Qed.

Lemma os_path_join_not_dir d name : simple_name name → os_path_join d name ≠ d.
Proof.
  intros Hn Heq. pose proof (simple_name_relative name Hn) as Hrel.
  destruct Hn as (_ & Hne & _).
  assert (Hlen : String.length (os_path_join d name) = String.length d)
    by (by rewrite Heq).
  unfold os_path_join in Hlen. rewrite Hrel in Hlen.
  destruct name as [|c name]; [done|].
  destruct (is_empty d || endswith_char "/" d);
    rewrite ?length_append in Hlen; simpl in Hlen; lia.
Qed.

End path_lemmas.

Section fs_lemmas.
Import Utils.
Implicit Types fs : filesystem.

Lemma in_tree_root d : in_tree d d = true.
Proof. unfold in_tree. by rewrite String.eqb_refl. Qed.

Lemma cleanup_directory_gone d fs : path_exists (cleanup_directory d fs) d = false.
Proof.
  unfold cleanup_directory. destruct (path_exists fs d) eqn:Hex; [|done].
  unfold path_exists, rmtree. apply bool_decide_eq_false_2.
  rewrite map_lookup_filter_None_2; [by intros [? ?]|].
  right. intros n _. simpl. by rewrite in_tree_root.
Qed.

Lemma mkdir_parents_spec d fs :
  mkdir_parents d fs !! d = Some Dir ∧
  ∀ q n, q ≠ d → fs !! q = Some n → mkdir_parents d fs !! q = Some n.
Proof.
  unfold mkdir_parents.
  induction (ancestors (String.length d) d) as [|a l [IHd IHk]]; simpl.
  - split; [apply lookup_insert_eq|]. intros q n Hq Hn.
    by rewrite lookup_insert_ne.
  - destruct (path_exists _ a) eqn:Hex; [done|].
    apply bool_decide_eq_false_1 in Hex.
    split.
    + rewrite lookup_insert_ne; [done|]. intros ->. apply Hex. by eexists.
    + intros q n Hq Hn. rewrite lookup_insert_ne; [by apply IHk|].
      intros ->. apply Hex. rewrite (IHk q n Hq Hn). by eexists.
Qed.

Lemma ensure_directory_exists d fs : path_exists (ensure_directory d fs) d = true.
Proof.
  unfold ensure_directory. destruct (path_exists fs d) eqn:Hex; [done|].
  unfold path_exists. apply bool_decide_eq_true_2.
  destruct (mkdir_parents_spec d fs) as [-> _]. by eexists.
Qed.

Lemma ensure_directory_keeps d fs q n :
  fs !! q = Some n → ensure_directory d fs !! q = Some n.
Proof.
  intros Hq. unfold ensure_directory.
  destruct (path_exists fs d) eqn:Hex; [done|].
  apply mkdir_parents_spec; [|done]. intros ->.
  apply bool_decide_eq_false_1 in Hex. apply Hex. by eexists.
Qed.

End fs_lemmas.

Section fileproc_proofs.
Import Utils BatchCases.
Context (E : environment).






End fileproc_proofs.

Section endpoint_proofs.
Import Utils BatchCases Endpoints UploadCases.
Context (E : environment).











(** C5 -- A request to /process-repo whose URL has a scheme other than
    http or https (ftp, say; this covers every scheme [_validate_git_url]
    rejects) fails request validation before the handler runs: the
    submitter gets the validation error at once and the world, with the
    task registry and the scheduled coroutines, is unchanged. *)
Theorem invalid_scheme_rejected_before_any_task raw w :
  Repo.url_scheme raw ∉ HttpUrl_schemes →
  ∃ e, Endpoints.process_repository E raw w = (Raise e, w) ∧
       isinstance e RequestValidationError_ = true.
Proof.
  intros Hscheme. unfold Endpoints.process_repository, RepoURL.
  assert (Hno : existsb (String.eqb (Repo.url_scheme raw)) HttpUrl_schemes = false).
  { apply not_true_is_false. intros (x & Hin & Heq)%existsb_exists.
    apply String.eqb_eq in Heq. subst x. apply Hscheme.
    by apply list_elem_of_In. }
  rewrite Hno. cbn [andb]. eexists. by split.
Qed.

Lemma rejected_schemes_include_invalid raw :
  Repo.url_scheme raw ∉ Repo.valid_schemes → Repo.url_scheme raw ∉ HttpUrl_schemes.
Proof.
  intros Hnot Hin. apply Hnot. unfold HttpUrl_schemes, Repo.valid_schemes in *.
  rewrite !elem_of_cons in *. tauto.
Qed.

End endpoint_proofs.

(** * Scenarios: the theorems at concrete inputs *)

Section scenarios.
Import Tasks TasksInv Scenario.

Lemma after_reachable evs s : run evs svc0 = Some s → reachable 3 s.
Proof. apply reachable_run. by apply reachable_init. Qed.

(** C1 on a concrete run: a task is created, runs and completes; further
    events, a sweep among them, leave its status COMPLETED. *)
Lemma completed_at_iff_terminal_and_terminal_is_final_witness :
  (∃ t, get_task_status "t1" (after finished) = Some t ∧
        is_Some (completed_at t) ∧ status t = COMPLETED)
  ∧ match get_task_status "t1" (after (finished ++ later)) with
    | Some t' => status t' = COMPLETED
    | None => True
    end.
Proof.
  assert (Hreach : reachable 3 (after finished))
    by (apply (after_reachable finished); vm_compute; reflexivity).
  destruct (completed_at_iff_terminal_and_terminal_is_final 3 _ Hreach)
    as [Hiff Hfinal].
  assert (Ht : ∃ t, get_task_status "t1" (after finished) = Some t
                    ∧ status t = COMPLETED).
  { eexists. split; vm_compute; reflexivity. }
  destruct Ht as (t & Ht & Hst).
  assert (Hterm : status t ∈ [COMPLETED; FAILED; CANCELLED]).
  { rewrite Hst. apply list_elem_of_here. }
  split.
  - exists t. split; [done|]. split; [|done]. by apply (Hiff "t1" t Ht).
  - assert (Hkept : match get_task_status "t1" (after (finished ++ later)) with
                    | Some t' => t' = t
                    | None => True
                    end).
    { apply (Hfinal "t1" t later _ Ht Hterm).
      - vm_compute; reflexivity.
      - intros now nm Hin. apply list_elem_of_In in Hin. simpl in Hin.
        intuition discriminate. }
    destruct (get_task_status "t1" (after (finished ++ later))); [|done].
    by subst.
Defined.

(** C2 on a concrete run: four submissions against the ceiling of three.
    Three are RUNNING, the fourth stays PENDING; once one finishes, the
    fourth takes the slot. *)
Lemma running_never_exceeds_ceiling_witness :
  Z.of_nat (count_running (after saturated)) ≤ 3
  ∧ (∃ t', get_task_status "t4" (after (saturated ++ [Cancel "t2"])) = Some t' ∧
           (status t' = PENDING ∨
            (status t' = CANCELLED ∧
             ∃ now, Cancel "t2" = CancelWaiting (Any:=PyAny) now "t4")))
  ∧ (∃ s' t',
       fire (Acquire 9 "t4") (after (saturated ++ [Resume 8 "t1" (Return PyNone)]))
       = Some s' ∧
       get_task_status "t4" s' = Some t' ∧ status t' = RUNNING).
Proof.
  assert (Hfull : reachable 3 (after saturated))
    by (apply (after_reachable saturated); vm_compute; reflexivity).
  assert (Hfreed : reachable 3 (after (saturated ++ [Resume 8 "t1" (Return PyNone)])))
    by (apply (after_reachable (saturated ++ [Resume 8 "t1" (Return PyNone)]));
        vm_compute; reflexivity).
  destruct (running_never_exceeds_ceiling 3 _ Hfull) as (Hbound & Hwait & _).
  destruct (running_never_exceeds_ceiling 3 _ Hfreed) as (_ & _ & Hslot).
  split; [exact Hbound|]. split.
  - eapply (Hwait (Cancel "t2") _ "t4"); vm_compute; reflexivity.
  - eapply (Hslot 9 "t4"); vm_compute; reflexivity.
Defined.

(** C3 on a concrete run: the unit of work raises the HTTPException of an
    invalid repository URL. *)
Lemma unit_of_work_exception_is_recorded_not_propagated_witness :
  ∃ s' t',
    _execute_task_resume 30 "t1"
      (Raise (HTTPException 400 "Invalid Git repository URL")) (after one_running)
    = Some (None, s') ∧
    get_task_status "t1" s' = Some t' ∧ status t' = FAILED ∧
    error_message t' = Some "400: Invalid Git repository URL" ∧
    _running_tasks s' !! "t1" = None.
Proof.
  assert (Hreach : reachable 3 (after one_running))
    by (apply (after_reachable one_running); vm_compute; reflexivity).
  destruct (unit_of_work_exception_is_recorded_not_propagated 3 (after one_running)
              30 "t1" {| coro := AwaitTaskFunc; must_cancel := false |}
              (HTTPException 400 "Invalid Git repository URL") Hreach)
    as [Hcaught _]; [vm_compute; reflexivity|reflexivity|].
  exact Hcaught.
Defined.

End scenarios.

Section pipeline_scenarios.
Import Utils BatchCases UploadCases Scenario.

Lemma disk5_valid p :
  p ∈ ["src/a.py"; "src/b.js"; "docs/README.md"; "src/c.go"] → valid E0 disk5 p.
Proof.
  intros Hp. apply list_elem_of_In in Hp. simpl in Hp.
  destruct Hp as [<-|[<-|[<-|[<-|[]]]]];
    (split; [reflexivity|]);
    exists code200, [code_doc], [code_doc; code_doc];
    repeat split; try reflexivity; try done.
Qed.

(** C4 on a concrete batch: [src/broken.py] cannot be loaded. *)
Lemma batch_with_one_unreadable_file_witness :
  let paths := ["src/a.py"; "src/b.js"; "src/broken.py"; "docs/README.md"; "src/c.go"] in
  let t := DocProc.collect_results (DocProc.gather E0 disk5 paths) in
  DocProc.successful_files t = 4 ∧ DocProc.failed_files t = 1 ∧
  DocProc.all_documents t
  = flat_map (chunks_of E0 disk5)
      ["src/a.py"; "src/b.js"; "docs/README.md"; "src/c.go"] ∧
  length (DocProc.gather E0 disk5 paths) = 5%nat ∧
  ∃ r, DocProc.process_files_concurrent E0 disk5 paths = Return r ∧
       DocProc.documents_failed r = 1 ∧
       DocProc.documents_processed r = Z.of_nat (length (DocProc.all_documents t)).
Proof.
  cbv zeta.
  destruct (batch_with_one_unreadable_file E0 disk5
              ["src/a.py"; "src/b.js"] "src/broken.py"
              ["docs/README.md"; "src/c.go"])
    as (Hok & Hko & Hdocs & Hall & Hresult & _).
  - reflexivity.
  - reflexivity.
  - repeat constructor; apply disk5_valid; simpl;
      rewrite !elem_of_cons; tauto.
  - right. exists code200, (Exc Exception_ "cannot partition file").
    split; reflexivity.
  - by repeat split.
Defined.

(** C10 on a concrete path: the file is missing. *)
Lemma unprobeable_size_reported_as_limit_witness :
  DocProc._process_single_file_async E0 ∅ "src/missing.py"
  = Return (DocProc.failure "src/missing.py" "File exceeds 100MB limit").
Proof.
  apply (unprobeable_size_reported_as_limit E0 ∅ "src/missing.py"
           (Exc OSError_ "[Errno 2] No such file or directory: src/missing.py"));
    reflexivity.
Defined.

(** C9, the counterexample -- with a splitter that raises an exception
    whose text is empty, the failed result carries an empty
    [error_message]. *)
Lemma process_single_file_empty_message :
  ¬ (∃ r, DocProc._process_single_file_async E_silent disk5 "src/a.py" = Return r ∧
          (DocProc.success r = false →
           ∃ m, DocProc.error_message r = Some m ∧ m ≠ EmptyString)).
Proof.
  intros (r & Hr & Hmsg).
  assert (Hrun : DocProc._process_single_file_async E_silent disk5 "src/a.py"
                 = Return (DocProc.failure "src/a.py" EmptyString))
    by (vm_compute; reflexivity).
  rewrite Hrun in Hr. injection Hr as <-.
  destruct (Hmsg eq_refl) as (m & [= <-] & Hne). done.
Qed.

(** C9, as amended, on the input of the counterexample. *)
Lemma process_single_file_total_witness :
  ∃ r, DocProc._process_single_file_async E_silent disk5 "src/a.py" = Return r ∧
       DocProc.success r = false ∧ DocProc.documents r = [] ∧
       DocProc.error_message r = Some (Py.str (Exc RuntimeError_ EmptyString)).
Proof.
  destruct (process_single_file_total E_silent disk5 "src/a.py")
    as (r & Hr & _ & _ & Hfail).
  assert (Hrun : DocProc._process_single_file_async E_silent disk5 "src/a.py"
                 = Return (DocProc.failure "src/a.py" EmptyString))
    by (vm_compute; reflexivity).
  rewrite Hrun in Hr. injection Hr as <-.
  destruct (Hfail eq_refl) as (Hdocs & _).
  eexists. split; [exact Hrun|]. by repeat split.
Defined.



(** C5 on a concrete request: an ftp URL. *)
Lemma invalid_scheme_rejected_before_any_task_witness :
  ∃ e, Endpoints.process_repository E0 "ftp://example.org/repo.git" w0
       = (Raise e, w0) ∧
       isinstance e RequestValidationError_ = true.
Proof.
  apply (invalid_scheme_rejected_before_any_task E0 "ftp://example.org/repo.git" w0).
  intros Hin. apply list_elem_of_In in Hin. vm_compute in Hin.
  intuition discriminate.
Defined.

End pipeline_scenarios.

Section scratch_scenarios.
Import Utils BatchCases UploadCases Endpoints Scenario.



End scratch_scenarios.

(** * Proofs: service statistics, cancellation and the sweep *)

Section registry_more_proofs.
Import Tasks TasksInv TaskStats.
Context {Any : Type}.
Implicit Types s : BackgroundTaskService Any.
Implicit Types t : BackgroundTask Any.

Abbreviation has_status st := (λ kv : string * BackgroundTask Any, status kv.2 = st).

(** The dictionary a record is counted into. *)
Lemma count_status_lookup t (acc : gmap TaskStatus Z) st :
  count_status t acc !! st
  = if decide (status t = st) then Some (default 0 (acc !! st) + 1) else acc !! st.
Proof.
  unfold count_status. destruct (decide (status t = st)) as [<-|Hne].
  - by rewrite lookup_insert_eq.
  - by rewrite lookup_insert_ne.
Qed.

Lemma status_counts_fold (m : gmap string (BackgroundTask Any)) st :
  map_fold (λ _ task acc, count_status task acc) ∅ m !! st
  = match size (filter (has_status st) m) with
    | O => None
    | S n => Some (Z.of_nat (S n))
    end.
Proof.
  revert st.
  apply (map_fold_weak_ind
           (λ acc m, ∀ st, acc !! st
              = match size (filter (has_status st) m) with
                | O => None
                | S n => Some (Z.of_nat (S n))
                end)).
  - intros st. by rewrite map_filter_empty, map_size_empty.
  - intros tid t m' acc Hfresh IH st. rewrite count_status_lookup.
    destruct (decide (status t = st)) as [Hst|Hst].
    + rewrite map_filter_insert_True by done.
      rewrite map_size_insert_None
        by (apply map_lookup_filter_None_2; by left).
      rewrite IH. destruct (size _); simpl; f_equal; lia.
    + rewrite map_filter_insert_not' ; [apply IH|done|].
      intros y Hy. congruence.
Qed.

(** Every record has one of the five statuses. *)
Lemma size_by_status (m : gmap string (BackgroundTask Any)) :
  (size m
   = size (filter (has_status PENDING) m) + size (filter (has_status RUNNING) m)
     + size (filter (has_status COMPLETED) m) + size (filter (has_status FAILED) m)
     + size (filter (has_status CANCELLED) m))%nat.
Proof.
  induction m as [|tid t m Hfresh IH] using map_ind.
  - by rewrite !map_filter_empty, !map_size_empty.
  - rewrite map_size_insert_None by done.
    assert (Hone : ∀ st,
      size (filter (has_status st) (<[tid := t]> m))
      = ((if decide (status t = st) then 1 else 0)
         + size (filter (has_status st) m))%nat).
    { intros st. destruct (decide (status t = st)) as [Hst|Hst].
      - rewrite map_filter_insert_True by done.
        by rewrite map_size_insert_None
          by (apply map_lookup_filter_None_2; by left).
      - rewrite map_filter_insert_not'; [done|done|].
        intros y Hy. congruence. }
    rewrite !Hone, IH. destruct (status t); simpl; lia.
Qed.

(** X1 -- [get_service_stats] counts the records by status: a status with no
    record has no entry in [status_counts], every other status has the
    number of its records; the five counts add up to [total_tasks]. *)
Theorem service_stats_status_counts s :
  (∀ st, status_counts (get_service_stats s) !! st
         = match count_with_status st s with
           | O => None
           | S n => Some (Z.of_nat (S n))
           end)
  ∧ total_tasks (get_service_stats s)
    = Z.of_nat (count_with_status PENDING s) + Z.of_nat (count_with_status RUNNING s)
      + Z.of_nat (count_with_status COMPLETED s) + Z.of_nat (count_with_status FAILED s)
      + Z.of_nat (count_with_status CANCELLED s).
Proof.
  split.
  - intros st. apply status_counts_fold.
  - unfold get_service_stats, count_with_status. simpl.
    rewrite (size_by_status (_tasks s)). lia.
Qed.

(** In a reachable state the RUNNING records are the records of the
    coroutines that hold a slot. *)
Lemma running_records_hold_slots N s :
  invariant N s →
  size (filter (has_status RUNNING) (_tasks s))
  = size (filter (λ kv : string * asyncio_Task, coro kv.2 = AwaitTaskFunc)
            (_running_tasks s)).
Proof.
  intros Hinv. rewrite <- !size_dom. f_equal. apply set_eq. intros tid.
  rewrite !elem_of_dom. split.
  - intros [t [Ht Hrun]%map_lookup_filter_Some]. simpl in Hrun.
    destruct (inv_live _ _ Hinv tid t Ht) as [a Ha]; [by rewrite Hrun|].
    exists a. apply map_lookup_filter_Some_2; [done|]. simpl.
    destruct (inv_coro _ _ Hinv _ _ Ha) as (t' & Ht' & Hfit).
    assert (t' = t) by congruence. subst t'.
    destruct (coro a); simpl in Hfit; congruence.
  - intros [a [Ha Hco]%map_lookup_filter_Some]. simpl in Hco.
    destruct (inv_coro _ _ Hinv _ _ Ha) as (t & Ht & Hfit).
    rewrite Hco in Hfit. exists t. by apply map_lookup_filter_Some_2.
Qed.

(** X2 -- In a reachable state of a service with ceiling [N] in which no
    coroutine is waiting for a slot, [get_service_stats] reports
    [available_slots] as [N] less the number of RUNNING records, a number
    between 0 and [N]; its [max_concurrent] is [N] plus the number of
    registered coroutines that hold no slot (not started yet, or cancelled
    before they started), so it is the ceiling only while every registered
    coroutine is running its unit of work.  While a coroutine waits for a
    slot the counter of the semaphore depends on how [asyncio] hands a
    released slot over, and nothing is stated. *)
Theorem service_stats_slots N s :
  reachable N s → no_waiter s →
  available_slots (get_service_stats s)
  = N - Z.of_nat (count_with_status RUNNING s)
  ∧ 0 ≤ available_slots (get_service_stats s) ≤ N
  ∧ max_concurrent (get_service_stats s) = N + Z.of_nat (count_without_slot s)
  ∧ count_without_slot s
    = size (filter (λ kv, coro kv.2 = Created ∨ coro kv.2 = Done)
              (_running_tasks s)).
Proof.
  intros Hs Hquiet. pose proof (reachable_invariant _ _ Hs) as Hinv.
  pose proof (inv_slots _ _ Hinv) as Hslots.
  pose proof (inv_sem _ _ Hinv) as Hsem.
  pose proof (running_records_hold_slots N s Hinv) as Hheld.
  unfold count_running in Hslots. unfold count_with_status, count_without_slot.
  simpl. split; [lia|]. split; [lia|].
  assert (Hsplit : size (_running_tasks s)
    = (size (filter (λ kv : string * asyncio_Task, coro kv.2 = AwaitTaskFunc)
               (_running_tasks s))
       + size (filter (λ kv : string * asyncio_Task, coro kv.2 ≠ AwaitTaskFunc)
                 (_running_tasks s)))%nat).
  { rewrite <- map_size_disj_union by apply map_disjoint_filter_complement.
    by rewrite map_filter_union_complement. }
  split; [rewrite Hsplit, <- Hheld; lia|].
  f_equal. apply map_filter_ext. intros tid a Ha. simpl.
  specialize (Hquiet tid a Ha). destruct (coro a); intuition congruence.
Qed.

End registry_more_proofs.

(** * Proofs: the records of the registry *)

Section record_proofs.
Import Tasks TasksInv TaskStats TaskRecords.
Context {Any : Type}.
Implicit Types s : BackgroundTaskService Any.
Implicit Types t : BackgroundTask Any.

Lemma set_task_lookup k f s tid :
  _tasks (set_task k f s) !! tid
  = if decide (k = tid) then f <$> (_tasks s !! tid) else _tasks s !! tid.
Proof.
  unfold set_task. destruct (decide (k = tid)) as [<-|Hne].
  - destruct (_tasks s !! k) eqn:Hk; simpl; [|by rewrite Hk].
    by rewrite lookup_insert_eq.
  - destruct (_tasks s !! k); simpl; [|done]. by rewrite lookup_insert_ne.
Qed.

(** How one event changes the record stored under [tid]: not at all, or
    in one of the five ways the code has. *)
Lemma fire_record N s e s' tid :
  invariant N s → fire e s = Some s' →
  _tasks s' !! tid = _tasks s !! tid
  ∨ (∃ now nm, e = Create now tid nm ∧ _tasks s !! tid = None ∧
               _tasks s' !! tid = Some (new_record now tid nm))
  ∨ (∃ now t, e = Acquire now tid ∧ _tasks s !! tid = Some t ∧
              status t = PENDING ∧
              _tasks s' !! tid = Some (mark_running now t))
  ∨ (∃ now w t, e = Resume now tid w ∧ _tasks s !! tid = Some t ∧
                status t = RUNNING ∧
                _tasks s' !! tid = Some (finish now w t))
  ∨ (∃ now t, e = CancelWaiting now tid ∧ _tasks s !! tid = Some t ∧
              status t = PENDING ∧
              _tasks s' !! tid = Some (mark_cancelled now t))
  ∨ (∃ now t, e = Cleanup now ∧ _tasks s !! tid = Some t ∧
              expired now (_cleanup_interval s) t = true ∧
              _tasks s' !! tid = None).
Proof.
  intros Hinv Hfire.
  destruct e as [now uuid nm|k|now k|now k w|now k|k|now|k]; simpl in Hfire.
  - case_bool_decide as Hfresh; [|done]. destruct Hfresh as [Hfresh _].
    injection Hfire as <-. simpl.
    destruct (decide (uuid = tid)) as [->|Hne].
    + right. left. exists now, nm. by rewrite lookup_insert_eq.
    + left. by rewrite lookup_insert_ne.
  - left. unfold _execute_task_start in Hfire.
    destruct (_running_tasks s !! k); [|done]. case_bool_decide; [|done].
    by destruct (must_cancel _); injection Hfire as <-.
  - unfold _execute_task_acquire in Hfire.
    destruct (_running_tasks s !! k) as [a|] eqn:Ha; [|done].
    destruct (bool_decide (coro a = AwaitSemaphore)) eqn:Hcr; [|done].
    destruct (0 <? _semaphore s); [|done]. simpl in Hfire.
    apply bool_decide_eq_true in Hcr.
    destruct (inv_coro _ _ Hinv _ _ Ha) as (t & Ht & Hfit).
    rewrite Hcr in Hfit. simpl in Hfit.
    injection Hfire as <-. cbn [_tasks set_coro]. rewrite set_task_lookup.
    destruct (decide (k = tid)) as [->|Hne]; [|by left].
    right. right. left. exists now, t. simpl. by rewrite Ht.
  - unfold _execute_task_resume in Hfire.
    destruct (_running_tasks s !! k) as [a|] eqn:Ha; [|done].
    case_bool_decide as Hcr; [|done].
    destruct (inv_coro _ _ Hinv _ _ Ha) as (t & Ht & Hfit).
    rewrite Hcr in Hfit. simpl in Hfit.
    assert (Hs' : _tasks s' !! tid
                  = if decide (k = tid) then finish now w <$> (_tasks s !! tid)
                    else _tasks s !! tid).
    { destruct w as [r|x|]; simpl in Hfire; injection Hfire as <-;
        cbn [_tasks finally_ release set_semaphore];
        rewrite set_task_lookup; by destruct (decide (k = tid)). }
    rewrite Hs'. destruct (decide (k = tid)) as [->|Hne]; [|by left].
    right. right. right. left. exists now, w, t. by rewrite Ht.
  - unfold _execute_task_cancelled_waiting in Hfire.
    destruct (_running_tasks s !! k) as [a|] eqn:Ha; [|done].
    destruct (bool_decide (coro a = AwaitSemaphore)) eqn:Hcr; [|done].
    destruct (must_cancel a); [|done]. simpl in Hfire.
    apply bool_decide_eq_true in Hcr.
    destruct (inv_coro _ _ Hinv _ _ Ha) as (t & Ht & Hfit).
    rewrite Hcr in Hfit. simpl in Hfit.
    injection Hfire as <-. cbn [_tasks finally_]. rewrite set_task_lookup.
    destruct (decide (k = tid)) as [->|Hne]; [|by left].
    do 4 right. left. exists now, t. by rewrite Ht.
  - left. injection Hfire as <-. unfold cancel_task.
    destruct (_running_tasks s !! k); [|done]. by destruct (negb _).
  - injection Hfire as <-. simpl.
    destruct (_tasks s !! tid) as [t|] eqn:Ht.
    + destruct (expired now (_cleanup_interval s) t) eqn:Hexp.
      * do 5 right. exists now, t. repeat split; try done.
        apply map_lookup_filter_None_2. right. intros x Hx. simpl. congruence.
      * left. by apply map_lookup_filter_Some_2.
    + left. apply map_lookup_filter_None_2. by left.
  - left. by injection Hfire as <-.
Qed.

Lemma fields_fit_fire N s e s' :
  invariant N s → fire e s = Some s' →
  (∀ tid t, _tasks s !! tid = Some t → fields_fit tid t) →
  ∀ tid t, _tasks s' !! tid = Some t → fields_fit tid t.
Proof.
  intros Hinv Hfire Hold tid t' Ht'.
  destruct (fire_record N s e s' tid Hinv Hfire)
    as [Heq|[(now & nm & _ & _ & Hnew)|[(now & t & _ & Ht & Hst & Hnew)
       |[(now & w & t & _ & Ht & Hst & Hnew)|[(now & t & _ & Ht & Hst & Hnew)
       |(now & t & _ & _ & _ & Hnew)]]]]].
  - apply Hold. by rewrite <- Heq.
  - rewrite Hnew in Ht'. injection Ht' as <-. unfold fields_fit. simpl.
    repeat split; try done; try by intros [? ?].
    by intros [|].
  - rewrite Hnew in Ht'. injection Ht' as <-.
    destruct (Hold _ _ Ht) as (Hid & Hmeta & Hp & Hr & Hcf & Hres & Herr & Hprog).
    rewrite Hst in *. unfold fields_fit. simpl.
    repeat split; try done; try by eauto.
    all: try (intros _; by apply Hres).
    intros Hsome. apply Herr in Hsome. done.
  - rewrite Hnew in Ht'. injection Ht' as <-.
    destruct (Hold _ _ Ht) as (Hid & Hmeta & Hp & Hr & Hcf & Hres & Herr & Hprog).
    rewrite Hst in *. specialize (Hr eq_refl).
    assert (Hnores : result t = None) by (by apply Hres).
    assert (Hnoerr : error_message t = None).
    { destruct (error_message t) eqn:Hx; [|done].
      assert (RUNNING = FAILED) by (apply Herr; eauto). done. }
    unfold fields_fit. destruct w as [r|x|]; simpl;
      rewrite ?Hnores, ?Hnoerr; repeat split; try done; eauto;
      by intros [? ?].
  - rewrite Hnew in Ht'. injection Ht' as <-.
    destruct (Hold _ _ Ht) as (Hid & Hmeta & Hp & Hr & Hcf & Hres & Herr & Hprog).
    rewrite Hst in *.
    assert (Hnores : result t = None) by (by apply Hres).
    assert (Hnoerr : error_message t = None).
    { destruct (error_message t) eqn:Hx; [|done].
      assert (PENDING = FAILED) by (apply Herr; eauto). done. }
    unfold fields_fit. simpl. rewrite ?Hnores, ?Hnoerr.
    repeat split; try done; try by intros [? ?]. by intros [|].
  - congruence.
Qed.

(** X3 -- In every reachable state each record is stored under its own
    identifier, and its fields follow its status: [started_at] is unset
    while PENDING and set once RUNNING, COMPLETED or FAILED; [result] is
    None on every record that is not COMPLETED (a COMPLETED record holds
    what the unit of work returned, which may be None as well);
    [error_message] is set exactly on FAILED records; [progress] is 100 on
    COMPLETED records and 0 on all others; [metadata] stays empty. *)
Theorem record_fields_follow_status N s tid t :
  reachable N s → get_task_status tid s = Some t → fields_fit tid t.
Proof.
  intros Hs. revert tid t. unfold get_task_status.
  induction Hs as [s0 Hinit|s e s' Hs IH Hfire].
  - unfold __init__ in Hinit. destruct (N <? 0); [done|].
    injection Hinit as <-. intros tid t. simpl. by rewrite lookup_empty.
  - eapply fields_fit_fire; eauto. by apply reachable_invariant.
Qed.

End record_proofs.

(** * Proofs: cancellation and the sweep *)

Section cancel_proofs.
Import Tasks TasksInv TaskStats TaskRecords.
Context {Any : Type}.
Implicit Types s : BackgroundTaskService Any.
Implicit Types t : BackgroundTask Any.

(** A record that is gone or terminal has no coroutine handle. *)
Lemma finished_no_handle N s tid :
  invariant N s →
  (_tasks s !! tid = None ∨
   ∃ t, _tasks s !! tid = Some t ∧ terminal (status t) = true) →
  _running_tasks s !! tid = None.
Proof.
  intros Hinv Hrec.
  destruct (_running_tasks s !! tid) as [a|] eqn:Ha; [|done].
  destruct (inv_coro _ _ Hinv _ _ Ha) as (t0 & Ht0 & Hfit).
  apply coherent_not_terminal in Hfit.
  destruct Hrec as [?|(t & ? & ?)]; congruence.
Qed.

(** X4 -- [cancel_task] on an identifier the registry does not know, or on
    a task that has ended (COMPLETED, FAILED or CANCELLED), returns False
    and leaves the service as it is. *)
Theorem cancel_task_of_finished_task N s tid :
  reachable N s →
  (get_task_status tid s = None ∨
   ∃ t, get_task_status tid s = Some t ∧ status t ∈ [COMPLETED; FAILED; CANCELLED]) →
  cancel_task tid s = (false, s).
Proof.
  intros Hs Hrec. pose proof (reachable_invariant _ _ Hs) as Hinv.
  unfold cancel_task. rewrite (finished_no_handle N s tid Hinv); [done|].
  destruct Hrec as [?|(t & Ht & Hst)]; [by left|]. right. exists t.
  split; [done|]. rewrite !elem_of_cons in Hst.
  destruct Hst as [->|[->|[->|Hst]]]; try done. by apply elem_of_nil in Hst.
Qed.

(** X5 -- [cancel_task] on a task that runs its unit of work returns True
    and only requests the cancellation: the record is still RUNNING.  When
    the CancelledError is then delivered to the awaiting coroutine, nothing
    escapes it, the record is CANCELLED with [completed_at] set, the slot
    is given back and the handle is dropped. *)
Theorem cancel_task_of_running_task N s tid a now :
  reachable N s →
  _running_tasks s !! tid = Some a → coro a = AwaitTaskFunc →
  ∃ t s1 s2,
    get_task_status tid s = Some t ∧ status t = RUNNING ∧
    cancel_task tid s = (true, s1) ∧
    get_task_status tid s1 = Some t ∧ _semaphore s1 = _semaphore s ∧
    _execute_task_resume now tid Cancelled s1 = Some (None, s2) ∧
    get_task_status tid s2 = Some (mark_cancelled now t) ∧
    _semaphore s2 = _semaphore s + 1 ∧
    _running_tasks s2 !! tid = None ∧
    Z.of_nat (count_running s2) = Z.of_nat (count_running s) - 1.
Proof.
  intros Hs Ha Hco. pose proof (reachable_invariant _ _ Hs) as Hinv.
  destruct (inv_coro _ _ Hinv _ _ Ha) as (t & Ht & Hfit).
  rewrite Hco in Hfit. simpl in Hfit.
  exists t. eexists. eexists. split; [done|]. split; [done|].
  unfold cancel_task. rewrite Ha. unfold done.
  rewrite bool_decide_eq_false_2 by (rewrite Hco; done). cbn [negb].
  split; [reflexivity|]. split; [done|]. split; [done|].
  unfold _execute_task_resume. cbn [_running_tasks set_coro].
  rewrite lookup_insert_eq. cbn [coro].
  rewrite bool_decide_eq_true_2 by done.
  split; [reflexivity|].
  unfold get_task_status. cbn [_tasks finally_ _running_tasks _semaphore].
  rewrite set_task_lookup. rewrite decide_True by done.
  cbn [_tasks release set_semaphore set_coro _semaphore]. rewrite Ht.
  split; [done|]. unfold set_task. cbn [_tasks release set_semaphore set_coro].
  rewrite Ht. cbn [_semaphore _running_tasks]. split; [done|].
  split; [by rewrite lookup_delete_eq|].
  unfold count_running. cbn [_tasks finally_].
  pose proof (running_insert (_tasks s) tid t (mark_cancelled now t) Ht) as Hcount.
  unfold slot in Hcount. simpl in Hcount. rewrite Hfit in Hcount.
  rewrite decide_True in Hcount by done. lia.
Qed.

(** One event leaves a task that was cancelled before it started as it is. *)
Lemma fire_cancelled_unstarted N s e s' tid a t :
  invariant N s → fire e s = Some s' →
  _running_tasks s !! tid = Some a → coro a = Done →
  _tasks s !! tid = Some t →
  _running_tasks s' !! tid = Some a ∧ _tasks s' !! tid = Some t.
Proof.
  intros Hinv Hfire Ha Hco Ht.
  destruct (inv_coro _ _ Hinv _ _ Ha) as (t0 & Ht0 & Hfit).
  rewrite Hco in Hfit. simpl in Hfit.
  assert (t0 = t) by congruence. subst t0.
  split.
  - destruct e as [now uuid nm|k|now k|now k w|now k|k|now|k]; simpl in Hfire.
    + case_bool_decide as Hfresh; [|done]. destruct Hfresh as [_ Hfresh].
      injection Hfire as <-. simpl.
      rewrite lookup_insert_ne; [done|]. intros ->. congruence.
    + unfold _execute_task_start in Hfire.
      destruct (_running_tasks s !! k) as [b|] eqn:Hb; [|done].
      case_bool_decide as Hcr; [|done].
      assert (k ≠ tid) by (intros ->; congruence).
      destruct (must_cancel b); injection Hfire as <-; simpl;
        by rewrite lookup_insert_ne.
    + unfold _execute_task_acquire in Hfire.
      destruct (_running_tasks s !! k) as [b|] eqn:Hb; [|done].
      destruct (bool_decide (coro b = AwaitSemaphore)) eqn:Hcr; [|done].
      apply bool_decide_eq_true in Hcr.
      assert (k ≠ tid) by (intros ->; congruence).
      destruct (0 <? _semaphore s); [|done]. injection Hfire as <-. simpl.
      rewrite lookup_insert_ne by done.
      unfold set_task. simpl. by destruct (_tasks s !! k).
    + unfold _execute_task_resume in Hfire.
      destruct (_running_tasks s !! k) as [b|] eqn:Hb; [|done].
      case_bool_decide as Hcr; [|done].
      assert (k ≠ tid) by (intros ->; congruence).
      destruct w as [r|x|]; simpl in Hfire; injection Hfire as <-; simpl;
        rewrite lookup_delete_ne by done;
        unfold set_task; simpl; by destruct (_tasks s !! k).
    + unfold _execute_task_cancelled_waiting in Hfire.
      destruct (_running_tasks s !! k) as [b|] eqn:Hb; [|done].
      destruct (bool_decide (coro b = AwaitSemaphore)) eqn:Hcr; [|done].
      apply bool_decide_eq_true in Hcr.
      assert (k ≠ tid) by (intros ->; congruence).
      destruct (must_cancel b); [|done]. injection Hfire as <-. simpl.
      rewrite lookup_delete_ne by done.
      unfold set_task. by destruct (_tasks s !! k).
    + injection Hfire as <-. unfold cancel_task.
      destruct (_running_tasks s !! k) as [b|] eqn:Hb; [|done].
      destruct (decide (k = tid)) as [->|Hne].
      * assert (b = a) by congruence. subst b. unfold done.
        by rewrite bool_decide_eq_true_2.
      * destruct (negb (done b)); [|done]. simpl. by rewrite lookup_insert_ne.
    + by injection Hfire as <-.
    + by injection Hfire as <-.
  - destruct (fire_record N s e s' tid Hinv Hfire)
      as [Heq|[(now & nm & _ & Hnone & _)|[(now & t1 & -> & _)
         |[(now & w & t1 & -> & _)|[(now & t1 & -> & _)
         |(now & t1 & _ & Ht1 & Hexp & _)]]]]].
    + by rewrite Heq.
    + congruence.
    + simpl in Hfire. unfold _execute_task_acquire in Hfire. rewrite Ha in Hfire.
      by rewrite Hco in Hfire.
    + simpl in Hfire. unfold _execute_task_resume in Hfire. rewrite Ha in Hfire.
      by rewrite Hco in Hfire.
    + simpl in Hfire. unfold _execute_task_cancelled_waiting in Hfire.
      rewrite Ha in Hfire. by rewrite Hco in Hfire.
    + assert (t1 = t) by congruence. subst t1. unfold expired in Hexp.
      by rewrite Hfit in Hexp.
Qed.

(** X6 -- A task whose cancellation was requested before its coroutine
    first ran never starts: the coroutine ends without entering its body,
    so neither a handler nor the [finally] clause runs.  From then on, and
    whatever happens in the registry, its record stays PENDING with no
    [completed_at], its handle stays in [_running_tasks], the sweep never
    removes it and [cancel_task] returns False for it. *)
Theorem task_cancelled_before_start_stays_pending N s tid a evs s' :
  reachable N s →
  _running_tasks s !! tid = Some a → coro a = Done →
  run evs s = Some s' →
  ∃ t, get_task_status tid s = Some t ∧
       get_task_status tid s' = Some t ∧
       status t = PENDING ∧ completed_at t = None ∧
       _running_tasks s' !! tid = Some a ∧
       (cancel_task tid s').1 = false.
Proof.
  intros Hs Ha Hco Hrun. pose proof (reachable_invariant _ _ Hs) as Hinv.
  destruct (inv_coro _ _ Hinv _ _ Ha) as (t & Ht & Hfit).
  rewrite Hco in Hfit. simpl in Hfit.
  exists t. split; [done|].
  assert (Hkeep : _running_tasks s' !! tid = Some a ∧ _tasks s' !! tid = Some t).
  { clear Hinv. revert s Hs Ha Ht Hrun.
    induction evs as [|e evs IH]; simpl; intros s Hs Ha Ht Hrun.
    - by injection Hrun as <-.
    - destruct (fire e s) as [s1|] eqn:He; [|done].
      destruct (fire_cancelled_unstarted N s e s1 tid a t) as [Ha1 Ht1];
        try done; [by apply reachable_invariant|].
      apply (IH s1); try done. by eapply reachable_fire. }
  destruct Hkeep as [Ha' Ht']. split; [done|]. split; [done|]. split.
  - pose proof (inv_completed _ _ Hinv _ _ Ht) as Hdone.
    rewrite Hfit in Hdone. simpl in Hdone.
    destruct (completed_at t) eqn:Hc; [|done].
    assert (false = true) by (apply Hdone; eauto). done.
  - split; [done|]. unfold cancel_task. rewrite Ha'. unfold done.
    by rewrite bool_decide_eq_true_2.
Qed.

(** The sweep interval is the constant [__init__] sets. *)
Lemma reachable_cleanup_interval N s : reachable N s → _cleanup_interval s = 3600.
Proof.
  induction 1 as [s0 Hinit|s e s' Hs IH Hfire].
  - unfold __init__ in Hinit. destruct (N <? 0); [done|]. by injection Hinit as <-.
  - rewrite <- IH.
    destruct e as [now uuid nm|k|now k|now k w|now k|k|now|k]; simpl in Hfire.
    + case_bool_decide; [|done]. by injection Hfire as <-.
    + unfold _execute_task_start in Hfire.
      destruct (_running_tasks s !! k); [|done]. case_bool_decide; [|done].
      by destruct (must_cancel _); injection Hfire as <-.
    + unfold _execute_task_acquire in Hfire.
      destruct (_running_tasks s !! k); [|done].
      destruct (_ && _); [|done]. injection Hfire as <-. simpl.
      unfold set_task. simpl. by destruct (_tasks s !! k).
    + unfold _execute_task_resume in Hfire.
      destruct (_running_tasks s !! k); [|done]. case_bool_decide; [|done].
      destruct w as [r|x|]; simpl in Hfire; injection Hfire as <-; simpl;
        unfold set_task; simpl; by destruct (_tasks s !! k).
    + unfold _execute_task_cancelled_waiting in Hfire.
      destruct (_running_tasks s !! k); [|done].
      destruct (_ && _); [|done]. injection Hfire as <-. simpl.
      unfold set_task. by destruct (_tasks s !! k).
    + injection Hfire as <-. unfold cancel_task.
      destruct (_running_tasks s !! k); [|done]. by destruct (negb _).
    + by injection Hfire as <-.
    + by injection Hfire as <-.
Qed.

(** X7 -- [cleanup_completed_tasks] returns the number of records it
    removed.  In a reachable state it removes exactly the records whose
    [completed_at] lies more than 3600 seconds before [now] (a record that
    ended exactly 3600 seconds ago stays), it leaves every other record,
    the handles and the semaphore untouched, and a second sweep at the same
    instant removes nothing. *)
Theorem cleanup_completed_tasks_removes_old_finished N s now :
  reachable N s →
  let n := (cleanup_completed_tasks now s).1 in
  let s' := (cleanup_completed_tasks now s).2 in
  n + Z.of_nat (size (_tasks s')) = Z.of_nat (size (_tasks s))
  ∧ (∀ tid t, get_task_status tid s = Some t →
       get_task_status tid s'
       = match completed_at t with
         | Some c => if 3600 * 1000000 <? now - c then None else Some t
         | None => Some t
         end)
  ∧ (∀ tid, get_task_status tid s = None → get_task_status tid s' = None)
  ∧ _running_tasks s' = _running_tasks s ∧ _semaphore s' = _semaphore s
  ∧ cleanup_completed_tasks now s' = (0, s').
Proof.
  intros Hs n s'. pose proof (reachable_invariant _ _ Hs) as Hinv.
  pose proof (reachable_cleanup_interval _ _ Hs) as Hint.
  subst n s'. unfold get_task_status. cbn [fst snd cleanup_completed_tasks _tasks
    _running_tasks _semaphore _cleanup_interval].
  rewrite Hint.
  set (old := λ kv : string * BackgroundTask Any, expired now 3600 kv.2 = true).
  set (young := λ kv : string * BackgroundTask Any, expired now 3600 kv.2 = false).
  split; [|split; [|split; [|split; [done|split; [done|]]]]].
  - assert (Hyoung : filter young (_tasks s)
                     = filter (λ kv, ¬ old kv) (_tasks s)).
    { apply map_filter_ext. intros k x _. unfold old, young. simpl.
      by destruct (expired now 3600 x). }
    rewrite Hyoung.
    rewrite <- (map_filter_union_complement old (_tasks s)) at 3.
    rewrite map_size_disj_union by apply map_disjoint_filter_complement. lia.
  - intros tid t Ht.
    pose proof (inv_completed _ _ Hinv _ _ Ht) as Hdone.
    assert (Hexp : expired now 3600 t
                   = match completed_at t with
                     | Some c => 3600 * 1000000 <? now - c
                     | None => false
                     end).
    { unfold expired. destruct (completed_at t) as [c|] eqn:Hc.
      - assert (terminal (status t) = true) as -> by (apply Hdone; eauto). done.
      - by rewrite andb_false_r. }
    destruct (expired now 3600 t) eqn:Hx.
    + rewrite map_lookup_filter_None_2.
      * destruct (completed_at t); [by rewrite <- Hexp|done].
      * right. intros x Hx'. unfold young. simpl. congruence.
    + rewrite (map_lookup_filter_Some_2 young _ tid t Ht Hx).
      destruct (completed_at t); [by rewrite <- Hexp|done].
  - intros tid Hnone. apply map_lookup_filter_None_2. by left.
  - assert (Hnone : filter old (filter young (_tasks s)) = ∅).
    { apply map_empty. intros k. apply map_lookup_filter_None_2.
      destruct (filter young (_tasks s) !! k) as [x|] eqn:Hk; [|by left].
      right. intros y [= <-]. apply map_lookup_filter_Some in Hk as [_ Hy].
      unfold old, young in *. simpl in *. congruence. }
    assert (Hall : filter young (filter young (_tasks s)) = filter young (_tasks s)).
    { rewrite map_filter_filter. apply map_filter_ext. intros; tauto. }
    unfold cleanup_completed_tasks. cbn [_tasks _running_tasks _semaphore
      _cleanup_interval]. fold old young.
    by rewrite Hnone, Hall, map_size_empty.
Qed.

(** X8 -- In a reachable state [get_all_tasks(include_completed=False)]
    returns exactly the records that have no [completed_at]: the PENDING and
    RUNNING ones.  Each of them still has its coroutine handle in
    [_running_tasks]; the records it leaves out have none. *)
Theorem get_all_tasks_without_completed N s tid :
  reachable N s →
  get_all_tasks false s !! tid
  = match get_task_status tid s with
    | Some t => if decide (completed_at t = None) then Some t else None
    | None => None
    end
  ∧ (∀ t, get_all_tasks false s !! tid = Some t →
          (status t = PENDING ∨ status t = RUNNING) ∧
          is_Some (_running_tasks s !! tid))
  ∧ (get_all_tasks false s !! tid = None → _running_tasks s !! tid = None).
Proof.
  intros Hs. pose proof (reachable_invariant _ _ Hs) as Hinv.
  unfold get_all_tasks, get_task_status.
  assert (Hlook : filter (λ kv : string * BackgroundTask Any,
                            terminal (status kv.2) = false) (_tasks s) !! tid
                  = match _tasks s !! tid with
                    | Some t => if decide (completed_at t = None) then Some t else None
                    | None => None
                    end).
  { destruct (_tasks s !! tid) as [t|] eqn:Ht.
    - pose proof (inv_completed _ _ Hinv _ _ Ht) as Hdone.
      destruct (decide (completed_at t = None)) as [Hc|Hc].
      + apply map_lookup_filter_Some_2; [done|]. simpl.
        destruct (terminal (status t)); [|done].
        destruct Hdone as [_ Hd]. specialize (Hd eq_refl).
        rewrite Hc in Hd. by destruct Hd.
      + apply map_lookup_filter_None_2. right. intros x Hx. simpl.
        assert (x = t) by congruence. subst x.
        assert (terminal (status t) = true) as ->; [|done].
        apply Hdone. by destruct (completed_at t); eauto.
    - apply map_lookup_filter_None_2. by left. }
  split; [exact Hlook|]. split.
  - intros t [Ht Hlive]%map_lookup_filter_Some. simpl in Hlive. split.
    + destruct (status t); simpl in Hlive; eauto; done.
    + by eapply inv_live.
  - intros Hnone. apply (finished_no_handle N s tid Hinv).
    destruct (_tasks s !! tid) as [t|] eqn:Ht; [|by left]. right. exists t.
    split; [done|].
    destruct (terminal (status t)) eqn:Hterm; [done|].
    rewrite (map_lookup_filter_Some_2 _ _ tid t Ht) in Hnone; done.
Qed.

End cancel_proofs.

(** * Proofs: the per-file processor and the batch runner *)

Section docproc_more_proofs.
Import Utils DocProc BatchCases DocProcContent.
Context (E : environment) (fs : filesystem).

Lemma has_char_split_component c sep s x :
  In x (split sep s) → has_char c x = true → has_char c s = true.
Proof.
  revert x. induction s as [|a s IH]; simpl; intros x.
  - by intros [<-|[]].
  - destruct (Ascii.eqb a sep).
    + intros [<-|Hin]; [done|]. intros Hx. rewrite (IH x Hin Hx).
      by rewrite orb_true_r.
    + pose proof (split_nonempty sep s) as Hne.
      destruct (split sep s) as [|w ws]; [done|].
      intros [<-|Hin]; simpl.
      * intros [Ha|Hw]%orb_true_iff; [by rewrite Ha|].
        rewrite (IH w); [by rewrite orb_true_r|by left|done].
      * intros Hx. rewrite (IH x); [by rewrite orb_true_r|by right|done].
Qed.

Lemma last_item_in l : l ≠ [] → In (last_item l) l.
Proof.
  intros Hne. unfold last_item.
  destruct (exists_last Hne) as (l' & x & ->). rewrite last_last.
  apply in_or_app. right. by left.
Qed.

Lemma has_char_path_name c p :
  has_char c (path_name p) = true → has_char c p = true.
Proof.
  unfold path_name. intros Hc.
  set (keep := List.filter _ _) in Hc.
  destruct keep as [|x l] eqn:Hkeep; [done|].
  assert (Hin : In (last_item (x :: l)) (x :: l)) by (by apply last_item_in).
  rewrite <- Hkeep in Hin. unfold keep in Hin.
  apply List.filter_In in Hin as [Hin _].
  rewrite <- Hkeep in Hc. by eapply has_char_split_component.
Qed.

(** A path the extension test accepts has a dot. *)
Lemma is_text_file_has_dot p : is_text_file p = true → has_char "." p = true.
Proof.
  unfold is_text_file, get_file_extension, path_suffix.
  destruct (has_char "." (path_name p)) eqn:Hdot.
  - intros _. by apply has_char_path_name.
  - by simpl.
Qed.

Lemma stamp_lookup p i c k :
  doc_metadata (stamp E p i c) !! k
  = if decide (k = "processing_timestamp") then Some (MTime (time_time E p i))
    else if decide (k = "file_type")
         then Some (MStr (if has_char "." p then last_item (split "." p)
                          else "unknown"))
    else if decide (k = "source_file") then Some (MStr p)
    else doc_metadata c !! k.
Proof.
  unfold stamp. simpl.
  destruct (decide (k = "processing_timestamp")) as [->|H1];
    [by rewrite lookup_insert_eq|rewrite lookup_insert_ne by done].
  destruct (decide (k = "file_type")) as [->|H2];
    [by rewrite lookup_insert_eq|rewrite lookup_insert_ne by done].
  destruct (decide (k = "source_file")) as [->|H3];
    [by rewrite lookup_insert_eq|by rewrite lookup_insert_ne].
Qed.

(** A successful result comes from a valid file only. *)
Lemma success_only_if_valid p r :
  _process_single_file_async E fs p = Return r → success r = true →
  valid E fs p.
Proof.
  unfold _process_single_file_async, valid.
  destruct (is_text_file p); cbn [negb try_except]; [|by intros [= <-]].
  unfold validate_file_size, os_path_getsize, _load_document.
  destruct (fs !! p) as [[content|]|] eqn:Hfile;
    cbn [try_except mbind outcome_bind Py.bind negb];
    [| |by intros [= <-]].
  - destruct (stat_fault E p) as [x|] eqn:Hstat.
    { destruct (isinstance x OSError_); simpl; by intros [= <-]. }
    cbn [mbind outcome_bind Py.bind].
    destruct (_ <=? _) eqn:Hsize; cbn [negb]; [|by intros [= <-]].
    apply Z.leb_le in Hsize.
    destruct (loader_load E p content) as [x|docs] eqn:Hload;
      [by intros [= <-]|].
    destruct docs as [|d docs]; [by intros [= <-]|].
    destruct (_create_text_splitter E p (d :: docs)) as [x|chunks] eqn:Hsplit;
      simpl; [by intros [= <-]|].
    intros _ _. split; [done|]. exists content, (d :: docs), chunks.
    by repeat split.
  - destruct (stat_fault E p) as [x|].
    { destruct (isinstance x OSError_); simpl; by intros [= <-]. }
    cbn [mbind outcome_bind Py.bind].
    destruct (_ <=? _); cbn [negb]; by intros [= <-].
Qed.

(** X9 -- For a path with a text extension,
    [_process_single_file_async] reports success exactly when the path
    names a regular file within the size limit whose size can be probed,
    which the loader turns into at least one document and the splitter
    splits.  The documents of the result are then the stamped chunks of
    the file.  (A path whose extension the extension test of the model
    rejects is left out: [str.lower] folds letters outside ASCII.) *)
Theorem process_succeeds_exactly_on_valid_files p :
  is_text_file p = true →
  ((∃ r, _process_single_file_async E fs p = Return r ∧ success r = true)
   ↔ ∃ content docs chunks,
       fs !! p = Some (File content) ∧ stat_fault E p = None ∧
       Z.of_nat (length content) ≤ max_file_size_mb (settings E) * 1024 * 1024 ∧
       loader_load E p content = inr docs ∧ docs ≠ [] ∧
       _create_text_splitter E p docs = inr chunks)
  ∧ (∀ r, _process_single_file_async E fs p = Return r → success r = true →
          documents r = chunks_of E fs p ∧ error_message r = None).
Proof.
  intros Htext.
  assert (Hvalid : valid E fs p ↔ ∃ content docs chunks,
       fs !! p = Some (File content) ∧ stat_fault E p = None ∧
       Z.of_nat (length content) ≤ max_file_size_mb (settings E) * 1024 * 1024 ∧
       loader_load E p content = inr docs ∧ docs ≠ [] ∧
       _create_text_splitter E p docs = inr chunks)
    by (unfold valid; tauto).
  rewrite <- Hvalid. clear Hvalid.
  split; [split|].
  - intros (r & Hr & Hok). by eapply success_only_if_valid.
  - intros Hv. eexists. split; [by apply process_valid|done].
  - intros r Hr Hok.
    rewrite (process_valid E fs p (success_only_if_valid p r Hr Hok)) in Hr.
    by injection Hr as <-.
Qed.

(** X10 -- Every chunk of a successfully processed file carries the text
    the splitter produced and, in its metadata, the path of the file under
    [source_file], the text after the last dot of the path under
    [file_type] (never the fallback [unknown]) and the clock reading under
    [processing_timestamp]; every other metadata key is as the splitter
    left it.  There are as many documents as chunks. *)
Theorem chunks_carry_their_source p r :
  _process_single_file_async E fs p = Return r → success r = true →
  ∃ chunks,
    _create_text_splitter E p (_load_document E fs p) = inr chunks ∧
    length (documents r) = length chunks ∧
    ∀ i d, documents r !! i = Some d →
      ∃ c, chunks !! i = Some c ∧ page_content d = page_content c ∧
        doc_metadata d !! "source_file" = Some (MStr p) ∧
        doc_metadata d !! "file_type" = Some (MStr (last_item (split "." p))) ∧
        doc_metadata d !! "processing_timestamp" = Some (MTime (time_time E p i)) ∧
        ∀ k, k ∉ ["source_file"; "file_type"; "processing_timestamp"] →
             doc_metadata d !! k = doc_metadata c !! k.
Proof.
  intros Hr Hok.
  pose proof (success_only_if_valid p r Hr Hok) as Hv.
  pose proof (process_valid E fs p Hv) as Hrun.
  destruct Hv
    as (Htext & content & docs & chunks & Hfile & Hstat & Hsize & Hload & Hne & Hsplit).
  rewrite Hrun in Hr. injection Hr as <-. simpl.
  exists chunks. unfold _load_document. rewrite Hfile, Hload.
  split; [done|]. unfold chunks_of. rewrite Hfile, Hload, Hsplit.
  split; [apply length_imap|].
  intros i d Hd. rewrite list_lookup_imap in Hd.
  destruct (chunks !! i) as [c|] eqn:Hc; [|done]. injection Hd as <-.
  exists c. split; [done|]. split; [done|].
  split; [by rewrite stamp_lookup|]. split.
  { rewrite stamp_lookup. simpl. by rewrite (is_text_file_has_dot p Htext). }
  split; [by rewrite stamp_lookup|].
  intros k Hk. rewrite !elem_of_cons in Hk.
  rewrite stamp_lookup.
  repeat (destruct (decide _) as [->|?]; [exfalso; apply Hk; tauto|]). done.
Qed.

(** Without a successful file there is no document. *)
Lemma no_success_no_documents (results : list (outcome FileProcessingResult)) :
  List.filter entry_ok results = [] →
  concat (List.map entry_documents results) = [].
Proof.
  induction results as [|o results IH]; [done|]. simpl.
  destruct (entry_ok o) eqn:Hok; [done|]. intros Hrest.
  rewrite (IH Hrest), app_nil_r. unfold entry_ok in Hok.
  destruct o as [r| |]; simpl; [|done..]. by rewrite Hok.
Qed.

(** X11 -- What [process_files_concurrent] reports for a batch.  The two
    counters come from the collection loop alone and do not depend on the
    vector store.  [success] is true exactly when at least one file
    succeeded and the store took the chunks (or there were none to store);
    an [error_message] is set exactly when the store refused the chunks.
    So a batch in which every file failed has [success] false, no
    [error_message] and nothing processed. *)
Theorem batch_result_flags paths :
  paths ≠ [] → 0 < max_concurrent_files (settings E) →
  let t := collect_results (gather E fs paths) in
  let stored := all_documents t = [] ∨
                ∃ u, chroma_from_documents E (all_documents t) = inr u in
  ∃ r, process_files_concurrent E fs paths = Return r ∧
    documents_processed r = Z.of_nat (length (all_documents t)) ∧
    documents_failed r = failed_files t ∧
    (pr_success r = true ↔ 0 < successful_files t ∧ stored) ∧
    (pr_error_message r = None ↔ stored) ∧
    (pr_error_message r = None ∨
     pr_error_message r = Some "Failed to store documents in vector database") ∧
    (successful_files t = 0 →
       pr_success r = false ∧ pr_error_message r = None ∧
       documents_processed r = 0 ∧
       documents_failed r = Z.of_nat (length paths)).
Proof.
  intros Hne Hceil t stored. unfold process_files_concurrent.
  destruct paths as [|p0 rest]; [done|]. set (paths := p0 :: rest) in *.
  assert (Hn : (max_concurrent_files (settings E) <? 0) = false)
    by (apply Z.ltb_ge; lia).
  assert (Hz : (max_concurrent_files (settings E) =? 0) = false)
    by (apply Z.eqb_neq; lia).
  rewrite Hn, Hz. fold t. eexists. split; [reflexivity|].
  cbn [documents_processed documents_failed pr_success pr_error_message].
  split; [done|]. split; [done|].
  assert (Hstore : (match all_documents t with
                    | [] => true
                    | _ :: _ => VectorStore.store_documents E (all_documents t)
                    end) = true ↔ stored).
  { unfold stored, VectorStore.store_documents.
    destruct (all_documents t) as [|d docs]; [by split; [left|]|].
    destruct (chroma_from_documents E (d :: docs)) as [x|u].
    - split; [done|]. by intros [|[? ?]].
    - split; [|done]. intros _. right. by exists u. }
  destruct (match all_documents t with
            | [] => true
            | _ :: _ => VectorStore.store_documents E (all_documents t)
            end) eqn:Hst.
  - assert (Hs : stored) by (by apply Hstore).
    split; [|split; [done|split; [by left|]]].
    + cbn [andb]. rewrite Z.ltb_lt. tauto.
    + intros Hzero. rewrite Hzero. split; [done|]. split; [done|].
      pose proof (collect_results_counts E fs paths) as Hcount.
      cbv zeta in Hcount. fold t in Hcount.
      split; [|lia].
      unfold t, collect_results in *. rewrite collect_fold in *.
      cbn [all_documents successful_files] in *.
      rewrite no_success_no_documents; [done|].
      destruct (List.filter entry_ok (gather E fs paths)); [done|].
      simpl in Hzero. lia.
  - assert (Hs : ¬ stored) by (intros Hs; apply Hstore in Hs; done).
    split; [|split; [split; [done|by intros ?]|split; [by right|]]].
    + cbn [andb]. split; [done|]. tauto.
    + intros Hzero. exfalso. apply Hs. left.
      unfold t, collect_results in *. rewrite collect_fold in *.
      cbn [all_documents successful_files] in *.
      rewrite no_success_no_documents; [done|].
      destruct (List.filter entry_ok (gather E fs paths)); [done|].
      simpl in Hzero. lia.
Qed.

(** X12 -- [process_documents_from_content] returns a result for every list
    of documents, also when the splitter raises.  The result has [success] true exactly
    when it has no [error_message]; a successful result stored at least one
    chunk and counts no failure; a result that counts failures counts every
    document given and nothing processed. *)
Theorem process_documents_from_content_total timestamp duration docs :
  ∃ r, process_documents_from_content E timestamp duration docs = Return r ∧
    (pr_success r = true ↔ pr_error_message r = None) ∧
    (pr_success r = true →
       documents_failed r = 0 ∧ 0 < documents_processed r) ∧
    (documents_failed r ≠ 0 →
       documents_failed r = Z.of_nat (length docs) ∧ documents_processed r = 0 ∧
       ∃ e, split_documents E PYTHON (chunk_size (settings E))
              (chunk_overlap (settings E)) docs = inl e ∧
            pr_error_message r = Some (Py.str e)) ∧
    (docs = [] → pr_error_message r = Some "No documents provided" ∧
                 documents_processed r = 0 ∧ documents_failed r = 0).
Proof.
  unfold process_documents_from_content.
  destruct docs as [|d docs].
  { eexists. split; [reflexivity|]. simpl. repeat split; try done. }
  destruct (split_documents E PYTHON _ _ (d :: docs)) as [e|chunks] eqn:Hsplit;
    cbn [call mbind outcome_bind Py.bind try_except].
  - eexists. split; [reflexivity|]. simpl. repeat split; try done.
    by exists e.
  - eexists. split; [reflexivity|].
    cbn [pr_success pr_error_message documents_failed documents_processed].
    unfold VectorStore.store_documents. rewrite length_imap.
    destruct (imap (stamp_time timestamp) chunks) as [|c cs] eqn:Himap.
    + repeat split; try done.
    + assert (Hlen : (0 < length chunks)%nat).
      { rewrite <- (length_imap (stamp_time timestamp)), Himap. simpl. lia. }
      destruct (chroma_from_documents E (c :: cs)); repeat split; try done; lia.
Qed.

End docproc_more_proofs.

(** * Proofs: the file processing service *)

Section fileproc_more_proofs.
Import Utils BatchCases PipelineCases.
Context (E : environment).

Lemma startswith_append a b : startswith a (a +:+ b) = true.
Proof.
  induction a as [|x a IH]; [by destruct b|].
  rewrite append_cons. simpl. by rewrite Ascii.eqb_refl, IH.
Qed.

Lemma endswith_char_append c a b :
  is_empty b = false → endswith_char c (a +:+ b) = endswith_char c b.
Proof.
  intros Hb. induction a as [|x a IH]; [done|].
  rewrite append_cons. cbn [endswith_char]. rewrite IH.
  destruct (a +:+ b) eqn:Hab; [|done].
  destruct a; [|by rewrite append_cons in Hab].
  change (b = EmptyString) in Hab. by rewrite Hab in Hb.
Qed.

(** A sanitized name joined to a plain directory lies in its tree. *)
Lemma in_tree_join d name :
  plain_dir d → simple_name name → in_tree d (os_path_join d name) = true.
Proof.
  intros [Hne Hend] Hn. unfold in_tree, os_path_join.
  rewrite (simple_name_relative name Hn), Hne, Hend. cbn [orb].
  by rewrite <- append_assoc, startswith_append, orb_true_r.
Qed.

Lemma not_in_tree_ne d p q : in_tree d p = true → in_tree d q = false → q ≠ p.
Proof. intros Hp Hq ->. congruence. Qed.

Lemma ensure_parent_frame dest w :
  ∃ w', ensure_parent dest w = (Return tt, w') ∧ same_but_disk w w' ∧
        ∀ q n, fs w !! q = Some n → fs w' !! q = Some n.
Proof.
  unfold ensure_parent. destruct (_ && _).
  - eexists. split; [reflexivity|]. split; [done|]. simpl.
    intros q n. apply ensure_directory_keeps.
  - exists w. by repeat split.
Qed.

Lemma same_but_disk_trans w1 w2 w3 :
  same_but_disk w1 w2 → same_but_disk w2 w3 → same_but_disk w1 w3.
Proof. unfold same_but_disk. intros (?&?&?&?) (?&?&?&?). repeat split; congruence. Qed.

(** Saving one item: the path is recorded when the write goes through;
    nothing outside the directory is touched. *)
Lemma save_item_frame dir saved item w :
  ∃ w', FileProc.save_item E dir saved item w
        = (Return (saved ++ written E dir [item]), w') ∧
    same_but_disk w w' ∧
    (path_exists (fs w) dir = true → path_exists (fs w') dir = true) ∧
    (plain_dir dir →
     ∀ q n, fs w !! q = Some n → in_tree dir q = false → fs w' !! q = Some n).
Proof.
  destruct item as [name data]. unfold FileProc.save_item, written, destination.
  cbn [List.map List.filter fst].
  set (dest := os_path_join dir (safe_filename name)).
  assert (Hdest : dest ≠ dir) by apply os_path_join_not_dir, safe_filename_simple.
  destruct (ensure_parent_frame dest w) as (w1 & Hens & Hsame & Hkeep).
  unfold bindM at 1. rewrite Hens.
  assert (Hdir : ∀ disk, (∀ q n, fs w1 !! q = Some n → q ≠ dest → disk !! q = Some n) →
                 path_exists (fs w) dir = true → path_exists disk dir = true).
  { intros disk Hdisk Hex. apply bool_decide_eq_true_1 in Hex as [n Hn].
    apply bool_decide_eq_true_2. exists n. apply Hdisk; [by apply Hkeep|done]. }
  assert (Hout : plain_dir dir → ∀ q, in_tree dir q = false → q ≠ dest).
  { intros Hplain q Hq. eapply not_in_tree_ne; [|done].
    apply in_tree_join; [done|apply safe_filename_simple]. }
  unfold try_except_M, bindM, write_file.
  destruct (write_fault E dest) as [e|] eqn:Hw.
  - rewrite bool_decide_eq_false_2 by done. rewrite app_nil_r.
    eexists. split; [reflexivity|]. split; [done|]. split.
    + apply Hdir. intros q n Hq Hne. simpl. by rewrite lookup_delete_ne.
    + intros Hplain q n Hq Hqt. simpl.
      rewrite lookup_delete_ne by (apply not_eq_sym; by apply Hout).
      by apply Hkeep.
  - rewrite bool_decide_eq_true_2 by done.
    eexists. split; [reflexivity|]. split; [done|]. split.
    + apply Hdir. intros q n Hq Hne. simpl. by rewrite lookup_insert_ne.
    + intros Hplain q n Hq Hqt. simpl.
      rewrite lookup_insert_ne by (apply not_eq_sym; by apply Hout).
      by apply Hkeep.
Qed.

Lemma written_cons dir item items :
  written E dir (item :: items) = written E dir [item] ++ written E dir items.
Proof.
  unfold written. cbn [List.map List.filter].
  by destruct (bool_decide _).
Qed.

Lemma save_items_frame dir items : ∀ saved w,
  ∃ w', FileProc.save_items E dir items saved w
        = (Return (saved ++ written E dir items), w') ∧
    same_but_disk w w' ∧
    (path_exists (fs w) dir = true → path_exists (fs w') dir = true) ∧
    (plain_dir dir →
     ∀ q n, fs w !! q = Some n → in_tree dir q = false → fs w' !! q = Some n).
Proof.
  induction items as [|item items IH]; intros saved w; cbn [FileProc.save_items].
  - exists w. unfold written. simpl. rewrite app_nil_r. by repeat split.
  - destruct (save_item_frame dir saved item w) as (w1 & Hrun & Hsame & Hdir & Hout).
    destruct (IH (saved ++ written E dir [item]) w1)
      as (w2 & Hrun2 & Hsame2 & Hdir2 & Hout2).
    exists w2. unfold bindM. rewrite Hrun, Hrun2.
    rewrite (written_cons dir item items), app_assoc. split; [done|].
    split; [by eapply same_but_disk_trans|]. split; [tauto|].
    intros Hplain q n Hq Hqt. apply Hout2; [done| |done]. by apply Hout.
Qed.

(** The batch runner raises only when the semaphore cannot be built. *)
Lemma process_files_concurrent_raises disk paths e :
  DocProc.process_files_concurrent E disk paths = Raise e →
  e = Exc ValueError_ "Semaphore initial value must be >= 0".
Proof.
  unfold DocProc.process_files_concurrent. destruct paths; [done|].
  destruct (_ <? 0); [by intros [= <-]|]. by destruct (_ =? 0).
Qed.


Lemma plain_task_dir w :
  endswith_char "/" (uuid4_hex E (uuids_drawn w)) = false →
  plain_dir (task_dir E w).
Proof.
  intros Hhex. unfold plain_dir, task_dir, os_path_join.
  cbn [startswith Ascii.eqb Bool.eqb andb].
  assert (Hname : ∀ a, is_empty (a +:+ "upload_" +:+ uuid4_hex E (uuids_drawn w)) = false
                       ∧ endswith_char "/" (a +:+ "upload_" +:+ uuid4_hex E (uuids_drawn w))
                         = false).
  { intros a. split.
    - by destruct a.
    - rewrite endswith_char_append by done.
      destruct (uuid4_hex E (uuids_drawn w)) as [|c rest] eqn:Hx; [done|].
      change ("upload_" +:+ String c rest)
        with ("upload_" +:+ (String c rest)).
      by rewrite (endswith_char_append "/" "upload_" (String c rest)). }
  destruct (is_empty _ || endswith_char "/" _).
  - apply Hname.
  - rewrite <- append_assoc. apply (Hname (temp_files_dir (settings E) +:+ "/")).
Qed.

(** The run of [process_uploaded_file_bytes] up to its [finally] clause. *)
Lemma process_uploaded_file_bytes_run item items w :
  let dir := task_dir E w in
  ∃ o w3,
    FileProc.process_uploaded_file_bytes E (item :: items) w
    = (o, with_fs (cleanup_directory dir) w3) ∧
    uuids_drawn w3 = S (uuids_drawn w) ∧ registry w3 = registry w ∧
    scheduled w3 = scheduled w ∧ wall_clock w3 = wall_clock w ∧
    path_exists (fs w3) dir = true ∧
    (plain_dir dir →
     ∀ q n, fs w !! q = Some n → in_tree dir q = false → fs w3 !! q = Some n) ∧
    match written E dir (item :: items) with
    | [] => o = Raise (HTTPException 400 "No files saved for processing")
    | (_ :: _) as saved =>
        match DocProc.process_files_concurrent E (fs w3) saved with
        | Return r =>
            o = Return (FileProc.stats_of (Z.of_nat (length (item :: items))) r)
        | Raise e => o = Raise (HTTPException 500 ("Processing failed: " +:+ Py.str e))
        | Cancelled => o = Cancelled
        end
    end.
Proof.
  intros dir. unfold FileProc.process_uploaded_file_bytes.
  unfold bindM at 1. unfold draw_uuid_hex at 1. cbv beta iota.
  unfold bindM at 1. unfold on_fs at 1. cbv beta iota.
  fold (task_dir E w). fold dir.
  set (w1 := {| fs := fs w; uuids_drawn := S (uuids_drawn w);
                wall_clock := wall_clock w; registry := registry w;
                scheduled := scheduled w |}).
  set (w2 := with_fs (ensure_directory dir) w1).
  destruct (save_items_frame dir (item :: items) [] w2)
    as (w3 & Hrun & (Hu & Hc & Hr & Hs) & Hdir & Hout).
  cbn [app] in Hrun.
  unfold try_finally, try_except_M. unfold bindM at 1. rewrite Hrun.
  assert (Hex : path_exists (fs w3) dir = true).
  { apply Hdir. apply ensure_directory_exists. }
  assert (Hframe : plain_dir dir →
            ∀ q n, fs w !! q = Some n → in_tree dir q = false → fs w3 !! q = Some n).
  { intros Hplain q n Hq Hqt. apply Hout; [done| |done].
    by apply ensure_directory_keeps. }
  destruct (written E dir (item :: items)) as [|p saved].
  - unfold raise, FileProc.reraise_as_500. cbn [is_HTTPException]. unfold raise.
    eexists _, w3. split; [reflexivity|]. by repeat split.
  - unfold bindM, liftO.
    destruct (DocProc.process_files_concurrent E (fs w3) (p :: saved))
      as [r|e|] eqn:Hproc.
    + unfold ret. eexists _, w3. split; [reflexivity|]. rewrite Hproc.
      by repeat split.
    + pose proof (process_files_concurrent_raises _ _ _ Hproc) as ->.
      unfold FileProc.reraise_as_500. cbn [is_HTTPException]. unfold raise.
      eexists _, w3. split; [reflexivity|]. rewrite Hproc. by repeat split.
    + eexists _, w3. split; [reflexivity|]. rewrite Hproc. by repeat split.
Qed.

Lemma process_uploaded_file_paths_raises paths w e w' :
  FileProc.process_uploaded_file_paths E paths w = (Raise e, w') →
  http_error e [400; 500] ∧ (paths = [] → http_error e [400]).
Proof.
  unfold FileProc.process_uploaded_file_paths.
  destruct paths as [|p paths].
  { intros [= <- <-]. split; [|intros _]; eexists _, _;
      (split; [done|]); rewrite !elem_of_cons; eauto. }
  unfold try_except_M, bindM, liftO.
  destruct (DocProc.process_files_concurrent E (fs w) (p :: paths))
    as [r|x|] eqn:Hproc; [done| |done].
  rewrite (process_files_concurrent_raises _ _ _ Hproc).
  unfold FileProc.reraise_as_500. cbn [is_HTTPException]. intros [= <- <-].
  split; [|done]. eexists _, _. split; [done|]. rewrite !elem_of_cons; eauto.
Qed.

Lemma process_uploaded_file_bytes_raises items w e w' :
  FileProc.process_uploaded_file_bytes E items w = (Raise e, w') →
  http_error e [400; 500] ∧ (items = [] → http_error e [400]).
Proof.
  destruct items as [|item items].
  { intros [= <- <-]. split; [|intros _]; eexists _, _;
      (split; [done|]); rewrite !elem_of_cons; eauto. }
  destruct (process_uploaded_file_bytes_run item items w)
    as (o & w3 & Hrun & _ & _ & _ & _ & _ & _ & Hcase).
  rewrite Hrun. intros [= -> <-]. split; [|done].
  destruct (written E _ _) as [|p saved].
  - injection Hcase as ->. eexists _, _. split; [done|].
    rewrite !elem_of_cons; eauto.
  - destruct (DocProc.process_files_concurrent E (fs w3) (p :: saved));
      [done| |done].
    injection Hcase as ->. eexists _, _. split; [done|].
    rewrite !elem_of_cons; eauto.
Qed.



End fileproc_more_proofs.

(** * Proofs: the repository service *)

Section repo_more_proofs.
Import Utils Repo RepoAccess PipelineCases.
Context (E : environment).

(** X19 -- [validate_repository_access] raises no exception: short of a
    cancellation while the remote is asked, it returns a report, also when
    the remote fails.  Its [valid] flag is
    the answer of [_validate_git_url]; [accessible] is true exactly when the
    URL is valid and the remote answered, so an accessible repository is
    always reported valid; for a URL that is not valid the remote is not
    asked at all. *)
Theorem validate_repository_access_never_raises ls_remote url :
  (ls_remote url ≠ Cancelled ∨ _validate_git_url url = false →
   ∃ r, validate_repository_access ls_remote url = Return r ∧
        valid r = _validate_git_url url ∧
        (accessible r = true ↔
           _validate_git_url url = true ∧ ∃ u, ls_remote url = Return u) ∧
        (accessible r = true → valid r = true))
  ∧ (_validate_git_url url = false →
     ∀ other, validate_repository_access other url
              = validate_repository_access ls_remote url).
Proof.
  unfold validate_repository_access.
  destruct (_validate_git_url url); cbn [negb].
  - split; [|done]. intros [Hlive|]; [|done].
    destruct (ls_remote url) as [u|e|]; [| |done].
    + eexists. split; [reflexivity|]. simpl. repeat split; try done. by exists u.
    + eexists. split; [reflexivity|]. simpl. repeat split; try done.
      by intros (_ & u & ?).
  - split; [|done]. intros _. eexists. split; [reflexivity|]. simpl.
    repeat split; try done. by intros [? _].
Qed.

End repo_more_proofs.

(** * Proofs: the endpoints *)

Section endpoint_more_proofs.
Import Utils BatchCases Endpoints UploadCases PipelineCases TaskRecords.
Context (E : environment).

Lemma upload_name_world f w :
  ∃ name w', upload_name E f w = (Return name, w') ∧ fs w' = fs w ∧
    registry w' = registry w ∧ scheduled w' = scheduled w ∧
    wall_clock w' = wall_clock w.
Proof.
  unfold upload_name. destruct (filename f) as [[|c given]|];
    eexists _, _; (split; [reflexivity|]); by repeat split.
Qed.

(** The upload loop leaves the registry alone, and the disk as well while
    it has no scratch directory. *)
Lemma route_file_world r f w :
  ∃ r' w', route_file E r f w = (Return r', w') ∧
    registry w' = registry w ∧ scheduled w' = scheduled w ∧
    wall_clock w' = wall_clock w ∧
    (task_temp_dir r' = None → task_temp_dir r = None ∧ fs w' = fs w).
Proof.
  unfold route_file. destruct (read f) as [e|[|b content]].
  1, 2: exists r, w; by repeat split.
  destruct (upload_name_world f w) as (name & w1 & Hname & Hfs & Hr & Hs & Hc).
  unfold bindM at 1. rewrite Hname.
  destruct (_ <=? _).
  - eexists _, w1. split; [reflexivity|]. simpl. repeat split; try done.
  - unfold bindM at 1. unfold scratch_dir.
    set (mk := match task_temp_dir r with Some dir => _ | None => _ end).
    assert (Hmk : ∃ dir w2, mk w1 = (Return dir, w2) ∧ registry w2 = registry w1 ∧
                   scheduled w2 = scheduled w1 ∧ wall_clock w2 = wall_clock w1).
    { unfold mk. destruct (task_temp_dir r).
      - eexists _, _. split; [reflexivity|]. done.
      - eexists _, _. split; [reflexivity|]. done. }
    destruct Hmk as (dir & w2 & Hmk & Hr2 & Hs2 & Hc2). rewrite Hmk.
    set (dest := os_path_join dir (safe_filename name)).
    destruct (ensure_parent_frame dest w2) as (w3 & Hens & (_ & Hc3 & Hr3 & Hs3) & _).
    unfold bindM at 1. rewrite Hens.
    unfold try_except_M, bindM, write_file.
    destruct (write_fault E dest); eexists _, _; (split; [reflexivity|]);
      simpl; repeat split; try congruence; done.
Qed.

Lemma route_files_world files : ∀ r w,
  ∃ r' w', route_files E r files w = (Return r', w') ∧
    registry w' = registry w ∧ scheduled w' = scheduled w ∧
    wall_clock w' = wall_clock w ∧
    (task_temp_dir r' = None → task_temp_dir r = None ∧ fs w' = fs w).
Proof.
  induction files as [|f files IH]; intros r w; cbn [route_files].
  - exists r, w. by repeat split.
  - destruct (route_file_world r f w) as (r1 & w1 & Hrun & Hr & Hs & Hc & Hnone).
    destruct (IH r1 w1) as (r2 & w2 & Hrun2 & Hr2 & Hs2 & Hc2 & Hnone2).
    exists r2, w2. unfold bindM. rewrite Hrun. split; [exact Hrun2|].
    split; [congruence|]. split; [congruence|]. split; [congruence|].
    intros Hn. destruct (Hnone2 Hn) as [Hn1 Hfs2].
    destruct (Hnone Hn1) as [Hn0 Hfs1]. split; [done|congruence].
Qed.

Lemma fresh_upload_dir_nonempty dir :
  fresh_upload_dir E dir → ∃ c rest, dir = String c rest.
Proof.
  intros [k ->]. unfold os_path_join. cbn [startswith Ascii.eqb Bool.eqb andb].
  destruct (temp_files_dir (settings E)) as [|c rest].
  - cbn [is_empty orb]. eexists _, _. reflexivity.
  - destruct (is_empty _ || _); rewrite append_cons; eauto.
Qed.

(** X21 -- A repository submission and the status endpoint.  For a request
    body that passes validation, POST /process-repo answers with a new
    identifier and touches neither the disk nor any other record; GET
    /tasks/{task_id} with that identifier then returns the PENDING record
    of the submission, and the coroutine scheduled under it is the
    repository processing of the validated URL.  For an identifier the
    registry does not hold, GET /tasks/{task_id} answers 404. *)
Theorem submitted_repository_is_visible raw url w :
  RepoURL E raw = inr url →
  let task_id := uuid4_str E (uuids_drawn w) in
  ∃ w', Endpoints.process_repository E raw w
        = (Return {| message := "Repository processing started in the background.";
                     task_id := task_id;
                     status_url := "/api/v1/tasks/" +:+ task_id |}, w') ∧
    TaskEndpoints.get_task_status task_id w'
    = (Return (new_record (wall_clock w) task_id
                 ("Processing repository: " +:+ url)), w') ∧
    scheduled w' !! task_id = Some (ProcessRepository url) ∧
    fs w' = fs w ∧
    (∀ other, other ≠ task_id →
       TaskEndpoints.get_task_status other w'
       = match Tasks.get_task_status other (registry w) with
         | Some t => (Return t, w')
         | None => (Raise (HTTPException 404 "Task not found"), w')
         end).
Proof.
  intros Hurl task_id. unfold Endpoints.process_repository. rewrite Hurl.
  unfold bindM, create_task, Tasks.create_task, ret. cbv beta iota zeta.
  eexists. split; [reflexivity|].
  unfold TaskEndpoints.get_task_status, Tasks.get_task_status.
  cbn [registry scheduled fs Tasks._tasks]. rewrite !lookup_insert_eq.
  split; [done|]. split; [done|]. split; [done|].
  intros other Hother. by rewrite lookup_insert_ne.
Qed.

End endpoint_more_proofs.

(** * Proofs: file names *)

Section filename_proofs.
Import Utils BatchCases.

Lemma re_sub_problematic_clean s c :
  has_char c (re_sub_problematic s) = true → problematic c = false.
Proof.
  induction s as [|a s IH]; simpl; [done|].
  intros [Hc|Hc]%orb_true_iff; [|by apply IH].
  apply Ascii.eqb_eq in Hc. subst c. by destruct (problematic a) eqn:Ha.
Qed.

Lemma has_char_lstrip_inv c chars s :
  has_char c (lstrip chars s) = true → has_char c s = true.
Proof.
  intros Hc. destruct (has_char c s) eqn:Hs; [done|].
  by rewrite (has_char_lstrip c chars s Hs) in Hc.
Qed.

Lemma has_char_rstrip_inv c chars s :
  has_char c (rstrip chars s) = true → has_char c s = true.
Proof.
  intros Hc. destruct (has_char c s) eqn:Hs; [done|].
  by rewrite (has_char_rstrip c chars s Hs) in Hc.
Qed.

(** A text stripped on the right is empty or ends in a character that
    is kept. *)
Lemma rstrip_last chars s :
  rstrip chars s = EmptyString ∨
  ∃ pre c, rstrip chars s = pre +:+ String c EmptyString ∧ has_char c chars = false.
Proof.
  induction s as [|a s IH]; simpl; [by left|].
  destruct IH as [->|(pre & c & -> & Hc)].
  - destruct (has_char a chars) eqn:Ha; [by left|].
    right. by exists EmptyString, a.
  - right. destruct (pre +:+ String c EmptyString) eqn:Hp.
    + by destruct pre.
    + rewrite <- Hp. by exists (String a pre), c.
Qed.

Lemma lstrip_fixed chars a rest :
  has_char a chars = false → lstrip chars (String a rest) = String a rest.
Proof. intros Ha. simpl. by rewrite Ha. Qed.

Lemma rstrip_fixed chars pre c :
  has_char c chars = false →
  rstrip chars (pre +:+ String c EmptyString) = pre +:+ String c EmptyString.
Proof.
  intros Hc. induction pre as [|a pre IH].
  - change (EmptyString +:+ String c EmptyString) with (String c EmptyString).
    simpl. by rewrite Hc.
  - rewrite append_cons. simpl. rewrite IH.
    destruct (pre +:+ String c EmptyString) eqn:Hp; [by destruct pre|done].
Qed.

Lemma re_sub_problematic_fixed s :
  (∀ c, has_char c s = true → problematic c = false) →
  re_sub_problematic s = s.
Proof.
  induction s as [|a s IH]; simpl; [done|]. intros Hclean.
  rewrite (Hclean a) by (by rewrite Ascii.eqb_refl).
  rewrite IH; [done|]. intros c Hc. apply Hclean. by rewrite Hc, orb_true_r.
Qed.

Lemma append_last_inj pre z pre' z' :
  pre +:+ String z EmptyString = pre' +:+ String z' EmptyString → z = z'.
Proof.
  revert pre'. induction pre as [|a pre IH]; intros [|a' pre'];
    rewrite ?append_cons.
  - by intros [= ->].
  - change (EmptyString +:+ String z EmptyString) with (String z EmptyString).
    intros [= _ Hrest]. by destruct pre'.
  - change (EmptyString +:+ String z' EmptyString) with (String z' EmptyString).
    intros [= _ Hrest]. by destruct pre.
  - intros [= _ Hrest]. by apply (IH pre').
Qed.

(** The shape of a sanitized name. *)
Lemma safe_filename_shape name :
  ∃ a rest pre z,
    safe_filename name = String a rest ∧
    safe_filename name = pre +:+ String z EmptyString ∧
    has_char a ". " = false ∧ has_char z ". " = false ∧
    ∀ c, has_char c (safe_filename name) = true → problematic c = false.
Proof.
  unfold safe_filename, strip. set (t := re_sub_problematic name).
  destruct (lstrip_head ". " t) as [Hl|(a & rest & Hl & Ha)].
  { rewrite Hl. cbn [rstrip is_empty].
    exists "u"%char, "nnamed_file", "unnamed_fil", "e"%char.
    split; [done|]. split; [done|]. split; [done|]. split; [done|].
    intros c Hc. simpl in Hc.
    repeat (apply orb_true_iff in Hc as [Hc|Hc];
            [apply Ascii.eqb_eq in Hc; by subst c|]). done. }
  destruct (rstrip_head ". " a rest Ha) as [kept Hk].
  destruct (rstrip_last ". " (lstrip ". " t)) as [Hr|(pre & z & Hr & Hz)].
  { rewrite Hl, Hk in Hr. done. }
  exists a, kept, pre, z. rewrite Hl in *. rewrite Hk in *.
  cbn [is_empty]. split; [done|]. split; [done|]. split; [done|]. split; [done|].
  intros c Hc. apply (re_sub_problematic_clean name c). fold t.
  apply (has_char_lstrip_inv c ". "). rewrite Hl.
  apply (has_char_rstrip_inv c ". "). by rewrite Hk.
Qed.

(** X22 -- What [safe_filename] returns, for every input: a name that is
    not empty, holds none of the characters the pattern replaces (a slash
    among them, so it is a single path component), and neither begins nor
    ends with a dot or a space (so it is neither [.] nor [..]).  Sanitizing
    a sanitized name changes nothing. *)
Theorem safe_filename_is_safe name :
  safe_filename name ≠ EmptyString
  ∧ (∀ c, has_char c (safe_filename name) = true → problematic c = false)
  ∧ (∀ a rest, safe_filename name = String a rest → has_char a ". " = false)
  ∧ (∀ pre z, safe_filename name = pre +:+ String z EmptyString →
              has_char z ". " = false)
  ∧ safe_filename (safe_filename name) = safe_filename name.
Proof.
  destruct (safe_filename_shape name)
    as (a & rest & pre & z & Hhead & Hlast & Ha & Hz & Hclean).
  split; [by rewrite Hhead|]. split; [exact Hclean|]. split; [|split].
  - intros a' rest' Heq. rewrite Hhead in Heq. by injection Heq as <- _.
  - intros pre' z' Heq. rewrite Hlast in Heq.
    by rewrite <- (append_last_inj _ _ _ _ Heq).
  - unfold safe_filename at 1, strip.
    rewrite (re_sub_problematic_fixed _ Hclean).
    rewrite Hhead, (lstrip_fixed ". " a rest Ha).
    rewrite <- Hhead, Hlast, (rstrip_fixed ". " pre z Hz).
    by destruct pre.
Qed.

(** X23 -- Whether a file is taken for text depends on the last component
    of its path only, and a name without an extension is never taken for
    text: a name with no dot at all, or a name whose only dot is its first
    character.  The per-file processor rejects such a file as
    [Not a text file] without looking at the disk. *)
Theorem files_without_extension_are_not_text E fs d name :
  simple_name name →
  is_text_file (os_path_join d name) = is_text_file name
  ∧ (has_char "." name = false ∨
     (∃ rest, name = String "." rest ∧ has_char "." rest = false) →
     is_text_file name = false ∧
     DocProc._process_single_file_async E fs (os_path_join d name)
     = Return (DocProc.failure (os_path_join d name) "Not a text file")).
Proof.
  intros Hn. pose proof (is_text_file_join d name Hn) as Hjoin.
  split; [exact Hjoin|]. intros Hext.
  assert (Hno : is_text_file name = false).
  { unfold is_text_file, get_file_extension, path_suffix.
    rewrite (path_name_simple name Hn).
    destruct Hext as [Hdot|(rest & -> & Hdot)].
    - by rewrite Hdot.
    - cbn [split Ascii.eqb Bool.eqb]. rewrite (split_no_sep "." rest Hdot).
      cbn [last_item List.last has_char Ascii.eqb Bool.eqb orb andb len String.length].
      assert (Hlen : (len rest + 1 <? len (String "." rest)) = false)
        by (apply Z.ltb_ge; unfold len; simpl; lia).
      by rewrite Hlen, andb_false_r. }
  split; [exact Hno|].
  unfold DocProc._process_single_file_async. by rewrite Hjoin, Hno.
Qed.

End filename_proofs.

(** * Proofs: ignore patterns *)

Section fnmatch_proofs.
Import Utils Fnmatch.

Lemma literal_cons c s :
  literal (String c s) = true →
  Ascii.eqb c "*" = false ∧ Ascii.eqb c "?" = false ∧ literal s = true.
Proof.
  unfold literal. cbn [has_char]. rewrite !negb_orb, !andb_true_iff.
  rewrite !negb_true_iff. intros [[[H1 H2] [H3 H4]] [H5 H6]].
  rewrite (Ascii.eqb_sym c "*"), (Ascii.eqb_sym c "?"). by repeat split.
Qed.

(** A pattern without special characters matches itself only. *)
Lemma fnmatch_literal lit name :
  literal lit = true → fnmatch_rec lit name = String.eqb name lit.
Proof.
  revert name. induction lit as [|c lit IH]; intros name Hlit.
  - by destruct name.
  - apply literal_cons in Hlit as (Hs & Hq & Hlit). cbn [fnmatch_rec].
    rewrite Hs, Hq. destruct name as [|a name]; [done|].
    cbn [String.eqb]. by rewrite IH.
Qed.

Lemma fnmatch_star_anything name : fnmatch_rec "*" name = true.
Proof.
  induction name as [|a name IH]; [done|].
  cbn [fnmatch_rec Ascii.eqb Bool.eqb] in *. cbn [is_empty orb]. exact IH.
Qed.

(** [lit*] matches the names that start with [lit]. *)
Lemma fnmatch_prefix lit name :
  literal lit = true → fnmatch_rec (lit +:+ "*") name = startswith lit name.
Proof.
  revert name. induction lit as [|c lit IH]; intros name Hlit.
  - change (EmptyString +:+ "*") with "*". rewrite fnmatch_star_anything.
    by destruct name.
  - apply literal_cons in Hlit as (Hs & Hq & Hlit). rewrite append_cons.
    cbn [fnmatch_rec]. rewrite Hs, Hq. destruct name as [|a name]; [done|].
    cbn [startswith]. rewrite IH by done. by rewrite (Ascii.eqb_sym a c).
Qed.

(** [*lit] matches the names that end with [lit]. *)
Lemma fnmatch_suffix lit name :
  literal lit = true → fnmatch_rec (String "*" lit) name = endswith lit name.
Proof.
  intros Hlit. induction name as [|a name IH].
  - cbn [fnmatch_rec Ascii.eqb Bool.eqb endswith]. rewrite fnmatch_literal by done.
    by rewrite orb_false_r.
  - cbn [fnmatch_rec Ascii.eqb Bool.eqb endswith] in *.
    by rewrite IH, fnmatch_literal.
Qed.

(** [*lit*] matches the names that contain [lit]. *)
Lemma fnmatch_infix lit name :
  literal lit = true →
  fnmatch_rec (String "*" (lit +:+ "*")) name = contains lit name.
Proof.
  intros Hlit. induction name as [|a name IH].
  - cbn [fnmatch_rec Ascii.eqb Bool.eqb contains]. by rewrite fnmatch_prefix.
  - cbn [fnmatch_rec Ascii.eqb Bool.eqb contains] in *.
    by rewrite IH, fnmatch_prefix.
Qed.

Lemma is_path_ignored_split path (infixes endings : list string) :
  Forall (λ s, literal s = true) infixes →
  Forall (λ s, literal s = true) endings →
  is_path_ignored fnmatch path
    (List.map (λ m, String "*" (m +:+ "*")) infixes
       ++ List.map (λ e, String "*" e) endings)
  = existsb (λ m, contains m path) infixes
    || existsb (λ e, endswith e path) endings.
Proof.
  intros Hin Hend. unfold is_path_ignored, fnmatch. rewrite existsb_app. f_equal.
  - induction Hin as [|m infixes Hm _ IH]; [done|]. simpl.
    by rewrite IH, <- fnmatch_infix.
  - induction Hend as [|e endings He _ IH]; [done|]. simpl.
    by rewrite IH, <- fnmatch_suffix.
Qed.

Lemma contains_append a m b : contains m (a +:+ m +:+ b) = true.
Proof.
  induction a as [|x a IH].
  - change (EmptyString +:+ m +:+ b) with (m +:+ b).
    destruct (m +:+ b) eqn:Hmb; cbn [contains];
      rewrite <- Hmb, startswith_append; done.
  - rewrite append_cons. cbn [contains]. by rewrite IH, orb_true_r.
Qed.

(** X24 -- What the default [ignore_patterns] mean to [is_path_ignored]: a
    path is ignored exactly when it contains one of six directory names
    between two slashes, or ends with one of eleven endings.  So every path
    below a directory named [.git] is ignored, while the directory path
    itself, which ends without a slash, is not ignored on account of its
    name: in the walk of the default clone directory, [.git] is entered and
    its files are dropped one by one. *)
Theorem default_ignore_patterns_meaning path :
  is_path_ignored fnmatch path (ignore_patterns default_settings)
  = existsb (λ m, contains m path) ignored_directories
    || existsb (λ e, endswith e path) ignored_endings
  ∧ (∀ root rest,
       is_path_ignored fnmatch (root +:+ "/.git/" +:+ rest)
         (ignore_patterns default_settings) = true)
  ∧ is_path_ignored fnmatch
      (os_path_join (temp_repo_dir default_settings) ".git")
      (ignore_patterns default_settings) = false.
Proof.
  assert (Hmeaning : ∀ p,
    is_path_ignored fnmatch p (ignore_patterns default_settings)
    = existsb (λ m, contains m p) ignored_directories
      || existsb (λ e, endswith e p) ignored_endings).
  { intros p.
    change (ignore_patterns default_settings)
      with (List.map (λ m, String "*" (m +:+ "*")) ignored_directories
              ++ List.map (λ e, String "*" e) ignored_endings).
    apply is_path_ignored_split; repeat constructor. }
  split; [apply Hmeaning|]. split; [|reflexivity].
  intros root rest. rewrite Hmeaning. cbn [ignored_directories existsb].
  by rewrite contains_append.
Qed.

End fnmatch_proofs.

(** * Proofs: directory processing *)

Section dirfiles_proofs.
Import Utils BatchCases PipelineCases DirFiles.
Context (ignored : string → bool) (fs : filesystem).

Lemma strip_prefix_Some prefix s rest :
  strip_prefix prefix s = Some rest ↔ s = prefix +:+ rest.
Proof.
  revert s. induction prefix as [|a prefix IH]; intros s.
  - change (EmptyString +:+ rest) with rest. simpl. split; congruence.
  - rewrite append_cons. destruct s as [|b s]; simpl; [done|].
    destruct (Ascii.eqb a b) eqn:Hab.
    + apply Ascii.eqb_eq in Hab. subst b. rewrite IH. split; congruence.
    + split; [done|]. intros [= -> _]. by rewrite Ascii.eqb_refl in Hab.
Qed.

Lemma os_path_join_prefix d name :
  has_char "/" name = false → os_path_join d name = dir_prefix d +:+ name.
Proof.
  intros Hname. unfold os_path_join, dir_prefix.
  assert (Hrel : startswith "/" name = false).
  { destruct name as [|c name]; [done|]. cbn [has_char startswith] in *.
    apply orb_false_iff in Hname as [Hc _]. by rewrite Hc. }
  rewrite Hrel. destruct (is_empty d || endswith_char "/" d); [done|].
  by rewrite append_assoc.
Qed.

(** The entries of a directory are the paths one component below it. *)
Lemma entry_name_Some d p name :
  entry_name d p = Some name ↔
  p = os_path_join d name ∧ is_empty name = false ∧ has_char "/" name = false.
Proof.
  unfold entry_name. split.
  - destruct (strip_prefix (dir_prefix d) p) as [rest|] eqn:Hp; [|done].
    apply strip_prefix_Some in Hp.
    destruct (is_empty rest) eqn:He; [done|].
    destruct (has_char "/" rest) eqn:Hs; [done|]. intros [= <-].
    by rewrite os_path_join_prefix.
  - intros (-> & He & Hs). rewrite os_path_join_prefix by done.
    assert (Hp : strip_prefix (dir_prefix d) (dir_prefix d +:+ name) = Some name)
      by (by apply strip_prefix_Some).
    by rewrite Hp, He, Hs.
Qed.

Lemma elem_of_scandir d name n :
  (name, n) ∈ scandir fs d ↔
  fs !! os_path_join d name = Some n ∧ is_empty name = false ∧
  has_char "/" name = false.
Proof.
  unfold scandir. rewrite list_elem_of_omap. split.
  - intros ([p n'] & Hin & Hname). apply elem_of_map_to_list in Hin.
    cbn [fst snd] in Hname.
    destruct (entry_name d p) as [name'|] eqn:He; [|done].
    injection Hname as <- <-. apply entry_name_Some in He as (-> & ? & ?).
    done.
  - intros (Hp & He & Hs). exists (os_path_join d name, n).
    split; [by apply elem_of_map_to_list|]. cbn [fst snd].
    assert (Hn : entry_name d (os_path_join d name) = Some name)
      by (by apply entry_name_Some).
    by rewrite Hn.
Qed.

Lemma elem_of_subdirectories entries name :
  name ∈ subdirectories entries ↔ (name, Dir) ∈ entries.
Proof.
  unfold subdirectories. rewrite list_elem_of_omap. split.
  - intros ([x [c|]] & Hin & Heq); simpl in Heq; [done|]. by injection Heq as <-.
  - intros Hin. by exists (name, Dir).
Qed.

Lemma elem_of_nondirectories entries name :
  name ∈ nondirectories entries ↔ ∃ content, (name, File content) ∈ entries.
Proof.
  unfold nondirectories. rewrite list_elem_of_omap. split.
  - intros ([x [c|]] & Hin & Heq); simpl in Heq; [|done].
    injection Heq as <-. by exists c.
  - intros [c Hin]. by exists (name, File c).
Qed.

Lemma length_os_path_join d name :
  is_empty name = false → has_char "/" name = false →
  (String.length d < String.length (os_path_join d name))%nat.
Proof.
  intros He Hs. rewrite os_path_join_prefix by done. unfold dir_prefix.
  destruct name as [|c name]; [done|].
  destruct (is_empty d || endswith_char "/" d);
    rewrite !length_append; simpl; lia.
Qed.

(** Below a subdirectory the disk has fewer entries left than below the
    directory itself. *)
Lemma deeper_subdirectory d name n :
  (name, n) ∈ scandir fs d →
  (deeper fs (os_path_join d name) < deeper fs d)%nat.
Proof.
  intros (Hp & He & Hs)%elem_of_scandir. unfold deeper.
  set (c := os_path_join d name) in *.
  pose proof (length_os_path_join d name He Hs) as Hlen. fold c in Hlen.
  set (Pd := λ kv : string * node, (String.length d < String.length kv.1)%nat).
  set (Pc := λ kv : string * node, (String.length c < String.length kv.1)%nat).
  assert (Hsub : filter Pc fs ⊆ delete c (filter Pd fs)).
  { apply map_subseteq_spec. intros k x [Hk HP]%map_lookup_filter_Some.
    unfold Pc in HP. simpl in HP.
    rewrite lookup_delete_ne by (intros <-; lia).
    apply map_lookup_filter_Some_2; [done|]. unfold Pd. simpl. lia. }
  apply map_subseteq_size in Hsub.
  assert (Hc : filter Pd fs !! c = Some n)
    by (apply map_lookup_filter_Some_2; [done|exact Hlen]).
  rewrite map_size_delete_Some in Hsub by eauto.
  assert (size (filter Pd fs) ≠ 0%nat)
    by (eapply map_size_ne_0_lookup_2; eauto).
  lia.
Qed.

Lemma deeper_bound d : (deeper fs d < enough_fuel fs)%nat.
Proof.
  unfold deeper, enough_fuel.
  pose proof (map_subseteq_size _ _
                (map_filter_subseteq
                   (λ kv : string * node,
                      (String.length d < String.length kv.1)%nat) fs)).
  lia.
Qed.

Lemma flat_map_agree {A B} (f g : A → list B) (l : list A) :
  (∀ x, In x l → f x = g x) → flat_map f l = flat_map g l.
Proof.
  induction l as [|x l IH]; [done|]. intros Hfg. simpl.
  rewrite (Hfg x) by (by left). rewrite IH; [done|].
  intros y Hy. apply Hfg. by right.
Qed.

(** With enough fuel the walk does not depend on the fuel. *)
Lemma walk_files_fuel fuel1 : ∀ fuel2 root,
  (deeper fs root < fuel1)%nat → (deeper fs root < fuel2)%nat →
  walk_files fuel1 ignored fs root = walk_files fuel2 ignored fs root.
Proof.
  induction fuel1 as [|fuel1 IH]; intros fuel2 root H1 H2; [lia|].
  destruct fuel2 as [|fuel2]; [lia|]. cbn [walk_files]. f_equal.
  apply flat_map_agree. intros name Hname.
  apply List.filter_In in Hname as [Hname _].
  apply list_elem_of_In, elem_of_subdirectories in Hname.
  pose proof (deeper_subdirectory root name Dir Hname).
  apply IH; lia.
Qed.

Lemma entered_trans a b c :
  entered ignored fs a b → entered ignored fs b c → entered ignored fs a c.
Proof.
  intros Hab Hbc. induction Hbc as [|d name Hbd IH Hin Hig]; [done|].
  by apply entered_sub.
Qed.

(** The first step of the way from a directory to one the walk enters. *)
Lemma entered_first root d :
  entered ignored fs root d →
  d = root ∨
  ∃ name, (name, Dir) ∈ scandir fs root ∧
          ignored (os_path_join root name) = false ∧
          entered ignored fs (os_path_join root name) d.
Proof.
  induction 1 as [|d name Hrd IH Hin Hig]; [by left|]. right.
  destruct IH as [->|(n1 & Hn1 & Hig1 & Hrest)].
  - exists name. split; [done|]. split; [done|]. constructor.
  - exists n1. split; [done|]. split; [done|]. by apply entered_sub.
Qed.

Lemma walk_files_sound fuel : ∀ root p,
  p ∈ walk_files fuel ignored fs root →
  ∃ d name content,
    entered ignored fs root d ∧ (name, File content) ∈ scandir fs d ∧
    p = os_path_join d name ∧ ignored p = false.
Proof.
  induction fuel as [|fuel IH]; intros root p; cbn [walk_files].
  { by intros ?%elem_of_nil. }
  rewrite elem_of_app. intros [Hhere|Hbelow].
  - apply list_elem_of_In, List.filter_In in Hhere as [Hin Hig].
    apply list_elem_of_In, list_elem_of_fmap in Hin as (name & -> & Hname).
    apply elem_of_nondirectories in Hname as [content Hname].
    exists root, name, content. split; [constructor|]. split; [done|].
    split; [done|]. by apply negb_true_iff.
  - apply list_elem_of_In, in_flat_map in Hbelow as (name & Hname & Hp).
    apply List.filter_In in Hname as [Hname Hig].
    apply list_elem_of_In, elem_of_subdirectories in Hname.
    apply negb_true_iff in Hig. apply list_elem_of_In in Hp.
    destruct (IH _ _ Hp) as (d & n & content & Hent & Hfile & -> & Hno).
    exists d, n, content. split; [|done].
    eapply entered_trans; [|exact Hent]. apply entered_sub; [constructor|done..].
Qed.

Lemma walk_files_complete fuel : ∀ root d name content,
  (deeper fs root < fuel)%nat →
  entered ignored fs root d → (name, File content) ∈ scandir fs d →
  ignored (os_path_join d name) = false →
  os_path_join d name ∈ walk_files fuel ignored fs root.
Proof.
  induction fuel as [|fuel IH]; intros root d name content Hfuel Hent Hfile Hig;
    [lia|].
  cbn [walk_files]. rewrite elem_of_app.
  destruct (entered_first root d Hent) as [->|(n1 & Hn1 & Hig1 & Hrest)].
  - left. apply list_elem_of_In, List.filter_In. split.
    + apply list_elem_of_In, list_elem_of_fmap. exists name. split; [done|].
      apply elem_of_nondirectories. by exists content.
    + by rewrite Hig.
  - right. apply list_elem_of_In, in_flat_map. exists n1. split.
    + apply List.filter_In. split; [|by rewrite Hig1].
      by apply list_elem_of_In, elem_of_subdirectories.
    + apply list_elem_of_In. eapply IH; eauto.
      pose proof (deeper_subdirectory root n1 Dir Hn1). lia.
Qed.

(** X25 -- The files the recursive walk of [process_directory_files]
    collects.  The walk ends, and with enough fuel its result does not
    depend on the fuel.  It collects exactly the regular files that are
    not ignored and sit in a directory the walk enters: the root, or a
    subdirectory, not ignored, of a directory it enters.  The root is
    entered whether or not its own path matches a pattern; an ignored file
    is never collected, and neither is a file in a directory the walk does
    not enter. *)
Theorem walk_collects_the_unignored_files root :
  (∀ fuel, (enough_fuel fs ≤ fuel)%nat →
           walk_files fuel ignored fs root
           = walk_files (enough_fuel fs) ignored fs root)
  ∧ (∀ p, p ∈ walk_files (enough_fuel fs) ignored fs root ↔
          ∃ d name content,
            entered ignored fs root d ∧
            fs !! os_path_join d name = Some (File content) ∧
            is_empty name = false ∧ has_char "/" name = false ∧
            p = os_path_join d name ∧ ignored p = false).
Proof.
  split.
  - intros fuel Hfuel. pose proof (deeper_bound root).
    apply walk_files_fuel; lia.
  - intros p. split.
    + intros (d & name & content & Hent & Hfile & -> & Hig)%walk_files_sound.
      apply elem_of_scandir in Hfile as (Hfile & He & Hs).
      by exists d, name, content.
    + intros (d & name & content & Hent & Hfile & He & Hs & -> & Hig).
      eapply walk_files_complete; eauto; [apply deeper_bound|].
      by apply elem_of_scandir.
Qed.

End dirfiles_proofs.

Section process_directory_proofs.
Import Utils BatchCases PipelineCases DirFiles.
Context (E : environment) (fnmatch : string → string → bool).




End process_directory_proofs.

(** * Scenarios: the registry *)

Section registry_scenarios.
Import Tasks TasksInv TaskStats TaskRecords Scenario RegistryScenario.

(** One task was cancelled before it started: every slot is free, and
    [max_concurrent] is reported as 4 from then on. *)
Lemma service_stats_slots_witness :
  available_slots (get_service_stats (after cancelled_early)) = 3
  ∧ max_concurrent (get_service_stats (after cancelled_early)) = 4.
Proof.
  assert (Hreach : reachable 3 (after cancelled_early))
    by (apply (after_reachable cancelled_early); vm_compute; reflexivity).
  assert (Hquiet : no_waiter (after cancelled_early)).
  { intros tid a Ha.
    assert (Hhandles : _running_tasks (after cancelled_early)
                       = {["t1" := {| coro := Done; must_cancel := false |}]})
      by (vm_compute; reflexivity).
    rewrite Hhandles in Ha. apply lookup_singleton_Some in Ha as [_ <-]. done. }
  destruct (service_stats_slots 3 _ Hreach Hquiet) as (Hfree & _ & Hmax & _).
  split.
  - rewrite Hfree. vm_compute; reflexivity.
  - rewrite Hmax. vm_compute; reflexivity.
Defined.

(** The record of a task that ran to its end. *)
Lemma record_fields_follow_status_witness :
  ∃ t, get_task_status "t1" (after finished) = Some t ∧ fields_fit "t1" t ∧
       status t = COMPLETED.
Proof.
  assert (Hreach : reachable 3 (after finished))
    by (apply (after_reachable finished); vm_compute; reflexivity).
  eexists. split; [vm_compute; reflexivity|]. split; [|reflexivity].
  apply (record_fields_follow_status 3 (after finished) "t1" _ Hreach).
  vm_compute; reflexivity.
Defined.

(** Cancelling a task that has completed. *)
Lemma cancel_task_of_finished_task_witness :
  cancel_task "t1" (after finished) = (false, after finished).
Proof.
  assert (Hreach : reachable 3 (after finished))
    by (apply (after_reachable finished); vm_compute; reflexivity).
  apply (cancel_task_of_finished_task 3 _ "t1" Hreach).
  right. eexists. split; [vm_compute; reflexivity|]. apply list_elem_of_here.
Defined.

(** Cancelling the task that holds a slot. *)
Lemma cancel_task_of_running_task_witness :
  ∃ t s1 s2,
    get_task_status "t1" (after one_running) = Some t ∧ status t = RUNNING ∧
    cancel_task "t1" (after one_running) = (true, s1) ∧
    _execute_task_resume 25 "t1" Cancelled s1 = Some (None, s2) ∧
    get_task_status "t1" s2 = Some (mark_cancelled 25 t) ∧
    _semaphore s2 = 3.
Proof.
  assert (Hreach : reachable 3 (after one_running))
    by (apply (after_reachable one_running); vm_compute; reflexivity).
  destruct (cancel_task_of_running_task 3 (after one_running) "t1"
              {| coro := AwaitTaskFunc; must_cancel := false |} 25 Hreach)
    as (t & s1 & s2 & Ht & Hst & Hc & _ & _ & Hr & Ht2 & Hsem & _);
    [vm_compute; reflexivity|reflexivity|].
  exists t, s1, s2. repeat split; try done.
  all: rewrite Hsem; vm_compute; reflexivity.
Defined.

(** A task cancelled before its first run, and what follows. *)
Lemma task_cancelled_before_start_stays_pending_witness :
  ∃ t, get_task_status "t1" (after (cancelled_early ++ afterwards)) = Some t ∧
       status t = PENDING ∧ completed_at t = None ∧
       (cancel_task "t1" (after (cancelled_early ++ afterwards))).1 = false.
Proof.
  assert (Hreach : reachable 3 (after cancelled_early))
    by (apply (after_reachable cancelled_early); vm_compute; reflexivity).
  destruct (task_cancelled_before_start_stays_pending 3 (after cancelled_early)
              "t1" {| coro := Done; must_cancel := false |} afterwards
              (after (cancelled_early ++ afterwards)) Hreach)
    as (t & _ & Ht & Hst & Hc & _ & Hcancel);
    [vm_compute; reflexivity|reflexivity|vm_compute; reflexivity|].
  exists t. split; [exact Ht|]. split; [exact Hst|]. split; [exact Hc|exact Hcancel].
Defined.

(** The sweep a day after the task completed. *)
Lemma cleanup_completed_tasks_removes_old_finished_witness :
  (cleanup_completed_tasks 86400000000 (after finished)).1 = 1
  ∧ get_task_status "t1" (cleanup_completed_tasks 86400000000 (after finished)).2
    = None.
Proof.
  assert (Hreach : reachable 3 (after finished))
    by (apply (after_reachable finished); vm_compute; reflexivity).
  destruct (cleanup_completed_tasks_removes_old_finished 3 (after finished)
              86400000000 Hreach) as (Hcount & Hgone & _).
  split.
  - cbv zeta in Hcount.
    assert (Hsizes : Z.of_nat (size (_tasks (cleanup_completed_tasks 86400000000
                                               (after finished)).2)) = 0
                     ∧ Z.of_nat (size (_tasks (after finished))) = 1)
      by (split; vm_compute; reflexivity).
    destruct Hsizes as [H0 H1]. rewrite H0, H1 in Hcount. lia.
  - cbv zeta in Hgone.
    assert (Ht : ∃ t, get_task_status "t1" (after finished) = Some t ∧
                      completed_at t = Some 30).
    { eexists. split; vm_compute; reflexivity. }
    destruct Ht as (t & Ht & Hc). rewrite (Hgone "t1" t Ht), Hc.
    reflexivity.
Defined.

(** With three tasks running and one waiting, all four are listed. *)
Lemma get_all_tasks_without_completed_witness :
  (∀ t, get_all_tasks false (after saturated) !! "t4" = Some t →
        (status t = PENDING ∨ status t = RUNNING) ∧
        is_Some (_running_tasks (after saturated) !! "t4"))
  ∧ get_all_tasks false (after finished) !! "t1" = None.
Proof.
  assert (Hfull : reachable 3 (after saturated))
    by (apply (after_reachable saturated); vm_compute; reflexivity).
  assert (Hdone : reachable 3 (after finished))
    by (apply (after_reachable finished); vm_compute; reflexivity).
  destruct (get_all_tasks_without_completed 3 (after saturated) "t4" Hfull)
    as (_ & Hlive & _).
  destruct (get_all_tasks_without_completed 3 (after finished) "t1" Hdone)
    as (Hlook & _ & _).
  split; [exact Hlive|]. rewrite Hlook. vm_compute; reflexivity.
Defined.

End registry_scenarios.

(** * Scenarios: the pipeline *)

Section pipeline_more_scenarios.
Import Utils BatchCases UploadCases PipelineCases Scenario PipelineScenario.
Import TaskRecords.

(** A valid file of the five-file disk. *)
Lemma process_succeeds_exactly_on_valid_files_witness :
  ∃ r, DocProc._process_single_file_async E0 disk5 "src/a.py" = Return r ∧
       DocProc.success r = true.
Proof.
  destruct (process_succeeds_exactly_on_valid_files E0 disk5 "src/a.py")
    as [[_ Hvalid] _]; [vm_compute; reflexivity|].
  apply Hvalid. apply (disk5_valid "src/a.py"). apply list_elem_of_here.
Defined.

(** The two chunks of [src/a.py]. *)
Lemma chunks_carry_their_source_witness :
  ∃ chunks,
    length chunks = 2%nat ∧
    ∀ i d,
      DocProc.documents
        {| DocProc.file_path := "src/a.py"; DocProc.success := true;
           DocProc.documents := chunks_of E0 disk5 "src/a.py";
           DocProc.error_message := None |} !! i = Some d →
      ∃ c, chunks !! i = Some c ∧ page_content d = page_content c ∧
           doc_metadata d !! "source_file" = Some (MStr "src/a.py") ∧
           doc_metadata d !! "file_type" = Some (MStr "py").
Proof.
  destruct (chunks_carry_their_source E0 disk5 "src/a.py"
              {| DocProc.file_path := "src/a.py"; DocProc.success := true;
                 DocProc.documents := chunks_of E0 disk5 "src/a.py";
                 DocProc.error_message := None |})
    as (chunks & Hsplit & Hlen & Htags); [reflexivity|reflexivity|].
  exists chunks. split.
  - rewrite <- Hlen. reflexivity.
  - intros i d Hd. destruct (Htags i d Hd) as (c & Hc & Hpc & Hsrc & Hty & _).
    exists c. split; [done|]. split; [done|]. split; [done|]. exact Hty.
Defined.

(** A batch of two images: both fail, nothing is stored, and the result
    carries no message. *)
Lemma batch_result_flags_witness :
  ∃ r, DocProc.process_files_concurrent E0 disk5 ["logo.png"; "icon.gif"] = Return r ∧
       DocProc.pr_success r = false ∧ DocProc.pr_error_message r = None ∧
       DocProc.documents_processed r = 0 ∧ DocProc.documents_failed r = 2.
Proof.
  destruct (batch_result_flags E0 disk5 ["logo.png"; "icon.gif"])
    as (r & Hr & _ & _ & _ & _ & _ & Hnone); [done|reflexivity|].
  exists r. split; [exact Hr|]. apply Hnone. reflexivity.
Defined.

(** One document, split in two chunks and stored. *)
Lemma process_documents_from_content_total_witness :
  ∃ r, DocProcContent.process_documents_from_content E0 (λ i, Z.of_nat i) 7
         [code_doc] = Return r ∧
       DocProc.pr_success r = true ∧
       DocProc.documents_failed r = 0 ∧ 0 < DocProc.documents_processed r.
Proof.
  destruct (process_documents_from_content_total E0 (λ i, Z.of_nat i) 7 [code_doc])
    as (r & Hr & _ & Hok & _).
  exists r. split; [exact Hr|].
  assert (Hsucc : DocProc.pr_success r = true).
  { assert (Hrun : ∃ r', DocProcContent.process_documents_from_content E0
                           (λ i, Z.of_nat i) 7 [code_doc] = Return r' ∧
                         DocProc.pr_success r' = true)
      by (eexists; split; reflexivity).
    destruct Hrun as (r' & Hr' & Hs). rewrite Hr in Hr'. by injection Hr' as <-. }
  split; [done|]. by apply Hok.
Defined.



(** A reachable repository and an address without a scheme. *)
Lemma validate_repository_access_never_raises_witness :
  (∃ r, RepoAccess.validate_repository_access (λ _, Return tt) a_repository
        = Return r ∧ RepoAccess.valid r = true)
  ∧ RepoAccess.validate_repository_access (λ _, Return tt)
      "git@github.com:89jobrien/code-chatter.git"
    = RepoAccess.validate_repository_access (λ _, Cancelled)
        "git@github.com:89jobrien/code-chatter.git".
Proof.
  split.
  - destruct (validate_repository_access_never_raises (λ _, Return tt) a_repository)
      as [Hreport _].
    destruct Hreport as (r & Hr & Hvalid & _); [by left|].
    exists r. split; [exact Hr|]. rewrite Hvalid. reflexivity.
  - destruct (validate_repository_access_never_raises (λ _, Cancelled)
                "git@github.com:89jobrien/code-chatter.git") as [_ Hsame].
    apply Hsame. reflexivity.
Defined.

(** A repository submission, then a look at its status. *)
Lemma submitted_repository_is_visible_witness :
  ∃ w', Endpoints.process_repository E0 a_repository w0
        = (Return {| Endpoints.message :=
                       "Repository processing started in the background.";
                     Endpoints.task_id := "task-0";
                     Endpoints.status_url := "/api/v1/tasks/task-0" |}, w') ∧
    TaskEndpoints.get_task_status "task-0" w'
    = (Return (new_record 1000 "task-0"
                 "Processing repository: https://github.com/89jobrien/code-chatter"),
       w') ∧
    TaskEndpoints.get_task_status "task-9" w'
    = (Raise (HTTPException 404 "Task not found"), w').
Proof.
  destruct (submitted_repository_is_visible E0 a_repository a_repository w0)
    as (w' & Hpost & Hget & _ & _ & Hother); [reflexivity|].
  exists w'. split; [exact Hpost|]. split; [exact Hget|].
  apply (Hother "task-9"). done.
Defined.

End pipeline_more_scenarios.

(** * Scenarios: names, directories and units of work *)

Section more_scenarios.
Import Utils BatchCases UploadCases PipelineCases Scenario PipelineScenario.
Import DirFiles DirScenario TaskRecords.

(** A name that tries to climb out of the directory. *)
Lemma safe_filename_is_safe_witness :
  safe_filename "../../etc/passwd" = "_.._etc_passwd"
  ∧ problematic "/" = true
  ∧ has_char "/" (safe_filename "../../etc/passwd") = false.
Proof.
  destruct (safe_filename_is_safe "../../etc/passwd") as (_ & Hclean & _).
  split; [reflexivity|]. split; [reflexivity|].
  destruct (has_char "/" (safe_filename "../../etc/passwd")) eqn:Hslash; [|done].
  pose proof (Hclean "/"%char Hslash) as Hbad. vm_compute in Hbad. done.
Defined.

(** A Makefile and a dot-file. *)
Lemma files_without_extension_are_not_text_witness :
  DocProc._process_single_file_async E0 disk5 (os_path_join "src" "Makefile")
  = Return (DocProc.failure "src/Makefile" "Not a text file")
  ∧ is_text_file ".gitignore" = false.
Proof.
  split.
  - destruct (files_without_extension_are_not_text E0 disk5 "src" "Makefile")
      as [_ Hno]; [by repeat split|].
    destruct Hno as [_ Hrun]; [by left|]. exact Hrun.
  - destruct (files_without_extension_are_not_text E0 disk5 "" ".gitignore")
      as [_ Hno]; [by repeat split|].
    destruct Hno as [Hno _]; [|exact Hno].
    right. by exists "gitignore".
Defined.

(** The walk of a cloned repository: the file below [src] is collected. *)
Lemma walk_collects_the_unignored_files_witness :
  "./temp_repo/src/main.py"
  ∈ walk_files (enough_fuel cloned) ignored_by_default cloned "./temp_repo"
  ∧ walk_files 100 ignored_by_default cloned "./temp_repo"
    = walk_files (enough_fuel cloned) ignored_by_default cloned "./temp_repo".
Proof.
  destruct (walk_collects_the_unignored_files ignored_by_default cloned "./temp_repo")
    as [Hfuel Hfiles].
  split.
  - apply Hfiles. exists "./temp_repo/src", "main.py", code200.
    split; [|by repeat split].
    apply (entered_sub ignored_by_default cloned "./temp_repo" "./temp_repo" "src");
      [constructor| |reflexivity].
    apply elem_of_scandir. by repeat split.
  - apply Hfuel. vm_compute. lia.
Defined.


End more_scenarios.

(** * Proofs: directory helpers that can fail *)

Section dirname_proofs.
Import Utils BatchCases PipelineCases.

Lemma rev_app_append a b acc :
  String.rev_app (a +:+ b) acc = String.rev_app b (String.rev_app a acc).
Proof.
  revert acc. induction a as [|x a IH]; intros acc; [done|].
  rewrite append_cons. simpl. apply IH.
Qed.

Lemma rev_app_rev_app d acc1 acc2 :
  String.rev_app (String.rev_app d acc1) acc2 = String.rev_app acc1 (d +:+ acc2).
Proof.
  revert acc1 acc2. induction d as [|x d IH]; intros acc1 acc2; [done|].
  simpl. rewrite IH. by rewrite append_cons.
Qed.

Lemma drop_last_component_rev_app n acc :
  has_char "/" n = false →
  drop_last_component (String.rev_app n acc) = drop_last_component acc.
Proof.
  revert acc. induction n as [|x n IH]; intros acc Hn; [done|].
  cbn [has_char] in Hn. apply orb_false_iff in Hn as [Hx Hn].
  simpl. rewrite IH by done. simpl. rewrite Ascii.eqb_sym in Hx. by rewrite Hx.
Qed.

Lemma lstrip_slash_nonempty d x :
  is_empty d = false → endswith_char "/" d = false →
  is_empty (lstrip "/" (d +:+ x)) = false.
Proof.
  induction d as [|a d IH]; [done|]. intros _ Hend.
  rewrite append_cons. cbn [lstrip has_char].
  destruct (Ascii.eqb a "/") eqn:Ha; cbn [orb]; [|done].
  apply IH.
  - destruct d; [|done]. simpl in Hend. congruence.
  - destruct d; [simpl in Hend; congruence|done].
Qed.

Lemma rstrip_slash_append d :
  is_empty d = false → endswith_char "/" d = false →
  rstrip "/" (d +:+ "/") = d.
Proof.
  induction d as [|a d IH]; [done|]. intros _ Hend.
  rewrite append_cons. cbn [rstrip].
  destruct d as [|b d].
  - simpl in Hend. simpl. by rewrite Hend.
  - rewrite IH; [done|done|done].
Qed.

(** The directory of a name joined to a directory is that directory. *)
Lemma os_path_dirname_join d name :
  plain_dir d → simple_name name →
  os_path_dirname (os_path_join d name) = d.
Proof.
  intros [Hne Hend] Hn. pose proof (simple_name_relative name Hn) as Hrel.
  destruct Hn as (Hslash & _ & _).
  unfold os_path_join. rewrite Hrel, Hne, Hend. cbn [orb].
  unfold os_path_dirname, String.rev.
  rewrite <- append_assoc, rev_app_append. cbn [String.rev_app].
  rewrite rev_app_append. cbn [String.rev_app].
  rewrite drop_last_component_rev_app by done.
  cbn [drop_last_component Ascii.eqb Bool.eqb].
  change (String.rev_app (String "/" (String.rev_app d "")) "")
    with (String.rev_app (String.rev_app d "") "/").
  rewrite rev_app_rev_app. cbn [String.rev_app].
  rewrite lstrip_slash_nonempty by done.
  assert (Hhead : is_empty (d +:+ "/") = false) by (by destruct d).
  rewrite Hhead. cbn [negb andb]. by apply rstrip_slash_append.
Qed.

End dirname_proofs.

Section disk_proofs.
Import Utils BatchCases PipelineCases Disk DiskCases.
Context (R : refusals).

Lemma same_but_disk_refl w : same_but_disk w w.
Proof. by repeat split. Qed.

Lemma Path_mkdir_cases p w :
  same_but_disk w (Path_mkdir R p w).2 ∧
  match (Path_mkdir R p w).1 with
  | None => fs (Path_mkdir R p w).2 = mkdir_parents p (fs w)
  | Some e => os_error e
  end.
Proof.
  unfold Path_mkdir. destruct (existsb _ _).
  - split; [apply same_but_disk_refl|]. by eexists.
  - destruct (mkdir_refused R p (fs w)) as [[text disk]|].
    + split; [done|]. by eexists.
    + by split.
Qed.

Lemma ensure_directory_cases d w :
  same_but_disk w (ensure_directory R d w).2 ∧
  match (ensure_directory R d w).1 with
  | None => fs (ensure_directory R d w).2 = Utils.ensure_directory d (fs w)
  | Some e => os_error e
  end.
Proof.
  unfold ensure_directory, Utils.ensure_directory.
  destruct (path_exists (fs w) d); [by split|]. apply Path_mkdir_cases.
Qed.

Lemma cleanup_directory_cases d w :
  same_but_disk w (cleanup_directory R d w).2 ∧
  match (cleanup_directory R d w).1 with
  | None => fs (cleanup_directory R d w).2 = Utils.cleanup_directory d (fs w)
  | Some e => os_error e
  end.
Proof.
  unfold cleanup_directory, Utils.cleanup_directory, shutil_rmtree.
  destruct (path_exists (fs w) d); [|by split].
  destruct (is_file (fs w) d).
  - split; [apply same_but_disk_refl|]. by eexists.
  - destruct (rmtree_refused R d (fs w)) as [[text disk]|].
    + split; [done|]. by eexists.
    + by split.
Qed.

(** When [cleanup_directory] returns, the path is gone. *)
Lemma cleanup_directory_returns d w w' :
  cleanup_directory R d w = (None, w') → path_exists (fs w') d = false.
Proof.
  intros Hrun. destruct (cleanup_directory_cases d w) as [_ Hcase].
  rewrite Hrun in Hcase. cbn [fst snd] in Hcase. rewrite Hcase.
  apply cleanup_directory_gone.
Qed.

Lemma disk_only_ensure_directory d : disk_only (ensure_directory R d).
Proof.
  intros w. destruct (ensure_directory_cases d w) as [Hsame Hcase].
  split; [done|]. intros e He. by rewrite He in Hcase.
Qed.

Lemma disk_only_cleanup_directory d : disk_only (cleanup_directory R d).
Proof.
  intros w. destruct (cleanup_directory_cases d w) as [Hsame Hcase].
  split; [done|]. intros e He. by rewrite He in Hcase.
Qed.

Lemma disk_only_ensure_dest_dir p : disk_only (ensure_dest_dir R p).
Proof.
  intros w. unfold ensure_dest_dir. destruct (_ && _).
  - apply disk_only_ensure_directory.
  - split; [apply same_but_disk_refl|done].
Qed.

(** *** What a computation raises *)


Lemma raises_only_ret {A} P (a : A) : raises_only P (ret a).
Proof. intros w. by repeat split. Qed.

Lemma raises_only_raise {A} (P : exn → Prop) e : P e → raises_only P (@raise A e).
Proof. intros HP w. split; [done|]. split; [done|]. by intros e0 [= <-]. Qed.

Lemma raises_only_bind {A B} P (m : M A) (k : A → M B) :
  raises_only P m → (∀ a, raises_only P (k a)) → raises_only P (bindM m k).
Proof.
  intros Hm Hk w. unfold bindM. destruct (Hm w) as (Hr & Hs & He).
  destruct (m w) as [[a|e|] w1]; cbn [fst snd] in *.
  - destruct (Hk a w1) as (Hr1 & Hs1 & He1). repeat split; try congruence. done.
  - split; [done|]. split; [done|]. intros e0 [= <-]. by apply He.
  - by repeat split.
Qed.

Lemma raises_only_await (P : exn → Prop) h :
  (∀ e, os_error e → P e) → disk_only h → raises_only P (await h).
Proof.
  intros HP Hh w. unfold await. destruct (Hh w) as [(_ & _ & Hr & Hs) He].
  destruct (h w) as [[e|] w1]; cbn [fst snd] in *.
  - split; [done|]. split; [done|]. intros e0 [= <-]. by apply HP, He.
  - by repeat split.
Qed.

Lemma raises_only_try_except_M {A} (P Q : exn → Prop) (m : M A)
    (handler : exn → M A) :
  raises_only Q m → (∀ e, Q e → raises_only P (handler e)) →
  raises_only P (try_except_M m handler).
Proof.
  intros Hm Hh w. unfold try_except_M. destruct (Hm w) as (Hr & Hs & He).
  destruct (m w) as [[a|e|] w1]; cbn [fst snd] in *; [done| |done].
  destruct (Hh e (He e eq_refl) w1) as (Hr1 & Hs1 & He1).
  repeat split; try congruence. done.
Qed.


Lemma raises_only_liftO {A} (P : exn → Prop) (f : filesystem → outcome A) :
  (∀ disk e, f disk = Raise e → P e) → raises_only P (liftO f).
Proof. intros Hf w. split; [done|]. split; [done|]. apply Hf. Qed.

Lemma os_error_not_http e : os_error e → is_HTTPException e = false.
Proof. by intros [text ->]. Qed.

Lemma os_error_http_within codes e : os_error e → http_within codes e.
Proof. intros He Hhttp. by rewrite (os_error_not_http e He) in Hhttp. Qed.

Lemma http_error_is_http codes e : http_error e codes → is_HTTPException e = true.
Proof. by intros (code & detail & -> & _). Qed.

End disk_proofs.

(** * Proofs: the file processor with failing directory helpers *)

Section fileproc_os_proofs.
Import Utils BatchCases PipelineCases Disk DiskCases.
Context (R : refusals) (E : environment).

Lemma in_400_500 : (400 : Z) ∈ [400; 500] ∧ (500 : Z) ∈ [400; 500].
Proof. rewrite !elem_of_cons. eauto. Qed.

Lemma raises_only_reraise_as_500 {A} e :
  http_within [400; 500] e →
  raises_only (λ x, http_error x [400; 500]) (@FileProc.reraise_as_500 A e).
Proof.
  intros He. unfold FileProc.reraise_as_500.
  destruct (is_HTTPException e) eqn:Hhttp.
  - apply raises_only_raise. by apply He.
  - apply raises_only_raise. eexists _, _. split; [done|]. apply in_400_500.
Qed.

Lemma raises_only_save_item dir saved item :
  raises_only (http_within [400; 500]) (FileProcOS.save_item R E dir saved item).
Proof.
  destruct item as [name data]. unfold FileProcOS.save_item.
  apply raises_only_bind.
  - apply raises_only_await; [apply os_error_http_within|].
    apply disk_only_ensure_dest_dir.
  - intros _ w. unfold try_except_M, bindM, write_file.
    destruct (write_fault E _); by repeat split.
Qed.

Lemma raises_only_save_items dir items : ∀ saved,
  raises_only (http_within [400; 500]) (FileProcOS.save_items R E dir items saved).
Proof.
  induction items as [|item items IH]; intros saved; cbn [FileProcOS.save_items].
  - apply raises_only_ret.
  - apply raises_only_bind; [apply raises_only_save_item|]. intros a. apply IH.
Qed.

(** The [try] of [process_uploaded_file_bytes] with its handlers: what
    leaves it is an HTTP error, also when a directory helper raised
    inside. *)
Lemma raises_only_bytes_body dir items :
  raises_only (λ x, http_error x [400; 500])
    (try_except_M
       (let* saved_paths := FileProcOS.save_items R E dir items [] in
        match saved_paths with
        | [] => raise (HTTPException 400 "No files saved for processing")
        | _ :: _ =>
            let* processing_result :=
              liftO (λ fs, DocProc.process_files_concurrent E fs saved_paths) in
            ret (FileProc.stats_of (Z.of_nat (length items)) processing_result)
        end)
       FileProc.reraise_as_500).
Proof.
  apply (raises_only_try_except_M _ (http_within [400; 500])).
  - apply raises_only_bind; [apply raises_only_save_items|].
    intros [|p saved].
    + apply raises_only_raise. intros _. eexists _, _. split; [done|].
      apply in_400_500.
    + apply raises_only_bind; [|intros r; apply raises_only_ret].
      apply raises_only_liftO. intros disk e He.
      by rewrite (process_files_concurrent_raises E _ _ _ He).
  - intros e He. by apply raises_only_reraise_as_500.
Qed.

Lemma bind_await {A} h (k : M A) w :
  bindM (await h) (λ _, k) w
  = match h w with
    | (Some e, w2) => (Raise e, w2)
    | (None, w2) => k w2
    end.
Proof. unfold bindM, await. by destruct (h w) as [[e|] w2]. Qed.


(** [process_uploaded_file_bytes] for a list that is not empty: the making
    of the directory stands before the [try]. *)
Lemma process_uploaded_file_bytes_unfold item items w :
  FileProcOS.process_uploaded_file_bytes R E (item :: items) w
  = match ensure_directory R (task_dir E w) (EndpointsOS.next_uuid w) with
    | (Some e, w2) => (Raise e, w2)
    | (None, w2) =>
        try_finally_M
          (try_except_M
             (let* saved_paths :=
                FileProcOS.save_items R E (task_dir E w) (item :: items) [] in
              match saved_paths with
              | [] => raise (HTTPException 400 "No files saved for processing")
              | _ :: _ =>
                  let* processing_result :=
                    liftO (λ fs, DocProc.process_files_concurrent E fs
                                   saved_paths) in
                  ret (FileProc.stats_of (Z.of_nat (length (item :: items)))
                         processing_result)
              end)
             FileProc.reraise_as_500)
          (await (cleanup_directory R (task_dir E w))) w2
    end.
Proof.
  unfold FileProcOS.process_uploaded_file_bytes.
  unfold bindM at 1. unfold draw_uuid_hex at 1. cbv beta iota zeta.
  apply bind_await.
Qed.



(** With the directory in place, the items are saved as on a disk where
    no directory operation fails. *)
Lemma save_item_in_place dir saved item w :
  plain_dir dir → path_exists (fs w) dir = true →
  FileProcOS.save_item R E dir saved item w
  = FileProc.save_item E dir saved item w.
Proof.
  intros Hplain Hex. destruct item as [name data].
  unfold FileProcOS.save_item, FileProc.save_item.
  unfold bindM at 1. unfold bindM at 2.
  unfold await, ensure_dest_dir, ensure_parent.
  rewrite (os_path_dirname_join dir (safe_filename name) Hplain
             (safe_filename_simple name)).
  rewrite Hex. destruct Hplain as [-> _]. reflexivity.
Qed.

Lemma save_items_in_place dir items : ∀ saved w,
  plain_dir dir → path_exists (fs w) dir = true →
  FileProcOS.save_items R E dir items saved w
  = FileProc.save_items E dir items saved w.
Proof.
  induction items as [|item items IH]; intros saved w Hplain Hex; [done|].
  cbn [FileProcOS.save_items FileProc.save_items]. unfold bindM.
  rewrite (save_item_in_place dir saved item w Hplain Hex).
  destruct (save_item_frame E dir saved item w) as (w1 & Hrun & _ & Hdir & _).
  rewrite Hrun. apply IH; [done|]. by apply Hdir.
Qed.

(** The run of [process_uploaded_file_bytes]: the making of the directory,
    the body of the [try], the removal. *)
Lemma process_uploaded_file_bytes_os_run item items w :
  let dir := task_dir E w in
  plain_dir dir →
  match ensure_directory R dir (EndpointsOS.next_uuid w) with
  | (Some e, w2) =>
      FileProcOS.process_uploaded_file_bytes R E (item :: items) w = (Raise e, w2)
  | (None, w2) =>
      ∃ o w3,
        FileProcOS.process_uploaded_file_bytes R E (item :: items) w
        = match cleanup_directory R dir w3 with
          | (None, w4) => (o, w4)
          | (Some e, w4) => (Raise e, w4)
          end ∧
        match written E dir (item :: items) with
        | [] => o = Raise (HTTPException 400 "No files saved for processing")
        | (_ :: _) as saved =>
            match DocProc.process_files_concurrent E (fs w3) saved with
            | Return r =>
                o = Return (FileProc.stats_of (Z.of_nat (length (item :: items))) r)
            | Raise e =>
                o = Raise (HTTPException 500 ("Processing failed: " +:+ Py.str e))
            | Cancelled => o = Cancelled
            end
        end
  end.
Proof.
  intros dir Hplain.
  destruct (ensure_directory_cases R dir (EndpointsOS.next_uuid w)) as [_ Hcase].
  pose proof (process_uploaded_file_bytes_unfold item items w) as Hstart.
  fold dir in Hstart.
  rewrite Hstart. clear Hstart.
  destruct (ensure_directory R dir (EndpointsOS.next_uuid w)) as [[e|] w2];
    cbn [fst snd] in Hcase; [done|].
  assert (Hex : path_exists (fs w2) dir = true).
  { rewrite Hcase. apply ensure_directory_exists. }
  unfold try_finally_M, try_except_M. unfold bindM at 1.
  rewrite (save_items_in_place dir (item :: items) [] w2 Hplain Hex).
  destruct (save_items_frame E dir (item :: items) [] w2)
    as (w3 & Hrun & _ & _ & _).
  cbn [app] in Hrun. rewrite Hrun.
  assert (Hfin : ∀ o : outcome FileProcessingStats,
            match await (cleanup_directory R dir) w3 with
            | (Return _, w4) => (o, w4)
            | (Raise e, w4) => (Raise e, w4)
            | (Cancelled, w4) => (Cancelled, w4)
            end
            = match cleanup_directory R dir w3 with
              | (None, w4) => (o, w4)
              | (Some e, w4) => (Raise e, w4)
              end).
  { intros o. unfold await. by destruct (cleanup_directory R dir w3) as [[e|] w4]. }
  destruct (written E dir (item :: items)) as [|p saved].
  - unfold raise, FileProc.reraise_as_500. cbn [is_HTTPException]. unfold raise.
    eexists _, w3. split; [apply Hfin|done].
  - unfold bindM, liftO.
    destruct (DocProc.process_files_concurrent E (fs w3) (p :: saved))
      as [r|e|] eqn:Hproc.
    + unfold ret. eexists _, w3. split; [apply Hfin|]. by rewrite Hproc.
    + pose proof (process_files_concurrent_raises _ _ _ _ Hproc) as ->.
      unfold FileProc.reraise_as_500. cbn [is_HTTPException]. unfold raise.
      eexists _, w3. split; [apply Hfin|]. by rewrite Hproc.
    + eexists _, w3. split; [apply Hfin|]. by rewrite Hproc.
Qed.

(** Saving an item leaves every path but its destination as it is. *)
Lemma save_item_keeps dir saved item w q n :
  fs w !! q = Some n → q ≠ destination dir item →
  fs (FileProc.save_item E dir saved item w).2 !! q = Some n.
Proof.
  destruct item as [name data]. unfold destination. cbn [fst].
  intros Hq Hne. unfold FileProc.save_item.
  destruct (ensure_parent_frame (os_path_join dir (safe_filename name)) w)
    as (w1 & Hens & _ & Hkeep).
  unfold bindM at 1. rewrite Hens.
  unfold try_except_M, bindM, write_file.
  destruct (write_fault E _); unfold ret; cbn [snd fs with_fs remove_if_exists].
  - rewrite lookup_delete_ne by done. by apply Hkeep.
  - rewrite lookup_insert_ne by done. by apply Hkeep.
Qed.

Lemma save_items_keep_dir dir items : ∀ saved w n,
  fs w !! dir = Some n →
  fs (FileProc.save_items E dir items saved w).2 !! dir = Some n.
Proof.
  induction items as [|item items IH]; intros saved w n Hn; [done|].
  cbn [FileProc.save_items]. unfold bindM.
  pose proof (save_item_keeps dir saved item w dir n Hn) as Hkeep.
  destruct (save_item_frame E dir saved item w) as (w1 & Hrun & _).
  rewrite Hrun in *. cbn [snd] in Hkeep. apply IH. apply Hkeep.
  destruct item as [name data]. unfold destination. cbn [fst].
  apply not_eq_sym, os_path_join_not_dir, safe_filename_simple.
Qed.

(** With an operating system that refuses nothing, the directory helpers
    return where no regular file is in the way. *)
Lemma ensure_directory_unobstructed d w :
  willing R → unobstructed (fs w) d →
  ensure_directory R d w = (None, with_fs (Utils.ensure_directory d) w)
  ∧ Utils.ensure_directory d (fs w) !! d = Some Dir.
Proof.
  intros Hwill [Hfile Hanc].
  unfold ensure_directory, Utils.ensure_directory, with_fs. cbv beta.
  destruct (path_exists (fs w) d) eqn:Hex.
  - split; [by destruct w|].
    apply bool_decide_eq_true_1 in Hex as [n Hn].
    unfold is_file in Hfile. rewrite Hn in Hfile. rewrite Hn.
    by destruct n.
  - unfold Path_mkdir. rewrite Hanc. destruct (Hwill d (fs w)) as [-> _].
    split; [done|]. by destruct (mkdir_parents_spec d (fs w)) as [-> _].
Qed.

Lemma cleanup_directory_of_dir d w :
  willing R → fs w !! d = Some Dir →
  cleanup_directory R d w = (None, with_fs (Utils.cleanup_directory d) w).
Proof.
  intros Hwill Hd.
  unfold cleanup_directory, Utils.cleanup_directory, shutil_rmtree, with_fs.
  cbv beta.
  assert (Hex : path_exists (fs w) d = true)
    by (apply bool_decide_eq_true_2; by eexists).
  rewrite Hex. unfold is_file. rewrite Hd. by destruct (Hwill d (fs w)) as [_ ->].
Qed.

(** X13 -- The exceptions of the two helpers of the background worker.
    [process_uploaded_file_paths] raises nothing but an HTTPException with
    status 400 or 500, 400 for an empty input.
    [process_uploaded_file_bytes] raises an HTTPException with status 400
    or 500 (400 for an empty input) or an OSError, and an OSError only
    from one of two places: [ensure_directory] before the [try] (line 354)
    or [cleanup_directory] in the [finally] (line 399).  So with a regular
    file where the upload directory should be, the NotADirectoryError of
    [Path.mkdir] leaves it and nothing has changed on the disk. *)
Theorem file_processor_raises_http_or_os_errors :
  (∀ paths w e w',
     FileProc.process_uploaded_file_paths E paths w = (Raise e, w') →
     http_error e [400; 500] ∧ (paths = [] → http_error e [400]))
  ∧ (∀ items w e w',
       FileProcOS.process_uploaded_file_bytes R E items w = (Raise e, w') →
       (http_error e [400; 500]
        ∨ os_error e ∧
          (raised_by (ensure_directory R (task_dir E w)) e w'
           ∨ raised_by (cleanup_directory R (task_dir E w)) e w'))
       ∧ (items = [] → http_error e [400]))
  ∧ (∀ items w,
       items ≠ [] → path_exists (fs w) (task_dir E w) = false →
       existsb (is_file (fs w))
         (ancestors (String.length (task_dir E w)) (task_dir E w)) = true →
       FileProcOS.process_uploaded_file_bytes R E items w
       = (Raise (Exc OSError_ (mkdir_enotdir R (task_dir E w))),
          EndpointsOS.next_uuid w)).
Proof.
  split; [apply process_uploaded_file_paths_raises|]. split.
  - intros [|item items] w e w'.
    { intros [= <- <-]. split; [left|intros _]; eexists _, _;
        (split; [done|]); rewrite !elem_of_cons; eauto. }
    rewrite process_uploaded_file_bytes_unfold. intros Hrun. split; [|done].
    destruct (disk_only_ensure_directory R (task_dir E w) (EndpointsOS.next_uuid w))
      as [_ Hos].
    destruct (ensure_directory R (task_dir E w) (EndpointsOS.next_uuid w))
      as [[x|] w2] eqn:Hens.
    { injection Hrun as -> ->. right. split; [by apply Hos|]. left. by eexists. }
    unfold try_finally_M in Hrun.
    destruct (raises_only_bytes_body (task_dir E w) (item :: items) w2)
      as (_ & _ & Hbody).
    destruct (try_except_M _ _ w2) as [o w3]. cbn [fst] in Hbody.
    unfold await in Hrun.
    destruct (disk_only_cleanup_directory R (task_dir E w) w3) as [_ Hos3].
    destruct (cleanup_directory R (task_dir E w) w3) as [[x|] w4] eqn:Hfin.
    + injection Hrun as -> ->. right. split; [by apply Hos3|]. right. by eexists.
    + injection Hrun as -> ->. left. by apply Hbody.
  - intros [|item items] w Hne Hex Hanc; [done|].
    rewrite process_uploaded_file_bytes_unfold.
    unfold ensure_directory, Path_mkdir. cbn [fs EndpointsOS.next_uuid].
    by rewrite Hex, Hanc.
Qed.

(** X14 -- What [process_uploaded_file_bytes] counts.  Statistics it
    returns have [total_files] equal to the number of items given and
    [skipped_files] 0, while [failed_files] counts failures among the
    files that were written only: an item whose write failed is part of
    the total and of no other counter; at least one item was written.
    Where no regular file is in the way of the per-task directory and the
    operating system refuses nothing, it raises 400 when none of the items
    can be written and returns statistics otherwise. *)
Theorem process_uploaded_file_bytes_counts items w :
  items ≠ [] → 0 < max_concurrent_files (settings E) →
  endswith_char "/" (uuid4_hex E (uuids_drawn w)) = false →
  (∀ st, (FileProcOS.process_uploaded_file_bytes R E items w).1 = Return st →
     written E (task_dir E w) items ≠ [] ∧
     total_files st = Z.of_nat (length items) ∧ skipped_files st = 0 ∧
     0 ≤ failed_files st ≤ Z.of_nat (length (written E (task_dir E w) items)) ∧
     0 ≤ processed_files st)
  ∧ (willing R → unobstructed (fs w) (task_dir E w) →
     match written E (task_dir E w) items with
     | [] => (FileProcOS.process_uploaded_file_bytes R E items w).1
             = Raise (HTTPException 400 "No files saved for processing")
     | _ :: _ =>
         ∃ st, (FileProcOS.process_uploaded_file_bytes R E items w).1 = Return st
     end).
Proof.
  intros Hne Hceil Hhex. destruct items as [|item items]; [done|].
  pose proof (plain_task_dir E w Hhex) as Hplain.
  assert (Hbatch : ∀ disk p saved,
            ∃ r, DocProc.process_files_concurrent E disk (p :: saved) = Return r ∧
                 0 ≤ DocProc.documents_failed r ≤ Z.of_nat (length (p :: saved)) ∧
                 0 ≤ DocProc.documents_processed r).
  { intros disk p saved.
    destruct (process_files_concurrent_batch E disk (p :: saved))
      as (r & Hr & Hfailed & Hdone); [done|done|].
    exists r. split; [done|]. rewrite Hfailed, Hdone.
    pose proof (collect_results_counts E disk (p :: saved)) as Hcount.
    cbv zeta in Hcount. unfold DocProc.collect_results in *.
    rewrite collect_fold in *.
    cbn [DocProc.successful_files DocProc.failed_files] in *. lia. }
  split.
  - intros st Hst.
    pose proof (process_uploaded_file_bytes_os_run item items w Hplain) as Hrun.
    cbv zeta in Hrun.
    destruct (ensure_directory R (task_dir E w) (EndpointsOS.next_uuid w))
      as [[e|] w2]; [by rewrite Hrun in Hst|].
    destruct Hrun as (o & w3 & Hrun & Hcase). rewrite Hrun in Hst.
    destruct (cleanup_directory R (task_dir E w) w3) as [[e|] w4]; [done|].
    cbn [fst] in Hst. subst o.
    destruct (written E (task_dir E w) (item :: items)) as [|p saved]; [done|].
    split; [done|].
    destruct (Hbatch (fs w3) p saved) as (r & Hr & Hfailed & Hdone).
    rewrite Hr in Hcase. injection Hcase as ->.
    unfold FileProc.stats_of.
    cbn [total_files skipped_files failed_files processed_files].
    split; [done|]. split; [done|]. split; [exact Hfailed|exact Hdone].
  - intros Hwill Hfree.
    pose proof (process_uploaded_file_bytes_unfold item items w) as Hrun.
    destruct (ensure_directory_unobstructed (task_dir E w) (EndpointsOS.next_uuid w)
                Hwill Hfree) as [Hens Hdir].
    rewrite Hens in Hrun.
    set (w2 := with_fs (Utils.ensure_directory (task_dir E w))
                 (EndpointsOS.next_uuid w)) in *.
    assert (Hex : path_exists (fs w2) (task_dir E w) = true)
      by apply ensure_directory_exists.
    unfold try_finally_M, try_except_M in Hrun. unfold bindM at 1 in Hrun.
    rewrite (save_items_in_place (task_dir E w) (item :: items) [] w2 Hplain Hex)
      in Hrun.
    pose proof (save_items_keep_dir (task_dir E w) (item :: items) [] w2 Dir Hdir)
      as Hkept.
    destruct (save_items_frame E (task_dir E w) (item :: items) [] w2)
      as (w3 & Hsave & _ & _ & _).
    cbn [app] in Hsave. rewrite Hsave in Hrun, Hkept. cbn [snd] in Hkept.
    assert (Hfin : ∀ w', fs w' = fs w3 →
              await (cleanup_directory R (task_dir E w)) w'
              = (Return tt, with_fs (Utils.cleanup_directory (task_dir E w)) w')).
    { intros w' Hw'. unfold await.
      rewrite cleanup_directory_of_dir; [done|done|by rewrite Hw']. }
    destruct (written E (task_dir E w) (item :: items)) as [|p saved].
    + unfold raise, FileProc.reraise_as_500 in Hrun.
      cbn [is_HTTPException] in Hrun. unfold raise in Hrun.
      rewrite Hfin in Hrun by done. by rewrite Hrun.
    + unfold bindM, liftO in Hrun.
      destruct (Hbatch (fs w3) p saved) as (r & Hr & _). rewrite Hr in Hrun.
      unfold ret in Hrun. rewrite Hfin in Hrun by done. rewrite Hrun. by eexists.
Qed.

End fileproc_os_proofs.

(** * Proofs: the repository service with failing directory helpers *)

Section repo_os_proofs.
Import Utils Repo PipelineCases Disk DiskCases.
Context (R : refusals) (E : environment).

(** The [try] of [process_repository] with its handlers lets nothing but
    an HTTPException out. *)
Lemma repository_body_raises_http {A} (body : M A) w e w' :
  try_except_M body
    (λ e, if is_HTTPException e then raise e
          else raise (HTTPException 500
                        ("Repository processing failed: " +:+ Py.str e))) w
  = (Raise e, w') →
  is_HTTPException e = true.
Proof.
  unfold try_except_M. destruct (body w) as [[a|x|] w1]; [done| |done].
  destruct (is_HTTPException x) eqn:Hx; unfold raise; by intros [= <- <-].
Qed.

Lemma try_finally_M_cases {A} (m : M A) (h : helper) w :
  (∃ w1 w2, m w = ((try_finally_M m (await h) w).1, w1) ∧ h w1 = (None, w2) ∧
            (try_finally_M m (await h) w).2 = w2)
  ∨ (∃ e, (try_finally_M m (await h) w).1 = Raise e ∧
          raised_by h e (try_finally_M m (await h) w).2).
Proof.
  unfold try_finally_M, await. destruct (m w) as [o w1].
  destruct (h w1) as [[e|] w2] eqn:Hh.
  - right. exists e. split; [done|]. by exists w1.
  - left. by exists w1, w2.
Qed.

(** X18 -- The exceptions of [process_repository].  Whatever the clone and
    the directory processing do, an exception that leaves it is an
    HTTPException, or the OSError that [cleanup_directory] raised in the
    [finally] clause.  A URL that fails validation is answered with 400
    before anything is touched.  With a regular file where the clone
    directory should be, [shutil.rmtree] raises in the [try] and again in
    the [finally]: NotADirectoryError leaves the function and the disk is
    as before.  When the clone raises, the directory processing is not run
    and the answer is the 400 of the failed clone, unless the last
    [cleanup_directory] raises. *)
Theorem process_repository_raises_http_or_os_errors pdf url w :
  let dir := temp_repo_dir (settings E) in
  (∀ e w', RepoOS.process_repository R E pdf url w = (Raise e, w') →
           is_HTTPException e = true
           ∨ os_error e ∧ raised_by (cleanup_directory R dir) e w')
  ∧ (_validate_git_url url = false →
     RepoOS.process_repository R E pdf url w
     = (Raise (HTTPException 400 "Invalid Git repository URL"), w))
  ∧ (_validate_git_url url = true →
     ∀ content, fs w !! dir = Some (File content) →
       RepoOS.process_repository R E pdf url w
       = (Raise (Exc OSError_ (rmtree_enotdir R dir)), w))
  ∧ (_validate_git_url url = true →
     ∀ w1 w2 e disk',
       cleanup_directory R dir w = (None, w1) →
       ensure_directory R (os_path_dirname dir) w1 = (None, w2) →
       clone_from E url dir (fs w2) = (Raise e, disk') →
       (RepoOS.process_repository R E pdf url w).1
       = Raise (HTTPException 400
                  "Failed to clone repository. Please check the URL and access permissions.")
       ∨ ∃ x, (RepoOS.process_repository R E pdf url w).1 = Raise x ∧ os_error x).
Proof.
  intros dir. unfold RepoOS.process_repository. fold dir.
  destruct (_validate_git_url url) eqn:Hvalid; cbn [negb].
  - split; [|split; [done|split]].
    + intros e w' Hrun.
      set (body := try_except_M _ _) in Hrun.
      destruct (try_finally_M_cases body (cleanup_directory R dir) w)
        as [(w1 & w2 & Hbody & _ & _)|(x & Hx & Hby)]; rewrite Hrun in *;
        cbn [fst snd] in *.
      * left. by eapply repository_body_raises_http.
      * injection Hx as <-. right. split; [|done].
        destruct Hby as [w0 Hw0].
        destruct (disk_only_cleanup_directory R dir w0) as [_ Hos].
        apply Hos. by rewrite Hw0.
    + intros _ content Hfile.
      assert (Hfails : cleanup_directory R dir w
                       = (Some (Exc OSError_ (rmtree_enotdir R dir)), w)).
      { unfold cleanup_directory, shutil_rmtree, is_file, path_exists.
        rewrite bool_decide_eq_true_2 by (by eexists). by rewrite Hfile. }
      unfold try_finally_M, try_except_M. unfold bindM at 1. unfold await at 1.
      rewrite Hfails. cbn [is_HTTPException]. unfold raise.
      unfold await. by rewrite Hfails.
    + intros _ w1 w2 e disk' Hclean Hmade Hclone.
      assert (Hrun : try_finally_M
                (try_except_M
                   (let* _ := await (cleanup_directory R dir) in
                    let* _ := await (ensure_directory R (os_path_dirname dir)) in
                    let* clone_success := _clone_repository_async E url dir in
                    if negb clone_success then
                      raise (HTTPException 400
                               "Failed to clone repository. Please check the URL and access permissions.")
                    else
                      let* processing_stats := pdf dir true in
                      ret processing_stats)
                   (λ e, if is_HTTPException e then raise e
                         else raise (HTTPException 500
                                       ("Repository processing failed: "
                                          +:+ Py.str e))))
                (await (cleanup_directory R dir)) w
              = match cleanup_directory R dir (with_fs (λ _, disk') w2) with
                | (Some x, w4) => (Raise x, w4)
                | (None, w4) =>
                    (Raise (HTTPException 400
                              "Failed to clone repository. Please check the URL and access permissions."),
                     w4)
                end).
      { unfold try_finally_M, try_except_M.
        unfold bindM at 1. unfold await at 1. rewrite Hclean.
        unfold bindM at 1. unfold await at 1. rewrite Hmade.
        unfold bindM at 1. unfold _clone_repository_async.
        rewrite Hclone.
        assert (Hfalse : (if isinstance e GitCommandError_
                          then (Return false, with_fs (λ _, disk') w2)
                          else (Return false, with_fs (λ _, disk') w2))
                         = (Return false, with_fs (λ _, disk') w2))
          by (by destruct (isinstance e GitCommandError_)).
        rewrite Hfalse. cbn [negb]. unfold raise, await.
        cbv beta iota delta [is_HTTPException].
        by destruct (cleanup_directory R dir (with_fs (λ _, disk') w2))
          as [[x|] w4]. }
      rewrite Hrun.
      destruct (disk_only_cleanup_directory R dir (with_fs (λ _, disk') w2))
        as [_ Hos].
      destruct (cleanup_directory R dir (with_fs (λ _, disk') w2)) as [[x|] w4].
      * right. exists x. split; [done|]. by apply Hos.
      * by left.
  - split; [by intros e w' [= <- <-]; left|]. by repeat split.
Qed.

End repo_os_proofs.

(** * Proofs: the scratch directories *)

Section scratch_os_proofs.
Import Utils PipelineCases Disk DiskCases Endpoints Jobs.
Context (R : refusals) (E : environment) (fnmatch : string → string → bool).






End scratch_os_proofs.

(** * Proofs: the upload endpoint with failing directory helpers *)

Section endpoint_os_proofs.
Import Utils BatchCases Endpoints UploadCases PipelineCases TaskRecords.
Import Disk DiskCases.
Context (R : refusals) (E : environment).

Lemma upload_name_os f w :
  fs (EndpointsOS.upload_name E f w).2 = fs w ∧
  registry (EndpointsOS.upload_name E f w).2 = registry w ∧
  scheduled (EndpointsOS.upload_name E f w).2 = scheduled w ∧
  wall_clock (EndpointsOS.upload_name E f w).2 = wall_clock w.
Proof.
  unfold EndpointsOS.upload_name. by destruct (filename f) as [[|c given]|].
Qed.

Lemma upload_dir_named k :
  ∃ c rest, os_path_join (temp_files_dir (settings E)) ("upload_" +:+ uuid4_hex E k)
            = String c rest.
Proof. apply fresh_upload_dir_nonempty with (E := E). by exists k. Qed.

Lemma scratch_dir_os r w :
  ∃ dir failed w', EndpointsOS.scratch_dir R E r w = ((dir, failed), w') ∧
    registry w' = registry w ∧ scheduled w' = scheduled w ∧
    wall_clock w' = wall_clock w ∧
    (∀ e, failed = Some e → os_error e) ∧
    (∀ d, task_temp_dir r = Some d → dir = d) ∧
    (named_dir (task_temp_dir r) → named_dir (Some dir)).
Proof.
  unfold EndpointsOS.scratch_dir. destruct (task_temp_dir r) as [d|] eqn:Hd.
  - eexists _, _, _. split; [reflexivity|]. split; [done|]. split; [done|].
    split; [done|]. split; [done|]. split; [by intros d' [= <-]|].
    intros Hnamed d' [= <-]. by apply Hnamed.
  - destruct (disk_only_ensure_directory R
                (os_path_join (temp_files_dir (settings E))
                   ("upload_" +:+ uuid4_hex E (uuids_drawn w)))
                (EndpointsOS.next_uuid w)) as [(_ & Hc & Hr & Hs) Hos].
    destruct (ensure_directory R _ (EndpointsOS.next_uuid w)) as [failed w'].
    cbn [fst snd] in *. eexists _, _, _. split; [reflexivity|].
    split; [done|]. split; [done|]. split; [done|]. split; [done|].
    split; [done|]. intros _ d' [= <-]. apply upload_dir_named.
Qed.

(** One iteration of the upload loop: the registry is left alone, the
    exception that ends it, if any, is an OSError raised after the
    variable [task_temp_dir] was assigned, and the disk is touched only
    when a scratch directory is in use. *)
Lemma route_file_os r f w :
  ∃ r' ended w', EndpointsOS.route_file R E r f w = ((r', ended), w') ∧
    registry w' = registry w ∧ scheduled w' = scheduled w ∧
    wall_clock w' = wall_clock w ∧
    (∀ e, ended = Some e → os_error e ∧ task_temp_dir r' ≠ None) ∧
    (named_dir (task_temp_dir r) → named_dir (task_temp_dir r')) ∧
    (∀ d, task_temp_dir r = Some d → task_temp_dir r' = Some d) ∧
    (task_temp_dir r' = None → fs w' = fs w) ∧
    ((∀ content, read f = inr content →
                 Z.of_nat (length content) ≤ IN_MEMORY_LIMIT_BYTES) →
     ended = None ∧ task_temp_dir r' = task_temp_dir r).
Proof.
  unfold EndpointsOS.route_file. destruct (read f) as [e|[|b content]] eqn:Hread.
  1, 2: exists r, None, w; split; [reflexivity|]; by repeat split.
  destruct (upload_name_os f w) as (Hfs1 & Hr1 & Hs1 & Hc1).
  destruct (EndpointsOS.upload_name E f w) as [raw_name w1]. cbn [snd] in *.
  destruct (Z.of_nat (length (b :: content)) <=? IN_MEMORY_LIMIT_BYTES) eqn:Hsize.
  { eexists _, _, _. split; [reflexivity|]. cbn [task_temp_dir].
    repeat split; try done. }
  assert (Hbig : ¬ Z.of_nat (length (b :: content)) ≤ IN_MEMORY_LIMIT_BYTES)
    by (by apply Z.leb_gt in Hsize; lia).
  destruct (scratch_dir_os r w1)
    as (dir & failed & w2 & Hscratch & Hr2 & Hs2 & Hc2 & Hos2 & Hsame & Hnamed).
  rewrite Hscratch.
  assert (Hkeep : ∀ d, task_temp_dir r = Some d → Some dir = Some d)
    by (by intros d ->%Hsame).
  destruct failed as [e|].
  { eexists _, _, _. split; [reflexivity|]. cbn [task_temp_dir].
    split; [congruence|]. split; [congruence|]. split; [congruence|].
    split; [intros e0 [= <-]; split; [by apply Hos2|done]|].
    split; [done|]. split; [done|]. split; [done|].
    intros Hfit. exfalso. apply Hbig. by apply Hfit. }
  set (dest_path := os_path_join dir (safe_filename raw_name)).
  destruct (disk_only_ensure_dest_dir R dest_path w2) as [(_ & Hc3 & Hr3 & Hs3) Hos3].
  destruct (ensure_dest_dir R dest_path w2) as [[e|] w3]; cbn [fst snd] in *.
  { eexists _, _, _. split; [reflexivity|]. cbn [task_temp_dir].
    split; [congruence|]. split; [congruence|]. split; [congruence|].
    split; [intros e0 [= <-]; split; [by apply Hos3|done]|].
    split; [done|]. split; [done|]. split; [done|].
    intros Hfit. exfalso. apply Hbig. by apply Hfit. }
  destruct (write_fault E dest_path); eexists _, _, _; (split; [reflexivity|]);
    cbn [task_temp_dir registry scheduled wall_clock with_fs remove_if_exists];
    (split; [congruence|]); (split; [congruence|]); (split; [congruence|]);
    (split; [done|]); (split; [done|]); (split; [done|]); (split; [done|]);
    intros Hfit; exfalso; apply Hbig; by apply Hfit.
Qed.

Lemma route_files_os files : ∀ r w,
  ∃ r' ended w', EndpointsOS.route_files R E r files w = ((r', ended), w') ∧
    registry w' = registry w ∧ scheduled w' = scheduled w ∧
    wall_clock w' = wall_clock w ∧
    (∀ e, ended = Some e → os_error e ∧ task_temp_dir r' ≠ None) ∧
    (named_dir (task_temp_dir r) → named_dir (task_temp_dir r')) ∧
    (∀ d, task_temp_dir r = Some d → task_temp_dir r' = Some d) ∧
    (task_temp_dir r' = None → fs w' = fs w) ∧
    (all_fit_in_memory files →
     ended = None ∧ task_temp_dir r' = task_temp_dir r).
Proof.
  induction files as [|f files IH]; intros r w; cbn [EndpointsOS.route_files].
  - exists r, None, w. split; [reflexivity|]. by repeat split.
  - destruct (route_file_os r f w)
      as (r1 & ended1 & w1 & Hrun & Hr & Hs & Hc & Hos & Hnamed & Hkeep & Hfs & Hfit).
    rewrite Hrun. destruct ended1 as [e|].
    + exists r1, (Some e), w1. split; [reflexivity|].
      split; [done|]. split; [done|]. split; [done|]. split; [done|].
      split; [done|]. split; [done|]. split; [done|].
      intros Hall. apply Forall_cons in Hall as [Hf _].
      by destruct (Hfit Hf).
    + destruct (IH r1 w1)
        as (r2 & ended2 & w2 & Hrun2 & Hr2 & Hs2 & Hc2 & Hos2 & Hnamed2 & Hkeep2
            & Hfs2 & Hfit2).
      exists r2, ended2, w2. split; [exact Hrun2|].
      split; [congruence|]. split; [congruence|]. split; [congruence|].
      split; [done|]. split; [tauto|].
      split; [by intros d ?%Hkeep%Hkeep2|]. split.
      * intros Hnone. rewrite (Hfs2 Hnone). apply Hfs.
        destruct (task_temp_dir r1) as [d|] eqn:Hd; [|done].
        by rewrite (Hkeep2 d eq_refl) in Hnone.
      * intros Hall. apply Forall_cons in Hall as [Hf Hall].
        destruct (Hfit Hf) as [_ Hsame1]. destruct (Hfit2 Hall) as [-> Hsame2].
        split; [done|congruence].
Qed.

(** [if dir: await cleanup_directory(dir)]: it returns with the directory
    gone, or the removal raised. *)
Lemma cleanup_if_set_cases dir w :
  named_dir dir →
  ∃ o w', EndpointsOS.cleanup_if_set R dir w = (o, w') ∧ same_but_disk w w' ∧
    (o = Return tt ∧ (∀ d, dir = Some d → path_exists (fs w') d = false) ∧
       (dir = None → w' = w)
     ∨ ∃ e d, o = Raise e ∧ os_error e ∧ dir = Some d ∧
              raised_by (cleanup_directory R d) e w').
Proof.
  intros Hnamed. destruct dir as [d|].
  - destruct (Hnamed d eq_refl) as (c & rest & ->).
    cbn [EndpointsOS.cleanup_if_set]. unfold await.
    destruct (disk_only_cleanup_directory R (String c rest) w) as [Hsame Hos].
    destruct (cleanup_directory R (String c rest) w) as [[e|] w'] eqn:Hrun;
      cbn [fst snd] in *; eexists _, _; (split; [reflexivity|]); (split; [done|]).
    + right. exists e, (String c rest). split; [done|]. split; [by apply Hos|].
      split; [done|]. by exists w.
    + left. split; [done|]. split; [|done]. intros d [= <-].
      by apply (cleanup_directory_returns R _ w).
  - exists (Return tt), w. split; [done|]. split; [apply same_but_disk_refl|].
    left. by repeat split.
Qed.

(** The handler of the outer [try] for an exception that is no
    HTTPException: the scratch directory is removed and the answer is
    500, unless the removal raises. *)
Lemma scheduling_failed_cases {A} dir e w :
  named_dir dir → is_HTTPException e = false →
  ∃ o w', @EndpointsOS.scheduling_failed R A dir e w = (o, w') ∧
    same_but_disk w w' ∧
    (o = Raise (HTTPException 500 "Failed to schedule file processing") ∧
       (∀ d, dir = Some d → path_exists (fs w') d = false)
     ∨ ∃ e' d, o = Raise e' ∧ os_error e' ∧ dir = Some d ∧
               raised_by (cleanup_directory R d) e' w').
Proof.
  intros Hnamed Hhttp. unfold EndpointsOS.scheduling_failed. rewrite Hhttp.
  unfold bindM.
  destruct (cleanup_if_set_cases dir w Hnamed)
    as (o & w' & -> & Hsame & [(-> & Hgone & _)|(e' & d & -> & Hos & Hd & Hby)]).
  - eexists _, _. split; [reflexivity|]. split; [done|]. by left.
  - eexists _, _. split; [reflexivity|]. split; [done|]. right. by exists e', d.
Qed.

(** X20 -- The answers of POST /process-files for a non-empty submission.
    The upload loop stands inside the outer [try].  When one of its calls
    of [ensure_directory] raises, the loop ends with that OSError, the
    handler removes the scratch directory and the answer is 500 "Failed to
    schedule file processing"; nothing is scheduled.  When the loop ends
    and has kept nothing (every item was empty, unreadable or could not be
    written) the answer is 400 with the scratch directory, if one was
    made, gone; when that removal raises, the handler tries again and the
    answer is 500.  Only the OSError of a removal in the handler leaves
    the endpoint as such.  Otherwise the answer is the 202 body for a new
    identifier: the registry holds one new PENDING record under it, named
    after the number of kept items, and the coroutine scheduled under it
    is the worker with exactly the items, paths and directory of the
    loop; every other record is as before.  A submission whose items all
    fit in memory makes no scratch directory and its loop cannot raise. *)
Theorem process_uploaded_files_outcome f files w :
  ∃ r ended w1 o w',
    EndpointsOS.route_files R E no_routing (f :: files) w = ((r, ended), w1) ∧
    EndpointsOS.process_uploaded_files R E (f :: files) w = (o, w') ∧
    (all_fit_in_memory (f :: files) → ended = None ∧ task_temp_dir r = None) ∧
    let removal_raised :=
      ∃ e d, o = Raise e ∧ os_error e ∧ task_temp_dir r = Some d ∧
             raised_by (cleanup_directory R d) e w' in
    let scratch_gone :=
      ∀ d, task_temp_dir r = Some d → path_exists (fs w') d = false in
    let not_scheduled :=
      registry w' = registry w ∧ scheduled w' = scheduled w in
    match ended, items_in_memory r, saved_paths r with
    | Some e, _, _ =>
        os_error e ∧ task_temp_dir r ≠ None ∧ not_scheduled ∧
        (o = Raise (HTTPException 500 "Failed to schedule file processing")
           ∧ scratch_gone
         ∨ removal_raised)
    | None, [], [] =>
        not_scheduled ∧
        (o = Raise (HTTPException 400 "No processable files after filtering")
           ∧ scratch_gone ∧ (task_temp_dir r = None → fs w' = fs w)
         ∨ o = Raise (HTTPException 500 "Failed to schedule file processing")
           ∧ scratch_gone ∧ task_temp_dir r ≠ None
         ∨ removal_raised)
    | None, _, _ =>
        let task_id := uuid4_str E (uuids_drawn w1) in
        o = Return {| message := "File processing started in the background.";
                      task_id := task_id;
                      status_url := "/api/v1/tasks/" +:+ task_id |} ∧
        Tasks.get_task_status task_id (registry w')
        = Some (new_record (wall_clock w) task_id
                  ("Processing "
                     +:+ pretty (Z.of_nat (length (items_in_memory r))
                                 + Z.of_nat (length (saved_paths r)))
                     +:+ " uploaded files")) ∧
        scheduled w' !! task_id
        = Some (BgWorker (items_in_memory r) (saved_paths r) (task_temp_dir r)) ∧
        fs w' = fs w1 ∧
        (∀ other, other ≠ task_id →
           Tasks.get_task_status other (registry w')
           = Tasks.get_task_status other (registry w))
    end.
Proof.
  destruct (route_files_os (f :: files) no_routing w)
    as (r & ended & w1 & Hrun & Hr & Hs & Hc & Hos & Hnamed & _ & Hfs & Hfit).
  assert (Hdir : named_dir (task_temp_dir r)) by (by apply Hnamed).
  assert (Hendpoint : EndpointsOS.process_uploaded_files R E (f :: files) w
            = match ended with
              | Some e => EndpointsOS.scheduling_failed R (task_temp_dir r) e w1
              | None =>
                  try_except_M
                    (match items_in_memory r, saved_paths r with
                     | [], [] =>
                         let* _ := EndpointsOS.cleanup_if_set R (task_temp_dir r) in
                         raise (HTTPException 400
                                  "No processable files after filtering")
                     | _, _ =>
                         let* task_id :=
                           create_task E
                             ("Processing "
                                +:+ pretty (Z.of_nat (length (items_in_memory r))
                                            + Z.of_nat (length (saved_paths r)))
                                +:+ " uploaded files")
                             (BgWorker (items_in_memory r) (saved_paths r)
                                (task_temp_dir r)) in
                         ret {| message := "File processing started in the background.";
                                task_id := task_id;
                                status_url := "/api/v1/tasks/" +:+ task_id |}
                     end)
                    (EndpointsOS.scheduling_failed R (task_temp_dir r)) w1
              end).
  { unfold EndpointsOS.process_uploaded_files. by rewrite Hrun. }
  exists r, ended, w1.
  destruct ended as [e|].
  { destruct (Hos e eq_refl) as [Hose Hassigned].
    destruct (scheduling_failed_cases (A := accepted) (task_temp_dir r) e w1 Hdir
                (os_error_not_http e Hose))
      as (o & w' & Hh & (_ & _ & Hr' & Hs') & Hcase).
    exists o, w'. split; [done|]. split; [by rewrite Hendpoint|].
    split; [intros Hall; by destruct (Hfit Hall)|]. cbv zeta.
    split; [done|]. split; [done|]. split; [split; congruence|]. exact Hcase. }
  assert (Hfit' : all_fit_in_memory (f :: files) →
                  @None exn = None ∧ task_temp_dir r = None).
  { intros Hall. by destruct (Hfit Hall). }
  destruct (items_in_memory r) as [|item items] eqn:Hitems;
    [destruct (saved_paths r) as [|p paths] eqn:Hpaths|].
  - unfold try_except_M, bindM in Hendpoint.
    destruct (cleanup_if_set_cases (task_temp_dir r) w1 Hdir)
      as (o1 & w2 & Hclean & (_ & _ & Hr2 & Hs2)
          & [(-> & Hgone & Hnone)|(e' & d & -> & Hose & Hd & Hby)]).
    + rewrite Hclean in Hendpoint. unfold raise in Hendpoint.
      cbn [is_HTTPException] in Hendpoint.
      unfold EndpointsOS.scheduling_failed, raise in Hendpoint.
      cbn [is_HTTPException] in Hendpoint.
      eexists _, w2. split; [done|]. split; [exact Hendpoint|].
      split; [done|]. cbv zeta. split; [split; congruence|]. left.
      split; [done|]. split; [done|]. intros Hn. rewrite (Hnone Hn).
      by apply Hfs.
    + rewrite Hclean in Hendpoint.
      destruct (scheduling_failed_cases (A := accepted) (task_temp_dir r) e' w2
                  Hdir (os_error_not_http e' Hose))
        as (o & w' & Hh & (_ & _ & Hr' & Hs') & Hcase).
      rewrite Hh in Hendpoint.
      exists o, w'. split; [done|]. split; [exact Hendpoint|].
      split; [done|]. cbv zeta. split; [split; congruence|].
      destruct Hcase as [[-> Hgone]|Hraised].
      * right. left. split; [done|]. split; [done|]. by rewrite Hd.
      * by right; right.
  - unfold try_except_M, bindM, create_task, Tasks.create_task, ret in Hendpoint.
    cbv beta iota zeta in Hendpoint.
    eexists _, _. split; [done|]. split; [exact Hendpoint|]. split; [done|].
    cbv zeta. unfold Tasks.get_task_status.
    cbn [registry scheduled fs Tasks._tasks]. rewrite !lookup_insert_eq.
    rewrite Hc, Hr. split; [done|]. split; [done|]. split; [done|].
    split; [done|]. intros other Hother. by rewrite lookup_insert_ne.
  - unfold try_except_M, bindM, create_task, Tasks.create_task, ret in Hendpoint.
    cbv beta iota zeta in Hendpoint.
    eexists _, _. split; [done|]. split; [exact Hendpoint|]. split; [done|].
    cbv zeta. unfold Tasks.get_task_status.
    cbn [registry scheduled fs Tasks._tasks]. rewrite !lookup_insert_eq.
    rewrite Hc, Hr. split; [done|]. split; [done|]. split; [done|].
    split; [done|]. intros other Hother. by rewrite lookup_insert_ne.
Qed.

End endpoint_os_proofs.

(** * Proofs: a unit of work from its submission to its end *)

Section job_os_proofs.
Import Utils BatchCases PipelineCases Endpoints UploadCases DirFiles Jobs.
Import TaskRecords Disk DiskCases.
Context (R : refusals) (E : environment) (fnmatch : string → string → bool).



(** *** When a computation is cancelled *)








Section with_a_ceiling.
Hypothesis Hceiling : 0 < max_concurrent_files (settings E).











End with_a_ceiling.

(** *** What a unit of work raises *)











End job_os_proofs.

(** * Proofs: the URLs the repository service accepts *)

Section url_proofs.
Import Utils Repo UrlCases.

Lemma has_char_lstrip_c0_or_space c s :
  has_char c (lstrip_c0_or_space s) = true → has_char c s = true.
Proof.
  induction s as [|c' s IH]; [done|]. cbn [lstrip_c0_or_space].
  destruct (_ <=? _)%N; [|done]. intros H%IH. cbn [has_char]. rewrite H.
  apply orb_true_r.
Qed.

Lemma has_char_remove_unsafe_bytes c s :
  has_char c (remove_unsafe_bytes s) = true → has_char c s = true.
Proof.
  induction s as [|c' s IH]; [done|]. cbn [remove_unsafe_bytes].
  destruct (existsb _ _); cbn [has_char].
  - intros H%IH. rewrite H. apply orb_true_r.
  - intros [->|H%IH]%orb_true_iff; [done|]. rewrite H. apply orb_true_r.
Qed.

Lemma has_char_partition sep c s :
  (has_char c (partition sep s).1 = true → has_char c s = true)
  ∧ ∀ rest, (partition sep s).2 = Some rest →
            has_char c rest = true → has_char c s = true.
Proof.
  induction s as [|c' s [IH1 IH2]]; [done|]. cbn [partition].
  destruct (sep c').
  - cbn [fst snd has_char]. split; [done|]. intros rest [= <-] ->.
    apply orb_true_r.
  - destruct (partition sep s) as [before after]. cbn [fst snd has_char] in *.
    split.
    + intros [->|H%IH1]%orb_true_iff; [done|]. rewrite H. apply orb_true_r.
    + intros rest Hafter H. rewrite (IH2 rest Hafter H). apply orb_true_r.
Qed.

Lemma has_char_split_scheme c url :
  has_char c (split_scheme url).2 = true → has_char c url = true.
Proof.
  unfold split_scheme. set (u := remove_unsafe_bytes (lstrip_c0_or_space url)).
  assert (Hu : has_char c u = true → has_char c url = true).
  { intros H. by apply has_char_lstrip_c0_or_space, has_char_remove_unsafe_bytes. }
  destruct (has_char_partition (Ascii.eqb ":") c u) as [_ Hrest].
  destruct (partition (Ascii.eqb ":") u) as [[|c0 before] [rest|]];
    cbn [snd] in *; try done.
  destruct (_ && _); cbn [snd]; [|done]. intros H. apply Hu. by apply (Hrest rest).
Qed.

(** [urlsplit] does not raise on a URL without square brackets. *)
Lemma url_netloc_returns url :
  has_char "[" url = false → has_char "]" url = false →
  ∃ netloc, url_netloc url = Return netloc.
Proof.
  intros Hopen Hclose. unfold url_netloc.
  assert (Hchars : ∀ c, has_char c (split_scheme url).2 = true →
                        has_char c url = true)
    by (intros c; apply has_char_split_scheme).
  destruct (split_scheme url).2 as [|c1 tail]; [by exists EmptyString|].
  destruct (Ascii.eqb_spec c1 "/") as [->|Hc1].
  2: { destruct c1 as [[] [] [] [] [] [] [] []]; try (by exists EmptyString); by destruct Hc1. }
  destruct tail as [|c2 rest]; [by exists EmptyString|].
  destruct (Ascii.eqb_spec c2 "/") as [->|Hc2].
  2: { destruct c2 as [[] [] [] [] [] [] [] []]; try (by exists EmptyString); by destruct Hc2. }
  set (sep := λ c, existsb (Ascii.eqb c) [chr 47; chr 63; chr 35]).
  assert (Hnone : ∀ c, has_char c url = false →
                       has_char c (partition sep rest).1 = false).
  { intros c Hc. destruct (has_char c (partition sep rest).1) eqn:Hin; [|done].
    destruct (has_char_partition sep c rest) as [Hbefore _].
    rewrite <- Hc. symmetry. apply Hchars. cbn [has_char].
    rewrite (Hbefore Hin). by rewrite !orb_true_r. }
  rewrite (Hnone "["%char Hopen), (Hnone "]"%char Hclose).
  by exists (partition sep rest).1.
Qed.

(** X17 -- For a URL of ASCII characters without square brackets,
    [urlparse] returns and [_validate_git_url] accepts the URL exactly
    when its scheme is one of http, https, git and ssh and [urlparse] finds a
    host name in it.  The list of known hosting services has no part in
    the answer. *)
Theorem git_url_valid_iff_scheme_and_host url :
  plain_url url →
  (∃ netloc, url_netloc url = Return netloc) ∧
  (_validate_git_url url = true ↔
   url_scheme url ∈ valid_schemes ∧
   ∃ netloc hostname,
     url_netloc url = Return netloc ∧ hostname_of_netloc netloc = Some hostname).
Proof.
  intros (_ & Hopen & Hclose).
  split; [by apply url_netloc_returns|].
  unfold _validate_git_url.
  assert (Hscheme : existsb (String.eqb (url_scheme url)) valid_schemes = true
                    ↔ url_scheme url ∈ valid_schemes).
  { rewrite existsb_exists. split.
    - intros (x & Hin & ->%String.eqb_eq). by apply list_elem_of_In.
    - intros Hin. exists (url_scheme url). split; [by apply list_elem_of_In|].
      apply String.eqb_refl. }
  destruct (url_netloc url) as [netloc|e|] eqn:Hnet;
    cbn [mbind outcome_bind Py.bind try_except].
  - destruct (existsb (String.eqb (url_scheme url)) valid_schemes) eqn:Hs;
      cbn [negb].
    + destruct (hostname_of_netloc netloc) as [hostname|] eqn:Hhost.
      * destruct (existsb _ valid_hosts); split; try done;
          intros _; (split; [by apply Hscheme|]); by exists netloc, hostname.
      * split; [done|]. intros (_ & n & h & [= <-] & Hh). congruence.
    + split; [done|]. intros [Hin _]. apply Hscheme in Hin. done.
  - split; [done|]. by intros (_ & n & h & ? & _).
  - split; [done|]. by intros (_ & n & h & ? & _).
Qed.

End url_proofs.

(** * Scenarios: scratch directories on a disk that can refuse *)

Section disk_scenarios.
Import Utils BatchCases PipelineCases Scenario PipelineScenario.
Import Disk DiskCases DiskScenario Jobs.



(** X13 on a concrete run: a regular file stands where the upload
    directory should be. *)
Lemma file_processor_raises_http_or_os_errors_witness :
  FileProcOS.process_uploaded_file_bytes R0 E0 [("a.py", code200)]
    upload_dir_is_a_file
  = (Raise (Exc OSError_ "[Errno 20] Not a directory: 'temp_files/upload_0f0'"),
     EndpointsOS.next_uuid upload_dir_is_a_file).
Proof.
  destruct (file_processor_raises_http_or_os_errors R0 E0) as (_ & _ & Hfile).
  apply (Hfile [("a.py", code200)] upload_dir_is_a_file);
    [discriminate|vm_compute; reflexivity..].
Defined.

(** X14 on a concrete run: two items, one of which cannot be written. *)
Lemma process_uploaded_file_bytes_counts_witness :
  ∃ st, (FileProcOS.process_uploaded_file_bytes R0 E_locked
           [("a.py", code200); ("locked.py", code200)] w0).1 = Return st ∧
        total_files st = 2 ∧ skipped_files st = 0 ∧
        0 ≤ failed_files st ≤ 1.
Proof.
  destruct (process_uploaded_file_bytes_counts R0 E_locked
              [("a.py", code200); ("locked.py", code200)] w0)
    as [Hcounts Hruns]; [discriminate|vm_compute; reflexivity..|].
  assert (Hwritten : written E_locked (task_dir E_locked w0)
                       [("a.py", code200); ("locked.py", code200)]
                     = ["./temp_files/upload_0f0/a.py"])
    by (vm_compute; reflexivity).
  rewrite Hwritten in Hcounts, Hruns.
  destruct Hruns as [st Hst].
  { intros p disk. split; reflexivity. }
  { split; vm_compute; reflexivity. }
  destruct (Hcounts st Hst) as (_ & Htotal & Hskip & Hfail & _).
  exists st. split; [exact Hst|]. split; [exact Htotal|].
  split; [exact Hskip|exact Hfail].
Defined.

(** X17 on a GitHub URL. *)
Lemma git_url_valid_iff_scheme_and_host_witness :
  Repo.url_scheme a_repository ∈ Repo.valid_schemes
  ∧ ∃ netloc hostname,
      Repo.url_netloc a_repository = Return netloc ∧
      Repo.hostname_of_netloc netloc = Some hostname.
Proof.
  destruct (git_url_valid_iff_scheme_and_host a_repository) as [_ Hiff].
  { split; [vm_compute; reflexivity|]. split; vm_compute; reflexivity. }
  apply Hiff. vm_compute; reflexivity.
Defined.

(** X18 on concrete runs: a regular file where the clone directory should
    be, and a clone that fails. *)
Lemma process_repository_raises_http_or_os_errors_witness :
  RepoOS.process_repository R0 E_offline
    (DirFiles.process_directory_files E_offline Fnmatch.fnmatch)
    a_repository clone_dir_is_a_file
  = (Raise (Exc OSError_ "[Errno 20] Not a directory: './temp_repo'"),
     clone_dir_is_a_file)
  ∧ (RepoOS.process_repository R0 E_offline
       (DirFiles.process_directory_files E_offline Fnmatch.fnmatch)
       a_repository w0).1
    = Raise (HTTPException 400
               "Failed to clone repository. Please check the URL and access permissions.").
Proof.
  split.
  - destruct (process_repository_raises_http_or_os_errors R0 E_offline
                (DirFiles.process_directory_files E_offline Fnmatch.fnmatch)
                a_repository clone_dir_is_a_file) as (_ & _ & Hfile & _).
    apply (Hfile eq_refl []). vm_compute; reflexivity.
  - destruct (process_repository_raises_http_or_os_errors R0 E_offline
                (DirFiles.process_directory_files E_offline Fnmatch.fnmatch)
                a_repository w0) as (_ & _ & _ & Hclone).
    edestruct (Hclone eq_refl) as [H400|(x & Hx & [text ->])];
      [vm_compute; reflexivity..|exact H400|].
    exfalso. revert Hx. vm_compute. discriminate.
Defined.

(** X20 on a concrete run: an oversized upload while a regular file stands
    where the upload directory should be. *)
Lemma process_uploaded_files_outcome_witness :
  (EndpointsOS.process_uploaded_files R0 E0 [upload "big.bin" big]
     upload_dir_is_a_file).1
  = Raise (HTTPException 500 "Failed to schedule file processing")
  ∧ scheduled (EndpointsOS.process_uploaded_files R0 E0 [upload "big.bin" big]
                 upload_dir_is_a_file).2
    = scheduled upload_dir_is_a_file.
Proof.
  destruct (process_uploaded_files_outcome R0 E0 (upload "big.bin" big) []
              upload_dir_is_a_file)
    as (r & ended & w1 & o & w' & Hroute & Hrun & _ & Hcase).
  assert (Hended : (EndpointsOS.route_files R0 E0 Endpoints.no_routing
                      [upload "big.bin" big] upload_dir_is_a_file).1.2
                   = Some (Exc OSError_
                             "[Errno 20] Not a directory: 'temp_files/upload_0f0'"))
    by (vm_compute; reflexivity).
  rewrite Hroute in Hended. cbn [fst snd] in Hended. subst ended.
  cbv zeta in Hcase.
  destruct Hcase as (_ & _ & [_ Hs] & Hanswer).
  rewrite Hrun. cbn [fst snd]. split; [|exact Hs].
  destruct Hanswer as [[-> _]|(e & d & -> & [text ->] & _)]; [reflexivity|].
  exfalso.
  assert (Hans : (EndpointsOS.process_uploaded_files R0 E0 [upload "big.bin" big]
                    upload_dir_is_a_file).1
                 = Raise (HTTPException 500 "Failed to schedule file processing"))
    by (vm_compute; reflexivity).
  rewrite Hrun in Hans. discriminate Hans.
Defined.


End disk_scenarios.
